(** * carbondata: the data-collection and quality pipeline

    A shallow embedding of the TypeScript sources of the MCP collector:
    the shared [QualityChecker], the standalone duplicate detector, the
    date normalisers of the CARB CSV and CEA adapters, their
    [validateData], and the [TaskScheduler] with its retry counter and
    bounded execution history.

    JavaScript numbers are IEEE 754 binary64 values and are modelled by
    Rocq's primitive floats wherever the code compares or computes with
    prices; counters, scores built from integer penalties and time
    values are integers and are modelled by [Z]. *)

From Stdlib Require Import ZArith List String Ascii Lia Floats.
From Stdlib Require Import DecimalString DecimalZ Permutation Sorted.
From stdpp Require Import base option list gmap strings.

Open Scope string_scope.
Open Scope Z_scope.
Open Scope list_scope.

#[local] Arguments String.append !s1 s2 : simpl nomatch.

(** ** JavaScript built-ins used by the sources *)
Module JS.

(** [number]: a JavaScript number. *)
Definition number := float.

(** [!x] for a number: [0], [-0] and [NaN] are falsy. *)
Definition falsy_number (x : number) : bool :=
  (x =? 0)%float || is_nan x.

(** [!s] for a string: only the empty string is falsy. *)
Definition falsy_string (s : string) : bool :=
  bool_decide (s = "").

(** [Math.min] and [Math.max]: [NaN] if either argument is [NaN]. *)
Definition Math_min (a b : number) : number :=
  if is_nan a then a else if is_nan b then b
  else if (a <? b)%float then a else if (b <? a)%float then b
  else if (1 / a <? 0)%float then a else b.

Definition Math_max (a b : number) : number :=
  if is_nan a then a else if is_nan b then b
  else if (a <? b)%float then b else if (b <? a)%float then a
  else if (1 / a <? 0)%float then b else a.

Definition Math_abs (a : number) : number := PrimFloat.abs a.

(** [arr.join(sep)] on an array of strings. *)
Fixpoint join (sep : string) (l : list string) : string :=
  match l with
  | [] => ""
  | [s] => s
  | s :: rest => s +:+ sep +:+ join sep rest
  end.

(** Decimal rendering of an integer-valued number below 1e21, which is
    how [toString] and template literals print it. *)
Definition Z_toString (z : Z) : string :=
  NilZero.string_of_int (Z.to_int z).

(** [s.padStart(2, '0')]. *)
Definition padStart2 (s : string) : string :=
  match String.length s with
  | O => "00"
  | S O => "0" +:+ s
  | _ => s
  end.

(** A time value, the result of [new Date(s).getTime()]: an integral
    number of milliseconds, or [NaN] ([None]) for an invalid date. *)
Definition time := option Z.

(** [a - b] on time values as a sort comparator sees it: the engine's
    [SortCompare] replaces a [NaN] result by [+0]. *)
Definition time_compare (a b : time) : Z :=
  match a, b with
  | Some x, Some y => x - y
  | _, _ => 0
  end.

(** [JSON.stringify] of an array of time values: [NaN] prints as [null]. *)
Definition JSON_time (t : time) : string :=
  match t with
  | Some z => Z_toString z
  | None => "null"
  end.

Definition JSON_stringify_times (l : list time) : string :=
  "[" +:+ join "," (map JSON_time l) +:+ "]".

(** [Array.prototype.sort(cmp)].  The sort is stable, and for a
    comparator that orders the elements consistently every engine
    returns the same array.  When the comparator is inconsistent (here:
    a [NaN] time compares as equal to everything) ECMAScript leaves the
    order to the engine; the model fixes it as the insertion sort that
    moves each element left past the elements it is strictly smaller
    than.  An engine that inserts by binary search, as V8 does, can
    order such an array differently; what [calculateScore] asks of the
    sorted array is only whether it is the array as it was.  The
    accumulator of [sort_insert] holds the processed prefix in
    reverse. *)
Fixpoint sort_insert {A} (cmp : A -> A -> Z) (x : A) (rev_acc : list A) : list A :=
  match rev_acc with
  | [] => [x]
  | y :: rest =>
      if cmp x y <? 0 then y :: sort_insert cmp x rest else x :: y :: rest
  end.

Definition sort {A} (cmp : A -> A -> Z) (l : list A) : list A :=
  rev (fold_left (fun acc x => sort_insert cmp x acc) l []).

(** Every element is related to its right neighbour. *)
Fixpoint chain {A} (R : A -> A -> Prop) (l : list A) : Prop :=
  match l with
  | [] => True
  | a :: rest =>
      match rest with
      | [] => True
      | b :: _ => R a b
      end /\ chain R rest
  end.

(** No element is strictly smaller than its left neighbour. *)
Definition in_order {A} (cmp : A -> A -> Z) (l : list A) : Prop :=
  chain (fun a b => ~ cmp b a < 0) l.


(** [s.startsWith(p)]. *)
Fixpoint startsWith (p s : string) : bool :=
  match p, s with
  | EmptyString, _ => true
  | String a p', String b s' => Ascii.eqb a b && startsWith p' s'
  | String _ _, EmptyString => false
  end.

(** The characters a regular expression's [\d] accepts. *)
Definition is_digit (c : ascii) : bool :=
  (48 <=? N_of_ascii c)%N && (N_of_ascii c <=? 57)%N.

Definition digit_value (c : ascii) : Z := Z.of_N (N_of_ascii c) - 48.

(** [parseInt] on a string of decimal digits. *)
Definition parseInt (s : string) : Z :=
  fold_left (fun acc c => 10 * acc + digit_value c) (list_ascii_of_string s) 0.

Definition all_digits (s : string) : bool :=
  forallb is_digit (list_ascii_of_string s).

(** *** Facts about [chain] and [sort] *)

Lemma chain_snoc2 {A} (R : A -> A -> Prop) l y x :
  chain R (l ++ [y; x]) <-> chain R (l ++ [y]) /\ R y x.
Proof.
  induction l as [|a l IH]; simpl.
  - tauto.
  - destruct l as [|b l]; simpl in *; tauto.
Qed.


Lemma chain_rev {A} (R : A -> A -> Prop) l :
  chain (fun a b => R b a) l -> chain R (rev l).
Proof.
  induction l as [|a l IH]; simpl; [tauto|].
  destruct l as [|b l]; simpl in *; [tauto|].
  intros [Hab Hl]. rewrite <- app_assoc. simpl.
  apply chain_snoc2. split; [apply IH; exact Hl | exact Hab].
Qed.

Lemma sort_insert_perm {A} (cmp : A -> A -> Z) x acc :
  Permutation (sort_insert cmp x acc) (x :: acc).
Proof.
  induction acc as [|y rest IH]; simpl; [reflexivity|].
  destruct (cmp x y <? 0); [|reflexivity].
  rewrite IH. apply perm_swap.
Qed.

Lemma sort_fold_perm {A} (cmp : A -> A -> Z) l acc :
  Permutation (fold_left (fun acc x => sort_insert cmp x acc) l acc) (l ++ acc).
Proof.
  revert acc. induction l as [|a l IH]; intros acc; simpl; [reflexivity|].
  rewrite IH, sort_insert_perm. symmetry. apply Permutation_middle.
Qed.

Lemma sort_perm {A} (cmp : A -> A -> Z) l : Permutation (sort cmp l) l.
Proof.
  unfold sort. rewrite <- Permutation_rev, sort_fold_perm, app_nil_r. reflexivity.
Qed.

Section SortOrder.
Context {A : Type} (cmp : A -> A -> Z).
Hypothesis cmp_asym : forall a b, cmp a b < 0 -> ~ cmp b a < 0.

Lemma sort_insert_chain x acc :
  chain (fun a b => ~ cmp a b < 0) acc ->
  chain (fun a b => ~ cmp a b < 0) (sort_insert cmp x acc).
Proof using cmp_asym.
  induction acc as [|y rest IH]; simpl; [tauto|].
  intros [Hy Hrest]. destruct (Z.ltb_spec (cmp x y) 0) as [Hlt|Hge].
  - specialize (IH Hrest). simpl. split; [|exact IH].
    destruct rest as [|z r]; simpl in *.
    + apply cmp_asym. exact Hlt.
    + destruct (cmp x z <? 0); [exact Hy | apply cmp_asym; exact Hlt].
  - simpl. split; [lia|]. split; [exact Hy | exact Hrest].
Qed.

Lemma sort_fold_chain l acc :
  chain (fun a b => ~ cmp a b < 0) acc ->
  chain (fun a b => ~ cmp a b < 0)
    (fold_left (fun acc x => sort_insert cmp x acc) l acc).
Proof using cmp_asym.
  revert acc. induction l as [|a l IH]; intros acc Hacc; simpl; [exact Hacc|].
  apply IH, sort_insert_chain, Hacc.
Qed.

Lemma sort_in_order l : in_order cmp (sort cmp l).
Proof using cmp_asym.
  unfold in_order, sort. apply chain_rev, sort_fold_chain. exact I.
Qed.


End SortOrder.

Lemma time_compare_asym a b : time_compare a b < 0 -> ~ time_compare b a < 0.
Proof. destruct a, b; simpl; lia. Qed.

(** On time values that are all valid the comparator is consistent,
    and the array that [sort] returns is the one every engine returns:
    the same values in ascending order. *)
Lemma sort_valid_times (l : list Z) :
  exists sorted,
    sort time_compare (map Some l) = map Some sorted
    /\ Permutation sorted l
    /\ LocallySorted Z.le sorted.
Proof.
  pose proof (sort_perm time_compare (map Some l)) as Hperm.
  pose proof (sort_in_order time_compare time_compare_asym (map Some l)) as Hord.
  assert (Hall : Forall (fun t => exists z, t = Some z) (sort time_compare (map Some l))).
  { eapply Permutation_Forall; [symmetry; exact Hperm|].
    clear. induction l; simpl; constructor; eauto. }
  revert Hperm Hord Hall. generalize (sort time_compare (map Some l)) as r.
  intros r Hperm Hord Hall.
  assert (Hr : exists sorted, r = map Some sorted).
  { clear Hperm Hord. induction Hall as [|t r [z ->] _ [sorted ->]].
    - exists []. reflexivity.
    - exists (z :: sorted). reflexivity. }
  destruct Hr as [sorted ->]. exists sorted. split; [reflexivity|]. split.
  - apply Permutation_map_inv in Hperm. destruct Hperm as (l3 & E & Hperm).
    assert (sorted = l3) as ->; [|symmetry; exact Hperm].
    clear -E. revert l3 E.
    induction sorted as [|a sorted IH]; intros [|b l3] E; simpl in E;
      try discriminate; [reflexivity|].
    injection E as -> E. f_equal. apply IH, E.
  - clear Hperm Hall. unfold in_order in Hord.
    induction sorted as [|a [|b sorted] IH]; simpl in *; constructor.
    + apply IH. tauto.
    + lia.
Qed.

(** *** Comparison of numbers *)

Lemma SFcompare_antisym x y c :
  SFcompare x y = Some c -> SFcompare y x = Some (CompOpp c).
Proof.
  destruct x as [sx|sx| |sx mx ex], y as [sy|sy| |sy my ey]; simpl;
    try discriminate; try (intros [= <-]; reflexivity);
    try (destruct sx; intros [= <-]; reflexivity);
    try (destruct sy; intros [= <-]; reflexivity).
  - destruct sx, sy; intros [= <-]; reflexivity.
  - assert (Hm : Pos.compare_cont Eq my mx = CompOpp (Pos.compare_cont Eq mx my))
      by (rewrite Pos.compare_cont_antisym; reflexivity).
    destruct sx, sy; intros [= <-]; try reflexivity; f_equal;
      rewrite (Z.compare_antisym ex ey), Hm;
      destruct (ex ?= ey), (Pos.compare_cont Eq mx my); reflexivity.
Qed.

Lemma SFcompare_eq_l x y z :
  SFcompare x y = Some Eq -> SFcompare x z = SFcompare y z.
Proof.
  destruct x as [sx|sx| |sx mx ex], y as [sy|sy| |sy my ey];
    try destruct sx; try destruct sy; simpl;
    try discriminate; intros E; try (destruct z; reflexivity);
    injection E as E;
    destruct (Z.compare_spec ex ey) as [->| |]; try discriminate;
    (assert (mx = my) as ->
       by (apply Pos.compare_eq; unfold Pos.compare;
           destruct (Pos.compare_cont Eq mx my); try discriminate; reflexivity));
    reflexivity.
Qed.

(** With [lo <= hi], a number equal to either bound is neither below
    [lo] nor above [hi]. *)
Lemma bound_is_in_range (p lo hi : number) :
  (lo <=? hi)%float = true ->
  (p =? lo)%float = true \/ (p =? hi)%float = true ->
  (p <? lo)%float = false /\ (hi <? p)%float = false.
Proof.
  rewrite FloatAxioms.leb_spec, !FloatAxioms.eqb_spec, !FloatAxioms.ltb_spec.
  unfold SFleb, SFeqb, SFltb.
  set (x := Prim2SF p). set (a := Prim2SF lo). set (b := Prim2SF hi).
  intros Hle [Heq|Heq].
  - destruct (SFcompare x a) as [[]|] eqn:Exa; try discriminate.
    split; [reflexivity|].
    pose proof (SFcompare_antisym _ _ _ Exa) as Eax.
    rewrite <- (SFcompare_eq_l _ _ b Exa) in Hle.
    destruct (SFcompare x b) as [c|] eqn:Exb; [|discriminate].
    rewrite (SFcompare_antisym _ _ _ Exb). destruct c; try discriminate; reflexivity.
  - destruct (SFcompare x b) as [[]|] eqn:Exb; try discriminate.
    rewrite (SFcompare_antisym _ _ _ Exb). split; [|reflexivity].
    rewrite (SFcompare_eq_l _ _ a Exb).
    destruct (SFcompare a b) as [c|] eqn:Eab; [|discriminate].
    rewrite (SFcompare_antisym _ _ _ Eab). destruct c; try discriminate; reflexivity.
Qed.

(** *** [JSON.stringify] is injective on arrays of time values *)










Lemma append_nil_r s : s +:+ "" = s.
Proof. induction s; simpl; congruence. Qed.






(** *** More on the comparison of numbers *)

(** How a number compares with itself: [NaN] does not compare. *)
Lemma SFcompare_refl x :
  SFcompare x x = match x with S754_nan => None | _ => Some Eq end.
Proof.
  destruct x as [s|s| |s m e]; simpl; try destruct s; try reflexivity;
    rewrite Z.compare_refl; try rewrite Pos.compare_cont_refl; reflexivity.
Qed.

Lemma is_nan_spec x :
  is_nan x = match Prim2SF x with S754_nan => true | _ => false end.
Proof.
  unfold is_nan. rewrite FloatAxioms.eqb_spec. unfold SFeqb.
  rewrite SFcompare_refl. destruct (Prim2SF x); reflexivity.
Qed.

(** Two numbers compare unless one of them is [NaN]. *)
Lemma SFcompare_none x y :
  SFcompare x y = None -> x = S754_nan \/ y = S754_nan.
Proof.
  destruct x as [sx|sx| |sx mx ex], y as [sy|sy| |sy my ey]; simpl; auto;
    try destruct sx; try destruct sy; try discriminate;
    destruct (Z.compare _ _); try discriminate;
    destruct (Pos.compare_cont _ _ _); discriminate.
Qed.

(** [x > 0] holds exactly when [x] is neither falsy nor [<= 0]. *)
Lemma positive_iff (x : number) :
  (0 <? x)%float = true <-> falsy_number x = false /\ (x <=? 0)%float = false.
Proof.
  unfold falsy_number. rewrite is_nan_spec.
  rewrite FloatAxioms.ltb_spec, FloatAxioms.leb_spec, FloatAxioms.eqb_spec.
  unfold SFltb, SFleb, SFeqb.
  change (Prim2SF 0%float) with (S754_zero false).
  destruct (SFcompare (Prim2SF x) (S754_zero false)) as [c|] eqn:E.
  - rewrite (SFcompare_antisym _ _ _ E).
    assert (Hn : match Prim2SF x with S754_nan => true | _ => false end = false)
      by (destruct (Prim2SF x); try reflexivity; discriminate).
    rewrite Hn. destruct c; simpl; intuition congruence.
  - apply SFcompare_none in E. destruct E as [E|E]; [|discriminate].
    rewrite E. simpl. intuition congruence.
Qed.

(** A number that is not falsy and is [>= 0] is [> 0]. *)
Lemma positive_of_truthy (x : number) :
  falsy_number x = false -> (0 <=? x)%float = true -> (0 <? x)%float = true.
Proof.
  unfold falsy_number. rewrite is_nan_spec.
  rewrite FloatAxioms.ltb_spec, FloatAxioms.leb_spec, FloatAxioms.eqb_spec.
  unfold SFltb, SFleb, SFeqb.
  change (Prim2SF 0%float) with (S754_zero false).
  destruct (SFcompare (S754_zero false) (Prim2SF x)) as [c|] eqn:E; [|discriminate].
  rewrite (SFcompare_antisym _ _ _ E).
  destruct c; simpl; congruence.
Qed.

(** A number that is neither [NaN] nor [<= 0] is [> 0]. *)
Lemma positive_of_not_nan (x : number) :
  is_nan x = false -> (x <=? 0)%float = false -> (0 <? x)%float = true.
Proof.
  intros Hn Hle. apply positive_iff. split; [|exact Hle].
  unfold falsy_number. rewrite Hn, orb_false_r.
  revert Hle. rewrite FloatAxioms.leb_spec, FloatAxioms.eqb_spec.
  unfold SFleb, SFeqb. destruct (SFcompare _ _) as [[]|]; congruence.
Qed.

Lemma Math_min_100 (x : number) :
  is_nan x = false ->
  is_nan (Math_min 100%float x) = false /\ (Math_min 100%float x <=? 100)%float = true.
Proof.
  intros Hx. unfold Math_min. change (is_nan 100%float) with false.
  rewrite Hx. cbv iota.
  rewrite !FloatAxioms.ltb_spec. unfold SFltb.
  destruct (SFcompare (Prim2SF 100%float) (Prim2SF x)) as [c|] eqn:E.
  - pose proof (SFcompare_antisym _ _ _ E) as E'.
    assert (Hle : (x <=? 100)%float = match c with Lt => false | _ => true end).
    { rewrite FloatAxioms.leb_spec. unfold SFleb. rewrite E'. destruct c; reflexivity. }
    destruct c; rewrite ?E'; cbn [CompOpp].
    + change (match SFcompare (Prim2SF (1 / 100)%float) (Prim2SF 0%float) with
              | Some Lt => true | _ => false end) with false.
      cbv iota. split; [exact Hx | exact Hle].
    + split; reflexivity.
    + split; [exact Hx | exact Hle].
  - exfalso. rewrite is_nan_spec in Hx.
    apply SFcompare_none in E. destruct E as [E|E]; [discriminate|].
    rewrite E in Hx. discriminate.
Qed.

(** [Math.max(0, Math.min(100, x))] is [NaN] or lies between 0 and 100. *)
Lemma clamp_range (x : number) :
  let y := Math_max 0%float (Math_min 100%float x) in
  is_nan y = true \/ ((0 <=? y)%float = true /\ (y <=? 100)%float = true).
Proof.
  cbv zeta. destruct (is_nan x) eqn:Hx.
  { left. unfold Math_max, Math_min. change (is_nan 0%float) with false.
    change (is_nan 100%float) with false. cbv iota. rewrite Hx. cbv iota.
    rewrite Hx. exact Hx. }
  destruct (Math_min_100 x Hx) as [Hm Hle].
  generalize dependent (Math_min 100%float x). intros m Hm Hle. right.
  unfold Math_max. change (is_nan 0%float) with false. cbv iota. rewrite Hm.
  change (1 / 0 <? 0)%float with false. cbv iota.
  rewrite !FloatAxioms.ltb_spec. unfold SFltb.
  change (Prim2SF 0%float) with (S754_zero false).
  destruct (SFcompare (S754_zero false) (Prim2SF m)) as [c|] eqn:E.
  - pose proof (SFcompare_antisym _ _ _ E) as E'.
    destruct c; rewrite ?E'; cbn [CompOpp].
    + split; reflexivity.
    + split; [|exact Hle]. rewrite FloatAxioms.leb_spec. unfold SFleb.
      change (Prim2SF 0%float) with (S754_zero false). rewrite E. reflexivity.
    + split; reflexivity.
  - exfalso. rewrite is_nan_spec in Hm.
    apply SFcompare_none in E. destruct E as [E|E]; [discriminate|].
    rewrite E in Hm. discriminate.
Qed.



(** *** Searching in strings *)

(** [s.includes(p)]. *)
Fixpoint includes (p s : string) : bool :=
  startsWith p s
  || match s with
     | EmptyString => false
     | String _ rest => includes p rest
     end.

(** [c.toLowerCase()] and [s.toLowerCase()] on ASCII text: the letters
    A to Z are mapped, every other character is kept. *)
Definition lower (c : ascii) : ascii :=
  let n := N_of_ascii c in
  if (65 <=? n)%N && (n <=? 90)%N then ascii_of_N (n + 32) else c.

Fixpoint toLowerCase (s : string) : string :=
  match s with
  | EmptyString => EmptyString
  | String c rest => String (lower c) (toLowerCase rest)
  end.

(** Whether a character occurs in a string. *)
Fixpoint occurs (c : ascii) (s : string) : bool :=
  match s with
  | EmptyString => false
  | String x rest => Ascii.eqb c x || occurs c rest
  end.

Lemma append_assoc (a b c : string) : (a +:+ b) +:+ c = a +:+ (b +:+ c).
Proof.
  induction a as [|x a IH]; cbn [String.append]; [reflexivity|]. f_equal. exact IH.
Qed.

Lemma toLowerCase_append a b :
  toLowerCase (a +:+ b) = toLowerCase a +:+ toLowerCase b.
Proof. induction a as [|c a IH]; cbn [String.append toLowerCase]; congruence. Qed.

Lemma startsWith_before p c a b :
  occurs c p = false ->
  startsWith p (a +:+ String c b) = startsWith p a.
Proof.
  revert a. induction p as [|y p IH]; intros a Hc; [destruct a; reflexivity|].
  cbn [occurs] in Hc. apply orb_false_elim in Hc. destruct Hc as [Hy Hp].
  destruct a as [|x a]; cbn [String.append startsWith].
  - rewrite Ascii.eqb_sym, Hy. reflexivity.
  - rewrite IH by exact Hp. reflexivity.
Qed.

(** A string cut at a character that does not occur in [p] includes
    [p] exactly when one of the two parts does. *)
Lemma includes_split p c a b :
  occurs c p = false ->
  includes p (a +:+ String c b) = includes p a || includes p b.
Proof.
  intros Hc. induction a as [|x a IH].
  - pose proof (startsWith_before p c "" b Hc) as E.
    cbn [String.append includes] in *. rewrite E.
    destruct (startsWith p ""); reflexivity.
  - pose proof (startsWith_before p c (String x a) b Hc) as E.
    cbn [String.append includes] in *. rewrite IH, E.
    rewrite !orb_assoc. reflexivity.
Qed.

(** A string in which the first character of [p] does not occur does
    not include [p]. *)
Lemma includes_without_first y p s :
  occurs y s = false -> includes (String y p) s = false.
Proof.
  induction s as [|x s IH]; cbn [occurs includes startsWith]; [reflexivity|].
  intros Hy. apply orb_false_elim in Hy. destruct Hy as [Hx Hs].
  rewrite Hx, (IH Hs). reflexivity.
Qed.

Lemma includes_after p c b :
  occurs c p = false ->
  includes p (String c b) = includes p "" || includes p b.
Proof. intros Hc. exact (includes_split p c "" b Hc). Qed.

Lemma includes_split_after p c a1 a2 b :
  occurs c p = false ->
  includes p (a1 +:+ a2 +:+ String c b) = includes p (a1 +:+ a2) || includes p b.
Proof. intros Hc. rewrite <- append_assoc. apply includes_split, Hc. Qed.

(** *** White space *)

(** A character given by the bytes of its UTF-8 form. *)
Definition utf8 (bytes : list nat) : string :=
  string_of_list_ascii (map ascii_of_nat bytes).

(** The characters [\s] accepts and [trim] removes: the white space
    and the line terminators of ECMAScript. *)
Definition white_space : list string :=
  map utf8
    ([[9]; [10]; [11]; [12]; [13]; [32]; [194; 160]; [225; 154; 128];
     [226; 128; 128]; [226; 128; 129]; [226; 128; 130]; [226; 128; 131];
     [226; 128; 132]; [226; 128; 133]; [226; 128; 134]; [226; 128; 135];
     [226; 128; 136]; [226; 128; 137]; [226; 128; 138]; [226; 128; 168];
     [226; 128; 169]; [226; 128; 175]; [226; 129; 159]; [227; 128; 128];
     [239; 187; 191]])%nat.

(** The number of bytes of the character of [class] that [s] starts
    with, or 0. *)
Definition class_prefix (class : list string) (s : string) : nat :=
  match List.find (fun c => startsWith c s) class with
  | Some c => String.length c
  | None => O
  end.

(** [s.replace(/[class]/g, '')] for a class of characters: the
    characters of the class are dropped.  [skip] counts the bytes of
    the current character still to drop. *)
Fixpoint remove_from (skip : nat) (class : list string) (s : string) : string :=
  match s with
  | EmptyString => EmptyString
  | String c rest =>
      match skip with
      | S k => remove_from k class rest
      | O =>
          match class_prefix class s with
          | O => String c (remove_from O class rest)
          | S k => remove_from k class rest
          end
      end
  end.

Definition remove_class (class : list string) (s : string) : string :=
  remove_from O class s.

(** [s.trimStart()]. *)
Fixpoint trim_from (skip : nat) (s : string) : string :=
  match s with
  | EmptyString => EmptyString
  | String c rest =>
      match skip with
      | S k => trim_from k rest
      | O =>
          match class_prefix white_space s with
          | O => s
          | S k => trim_from k rest
          end
      end
  end.

Definition trimStart (s : string) : string := trim_from O s.

End JS.

(** ** Shared data contracts *)
Module Types.

(** What the sources take from the JavaScript engine: how a number
    prints, and how [new Date(s)] reads a string.  [Date_getTime s] is
    [new Date(s).getTime()], with [None] for [NaN]. *)
Class Engine := {
  Number_toString : JS.number -> string;
  Number_toFixed1 : JS.number -> string;
  Date_getTime : string -> JS.time;
  Date_toISODate : string -> option string
}.

(** [PriceRecord], [ValidationResult], [QualityCheckOptions] and
    [QualityCheckResult] of [types/price-record], after the interface
    declarations that the sources carry at the end of
    [apps/mcp/src/index.ts].  A missing [volume] is [null].
    [sourceUrl], [collectedBy] and [metadata] are optional in the
    interface and set by every adapter: an absent [sourceUrl] reads
    like the empty string wherever the code reads it, an absent
    [metadata] is [None], and an absent [collectedBy] is not
    represented.  [metadata] is an open key/value bag; the [metadata]
    of a [ValidationResult] is left out, nothing reads it. *)
Record PriceRecord := {
  date : string;
  marketCode : string;
  instrumentCode : string;
  price : JS.number;
  currency : string;
  volume : option JS.number;
  sourceUrl : string;
  collectedBy : string;
  metadata : option (list (string * string))
}.

Record ValidationResult := {
  isValid : bool;
  errors : list string;
  warnings : list string;
  qualityScore : Z;
  recordCount : nat
}.

Record PriceRange := { min : JS.number; max : JS.number }.

Record QualityCheckOptions := {
  expectedPriceRange : PriceRange;
  maxPriceChangePercent : JS.number;
  requiredFields : list string
}.

Record QualityCheckResult := {
  qc_warnings : list string;
  passed : bool;
  score : JS.number
}.

(** What the sources take from the JavaScript runtime besides: how
    [parseFloat] reads a number, whether [new URL(s)] accepts a string,
    and how [a.localeCompare(b)] orders two strings. *)
Class Runtime := {
  parseFloat : string -> JS.number;
  URL_canParse : string -> bool;
  String_localeCompare : string -> string -> Z
}.

End Types.
Import Types.

(** An engine for the worked examples.  Numbers print as ECMAScript
    prescribes: [toString] gives the shortest decimal that reads back
    as the number, [toFixed(1)] the nearest decimal with one digit
    after the point.  Dates are read in the ISO date-only form
    [YYYY-MM-DD] only, which ECMAScript fixes as midnight UTC of that
    calendar day, and only for a day the month has.  Any other string
    is an invalid date here, where an engine may read more: V8 moves a
    day up to 31 that the month does not have into the next month, and
    reads forms such as [2024/01/15] in local time.  The examples use
    no such string. *)
Module Sample.

Definition days_in_month (y m : Z) : Z :=
  if (m =? 2) then
    if ((y mod 4 =? 0) && negb (y mod 100 =? 0)) || (y mod 400 =? 0) then 29 else 28
  else if (m =? 4) || (m =? 6) || (m =? 9) || (m =? 11) then 30 else 31.

(** Days from 1970-01-01 to the civil date [y]-[m]-[d]. *)
Definition days_from_civil (y m d : Z) : Z :=
  let y := if m <=? 2 then y - 1 else y in
  let era := y / 400 in
  let yoe := y - era * 400 in
  let doy := (153 * (if 2 <? m then m - 3 else m + 9) + 2) / 5 + d - 1 in
  let doe := yoe * 365 + yoe / 4 - yoe / 100 + doy in
  era * 146097 + doe - 719468.

Definition iso_date (s : string) : option (Z * Z * Z) :=
  match list_ascii_of_string s with
  | [y1; y2; y3; y4; h1; m1; m2; h2; d1; d2] =>
      if forallb JS.is_digit [y1; y2; y3; y4; m1; m2; d1; d2]
         && Ascii.eqb h1 "-" && Ascii.eqb h2 "-"
      then
        let y := JS.parseInt (string_of_list_ascii [y1; y2; y3; y4]) in
        let m := JS.parseInt (string_of_list_ascii [m1; m2]) in
        let d := JS.parseInt (string_of_list_ascii [d1; d2]) in
        if (1 <=? m) && (m <=? 12) && (1 <=? d) && (d <=? days_in_month y m)
        then Some (y, m, d) else None
      else None
  | _ => None
  end.

Definition getTime (s : string) : JS.time :=
  match iso_date s with
  | Some (y, m, d) => Some (days_from_civil y m d * 86400000)
  | None => None
  end.

Definition toISODate (s : string) : option string :=
  match iso_date s with
  | Some _ => Some s
  | None => None
  end.

Fixpoint zeros (n : nat) : string :=
  match n with
  | O => ""
  | S k => String "0" (zeros k)
  end.

(** A finite number [m * 2^e] as [X / g], and the interval
    [LO / g .. HI / g] of the reals that round to it; the ends belong
    to the interval when the mantissa [m] is even. *)
Definition rounding_interval (m : positive) (e : Z) : Z * Z * Z * Z * bool :=
  let g := 2 ^ Z.max 0 (2 - e) in
  let q := 2 ^ Z.max 0 (e - 2) in
  let boundary := (Zpos m =? 2 ^ 52) && (-1074 <? e) in
  (4 * Zpos m * q,
   (if boundary then 4 * Zpos m - 1 else 4 * Zpos m - 2) * q,
   (4 * Zpos m + 2) * q, g, Z.even (Zpos m)).

(** The [n] with [10^(n-1) <= X / g < 10^n]. *)
Definition decimal_exponent (m : positive) (e : Z) (X g : Z) : Z :=
  let bits := Z.log2 (Zpos m) + 1 + e in
  let estimate := bits * 30103 / 100000 in
  match List.find
          (fun n => if 0 <=? n then X <? g * 10 ^ n else X * 10 ^ (- n) <? g)
          (map (fun i => estimate - 2 + Z.of_nat i) (seq 0 6)) with
  | Some n => n
  | None => 0
  end.

(** The [k] digits [s] and the exponent [n] for which [s * 10^(n-k)]
    lies in the interval, nearest to the number, if there are any. *)
Definition digits_of_length (X LO HI g : Z) (closed : bool) (n0 k : Z)
  : option (Z * Z) :=
  let p := n0 - k in
  let w := 10 ^ Z.max 0 p in
  let t := 10 ^ Z.max 0 (- p) in
  let s_lo := (X * t) / (g * w) in
  let inside s :=
    let v := s * w * g in
    if closed then (LO * t <=? v) && (v <=? HI * t)
    else (LO * t <? v) && (v <? HI * t) in
  let pick s := if s =? 10 ^ k then (10 ^ (k - 1), n0 + 1) else (s, n0) in
  match inside s_lo, inside (s_lo + 1) with
  | true, false => Some (pick s_lo)
  | false, true => Some (pick (s_lo + 1))
  | true, true =>
      let d_lo := X * t - s_lo * w * g in
      let d_hi := (s_lo + 1) * w * g - X * t in
      if d_lo <? d_hi then Some (pick s_lo)
      else if d_hi <? d_lo then Some (pick (s_lo + 1))
      else if Z.even s_lo then Some (pick s_lo) else Some (pick (s_lo + 1))
  | false, false => None
  end.

Definition shortest_digits (m : positive) (e : Z) : Z * Z * Z :=
  let '(X, LO, HI, g, closed) := rounding_interval m e in
  let n0 := decimal_exponent m e X g in
  let found k :=
    match digits_of_length X LO HI g closed n0 k with
    | Some _ => true
    | None => false
    end in
  match List.find found (map Z.of_nat (seq 1 17)) with
  | Some k =>
      match digits_of_length X LO HI g closed n0 k with
      | Some (s, n) => (s, n, k)
      | None => (0, 0, 1)
      end
  | None => (0, 0, 1)
  end.

Definition substring_from (n : nat) (s : string) : string :=
  String.substring n (String.length s - n) s.

Definition format_number (s n k : Z) : string :=
  let digits := JS.Z_toString s in
  if (k <=? n) && (n <=? 21) then digits +:+ zeros (Z.to_nat (n - k))
  else if (0 <? n) && (n <=? 21) then
    String.substring 0 (Z.to_nat n) digits +:+ "."
      +:+ substring_from (Z.to_nat n) digits
  else if (-6 <? n) && (n <=? 0) then
    "0." +:+ zeros (Z.to_nat (- n)) +:+ digits
  else
    let exponent :=
      (if 0 <=? n - 1 then "+" else "-") +:+ JS.Z_toString (Z.abs (n - 1)) in
    if k =? 1 then digits +:+ "e" +:+ exponent
    else String.substring 0 1 digits +:+ "." +:+ substring_from 1 digits
           +:+ "e" +:+ exponent.

Definition toString (x : JS.number) : string :=
  match Prim2SF x with
  | S754_nan => "NaN"
  | S754_zero _ => "0"
  | S754_infinity s => if s then "-Infinity" else "Infinity"
  | S754_finite sign m e =>
      let '(s, n, k) := shortest_digits m e in
      (if sign then "-" else "") +:+ format_number s n k
  end.

(** [x.toFixed(1)] for a number below 1e21 in size. *)
Definition toFixed1 (x : JS.number) : string :=
  match Prim2SF x with
  | S754_nan => "NaN"
  | S754_zero _ => "0.0"
  | S754_infinity s => if s then "-Infinity" else "Infinity"
  | S754_finite sign m e =>
      let n := if 0 <=? e then 10 * Zpos m * 2 ^ e
               else (20 * Zpos m + 2 ^ (- e)) / (2 * 2 ^ (- e)) in
      (if sign then "-" else "") +:+ JS.Z_toString (n / 10) +:+ "."
        +:+ JS.Z_toString (n mod 10)
  end.

#[export] Instance engine : Engine := {|
  Number_toString := toString;
  Number_toFixed1 := toFixed1;
  Date_getTime := getTime;
  Date_toISODate := toISODate
|}.

Example toString_examples :
  map toString
    [(1 / 10)%float; (1 / 10 + 2 / 10)%float; (63 / 2)%float; 100%float;
     (-3 / 2)%float; 1e21%float; (1 / 10000000)%float]
  = ["0.1"; "0.30000000000000004"; "31.5"; "100"; "-1.5"; "1e+21"; "1e-7"]
  /\ map toFixed1 [((65 - 63 / 2) / (63 / 2) * 100)%float; 5%float; (1 / 4)%float]
     = ["106.3"; "5.0"; "0.3"].
Proof. vm_compute. split; reflexivity. Qed.

(** *** [parseFloat] *)

Fixpoint take_digits (l : list ascii) : list ascii * list ascii :=
  match l with
  | c :: rest =>
      if JS.is_digit c then
        let '(run, tail) := take_digits rest in (c :: run, tail)
      else ([], l)
  | [] => ([], [])
  end.

Definition digits_value (l : list ascii) : Z :=
  fold_left (fun acc c => 10 * acc + JS.digit_value c) l 0.

(** The number nearest to [n * 10^e], ties to the even mantissa. *)
Definition nearest_number (negative : bool) (n e : Z) : JS.number :=
  if n =? 0 then (if negative then (-0)%float else 0%float) else
  let num := if 0 <=? e then n * 10 ^ e else n in
  let den := if 0 <=? e then 1 else 10 ^ (- e) in
  let l := Z.log2 num - Z.log2 den in
  let b := if num <? den * 2 ^ l then l - 53 else l - 52 in
  let b := Z.max b (-1074) in
  let a := if 0 <=? b then num else num * 2 ^ (- b) in
  let d := if 0 <=? b then den * 2 ^ b else den in
  let q := a / d in
  let r := a mod d in
  let m := if 2 * r <? d then q
           else if d <? 2 * r then q + 1
           else if Z.even q then q else q + 1 in
  let '(m, b) := if m =? 2 ^ 53 then (2 ^ 52, b + 1) else (m, b) in
  if 971 <? b then (if negative then neg_infinity else infinity)
  else if m =? 0 then (if negative then (-0)%float else 0%float)
  else SF2Prim (S754_finite negative (Z.to_pos m) b).

(** [parseFloat(s)]: the number of the longest prefix of the trimmed
    string that is a decimal literal, and [NaN] if there is none. *)
Definition parseFloat (s : string) : JS.number :=
  let l := list_ascii_of_string (JS.trimStart s) in
  let '(negative, l) :=
    match l with
    | c :: rest =>
        if Ascii.eqb c "-" then (true, rest)
        else if Ascii.eqb c "+" then (false, rest)
        else (false, l)
    | [] => (false, l)
    end in
  if JS.startsWith "Infinity" (string_of_list_ascii l)
  then (if negative then neg_infinity else infinity) else
  let '(whole, l) := take_digits l in
  let '(fraction, l) :=
    match l with
    | c :: rest => if Ascii.eqb c "." then take_digits rest else ([], l)
    | [] => ([], l)
    end in
  match whole, fraction with
  | [], [] => nan
  | _, _ =>
      let exponent :=
        match l with
        | c :: rest =>
            if Ascii.eqb c "e" || Ascii.eqb c "E" then
              let '(minus, rest) :=
                match rest with
                | s :: rest' =>
                    if Ascii.eqb s "-" then (true, rest')
                    else if Ascii.eqb s "+" then (false, rest')
                    else (false, rest)
                | [] => (false, rest)
                end in
              match take_digits rest with
              | ([], _) => 0
              | (digits, _) =>
                  if minus then - digits_value digits else digits_value digits
              end
            else 0
        | [] => 0
        end in
      nearest_number negative (digits_value (whole ++ fraction))
        (exponent - Z.of_nat (length fraction))
  end.

Definition same_number (a b : JS.number) : bool :=
  match SFcompare (Prim2SF a) (Prim2SF b) with
  | Some Eq => true
  | _ => false
  end.

Example parseFloat_examples :
  forallb (fun '(text, x) => same_number (parseFloat text) x)
    [("0.1", (1 / 10)%float); ("31.5", (63 / 2)%float); ("1e21", 1e21%float);
     ("  12.5abc", (25 / 2)%float); (".5", (1 / 2)%float); ("5.", 5%float);
     ("1e", 1%float); ("1e+", 1%float); ("-7.25e1", (-145 / 2)%float);
     ("0.30000000000000004", (1 / 10 + 2 / 10)%float);
     ("1.7976931348623157e308", 0x1.fffffffffffffp+1023%float);
     ("1.7976931348623159e308", infinity);
     ("5e-324", 0x1p-1074%float); ("2e-324", 0%float);
     ("Infinityx", infinity); ("-Infinity", neg_infinity);
     ("12,345.6", 12%float); ("9007199254740993", 9007199254740992%float)]
  = true
  /\ map (fun text => is_nan (parseFloat text)) ["abc"; ""; "."; "-"; "$12"; "Inf"; "e5"]
     = [true; true; true; true; true; true; true].
Proof. vm_compute. split; reflexivity. Qed.


(** *** URLs and the order of strings *)

Definition is_lower_letter (c : ascii) : bool :=
  (97 <=? N_of_ascii c)%N && (N_of_ascii c <=? 122)%N.

(** The host of an [https] URL made of letters, digits, dots and
    hyphens, and what follows it. *)
Fixpoint take_host (l : list ascii) : list ascii * list ascii :=
  match l with
  | c :: rest =>
      if is_lower_letter c || JS.is_digit c || Ascii.eqb c "." || Ascii.eqb c "-"
      then let '(host, tail) := take_host rest in (c :: host, tail)
      else ([], l)
  | [] => ([], [])
  end.

(** The label after the last dot of a host. *)
Fixpoint last_label (host label : list ascii) : list ascii :=
  match host with
  | [] => label
  | c :: rest =>
      if Ascii.eqb c "." then last_label rest [] else last_label rest (label ++ [c])
  end.

(** Whether [new URL(s)] accepts the string.  The examples need [https]
    URLs only: the strings accepted here are [https://], a host of
    lower-case letters, digits, dots and hyphens whose last label
    begins with a letter, and then nothing or a path of printable
    ASCII characters, all of which are URLs. *)
Definition canParse (s : string) : bool :=
  JS.startsWith "https://" s
  && let '(host, tail) :=
       take_host (list_ascii_of_string (substring_from 8 s)) in
     match last_label host [] with
     | first :: _ => is_lower_letter first
     | [] => false
     end
     && match tail with
        | [] => true
        | c :: path =>
            Ascii.eqb c "/"
            && forallb (fun x => (33 <=? N_of_ascii x)%N && (N_of_ascii x <=? 126)%N)
                 path
        end.

(** [a.localeCompare(b)] by code units, which is how the strings of
    digits and hyphens that dates are made of collate. *)
Fixpoint localeCompare (a b : string) : Z :=
  match a, b with
  | EmptyString, EmptyString => 0
  | EmptyString, String _ _ => -1
  | String _ _, EmptyString => 1
  | String x a', String y b' =>
      match (N_of_ascii x ?= N_of_ascii y)%N with
      | Lt => -1
      | Gt => 1
      | Eq => localeCompare a' b'
      end
  end.

#[export] Instance runtime : Runtime := {|
  Types.parseFloat := parseFloat;
  URL_canParse := canParse;
  String_localeCompare := localeCompare
|}.

Example runtime_examples :
  map canParse ["https://www.cdr.fyi/"; "https://ww2.arb.ca.gov/sites/x.csv";
                "https://"; "not a url"; ""]
  = [true; true; false; false; false]
  /\ map (fun '(a, b) => localeCompare a b)
       [("2024-01-10", "2024-01-09"); ("2024-01-09", "2024-01-10");
        ("2024-01-10", "2024-01-10")]
     = [1; -1; 0].
Proof. vm_compute. split; reflexivity. Qed.

(** *** What [toFixed] prints *)

Lemma occurs_append c a b :
  JS.occurs c (a +:+ b) = JS.occurs c a || JS.occurs c b.
Proof.
  induction a as [|x a IH]; cbn [String.append JS.occurs]; [reflexivity|].
  rewrite IH, orb_assoc. reflexivity.
Qed.

Lemma uint_without_e d :
  JS.occurs "e" (JS.toLowerCase (NilEmpty.string_of_uint d)) = false.
Proof. induction d; cbn; auto. Qed.

Lemma Z_toString_without_e z :
  JS.occurs "e" (JS.toLowerCase (JS.Z_toString z)) = false.
Proof.
  unfold JS.Z_toString.
  destruct z as [|p|p]; simpl; [reflexivity| |];
    (destruct (Pos.to_uint p) eqn:E; simpl; rewrite <- ?E;
     auto using uint_without_e).
Qed.

(** The text this engine's [toFixed(1)] gives never holds the word
    [error]: it is made of digits, a point and a sign, or is [NaN] or
    [Infinity]. *)
Lemma toFixed1_without_error x :
  JS.includes "error" (JS.toLowerCase (toFixed1 x)) = false.
Proof.
  apply JS.includes_without_first. unfold toFixed1.
  destruct (Prim2SF x) as [s|s| |s m e]; try destruct s; try reflexivity;
    cbv zeta; rewrite !JS.toLowerCase_append, !occurs_append,
      !Z_toString_without_e; reflexivity.
Qed.

End Sample.

(** ** utils/quality-checker: [QualityChecker] *)
Module QualityChecker.
Section WithEngine.
Context `{Engine}.

(** The penalties one record adds in [calculateScore]. *)
Definition record_deductions (record : PriceRecord) : list Z :=
  (if JS.falsy_string (date record) || JS.falsy_number (price record)
      || JS.falsy_string (marketCode record)
   then [10] else [])
  ++ (if (price record <=? 0)%float then [15] else []).

Definition calculateScore (records : list PriceRecord) : Z :=
  if (length records =? 0)%nat then 0 else
  let score := 100 in
  let deductions := flat_map record_deductions records in
  let marketCodes : gset string := list_to_set (map marketCode records) in
  let deductions :=
    deductions ++ (if (1 <? size marketCodes)%nat then [20] else []) in
  let dates := map (fun r => Date_getTime (date r)) records in
  let sortedDates := JS.sort JS.time_compare dates in
  let deductions :=
    deductions ++
    (if negb (String.eqb (JS.JSON_stringify_times dates)
                         (JS.JSON_stringify_times sortedDates))
     then [5] else []) in
  let totalDeduction := Z.min (fold_left Z.add deductions 0) 100 in
  Z.max 0 (score - totalDeduction).

(** The members every object inherits from [Object.prototype]; read
    through [record[field]] each of them is a function or an object,
    and so truthy. *)
Definition inherited_members : list string :=
  ["constructor"; "hasOwnProperty"; "isPrototypeOf"; "propertyIsEnumerable";
   "toLocaleString"; "toString"; "valueOf"; "__proto__";
   "__defineGetter__"; "__defineSetter__"; "__lookupGetter__"; "__lookupSetter__"].

(** [!record[field]] for a field name of the options, on a record
    that is an object literal with the fields of [PriceRecord]: any
    other name that is not inherited reads as [undefined]. *)
Definition field_missing (field : string) (record : PriceRecord) : bool :=
  if String.eqb field "date" then JS.falsy_string (date record)
  else if String.eqb field "marketCode" then JS.falsy_string (marketCode record)
  else if String.eqb field "instrumentCode" then JS.falsy_string (instrumentCode record)
  else if String.eqb field "price" then JS.falsy_number (price record)
  else if String.eqb field "currency" then JS.falsy_string (currency record)
  else if String.eqb field "volume" then
    match volume record with Some v => JS.falsy_number v | None => true end
  else if String.eqb field "sourceUrl" then JS.falsy_string (sourceUrl record)
  else if String.eqb field "collectedBy" then JS.falsy_string (collectedBy record)
  else if String.eqb field "metadata" then
    match metadata record with Some _ => false | None => true end
  else negb (existsb (String.eqb field) inherited_members).

(** The price-range test of [checkQuality]. *)
Definition outside_range (record : PriceRecord) (options : QualityCheckOptions) : bool :=
  (price record <? min (expectedPriceRange options))%float
  || (max (expectedPriceRange options) <? price record)%float.

Definition range_warnings (record : PriceRecord) (options : QualityCheckOptions)
  : list string :=
  if outside_range record options then
    ["Price " +:+ Number_toString (price record)
       +:+ " outside expected range ("
       +:+ Number_toString (min (expectedPriceRange options)) +:+ "-"
       +:+ Number_toString (max (expectedPriceRange options)) +:+ ")"]
  else [].

Definition field_warnings (record : PriceRecord) (options : QualityCheckOptions)
  : list string :=
  flat_map (fun field =>
    if field_missing field record
    then ["Missing required field: " +:+ field] else [])
    (requiredFields options).

(** The second loop of [checkQuality], over neighbours of the records
    sorted by date. *)
Fixpoint change_warnings (maxChange : JS.number) (sortedRecords : list PriceRecord)
  : list string :=
  match sortedRecords with
  | prev :: ((curr :: _) as rest) =>
      let prevPrice := price prev in
      let currPrice := price curr in
      let changePercent :=
        JS.Math_abs ((currPrice - prevPrice) / prevPrice * 100)%float in
      (if (maxChange <? changePercent)%float then
         ["Large price change " +:+ Number_toFixed1 changePercent
            +:+ "% between " +:+ date prev +:+ " and " +:+ date curr]
       else [])
      ++ change_warnings maxChange rest
  | _ => []
  end.

(** [n] as a number, exact below 2^53. *)
Fixpoint count_number (n : nat) : JS.number :=
  match n with
  | O => 0%float
  | S k => (count_number k + 1)%float
  end.

Definition calculateQualityScore (records : list PriceRecord) (warningCount : nat)
  : JS.number :=
  let score := 100%float in
  let score := (score - count_number warningCount * 5)%float in
  let hasVolume :=
    (count_number (length (List.filter (fun r =>
        match volume r with Some _ => true | None => false end) records))
     / count_number (length records))%float in
  let score := (score + hasVolume * 10)%float in
  let hasMetadata :=
    (count_number (length (List.filter (fun r =>
        match metadata r with
        | Some m => (0 <? length m)%nat
        | None => false
        end) records))
     / count_number (length records))%float in
  let score := (score + hasMetadata * 5)%float in
  JS.Math_max 0%float (JS.Math_min 100%float score).

Definition checkQuality (records : list PriceRecord) (options : QualityCheckOptions)
  : QualityCheckResult :=
  let warnings :=
    flat_map (fun record =>
      range_warnings record options ++ field_warnings record options) records in
  let passed :=
    forallb (fun record =>
      forallb (fun field => negb (field_missing field record))
        (requiredFields options)) records in
  let sortedRecords :=
    JS.sort (fun a b =>
      JS.time_compare (Date_getTime (date a)) (Date_getTime (date b))) records in
  let warnings :=
    warnings ++ change_warnings (maxPriceChangePercent options) sortedRecords in
  let score := calculateQualityScore records (length warnings) in
  {| qc_warnings := warnings;
     passed := passed && (length warnings <? 5)%nat;
     score := score |}.

(** *** Properties of [calculateScore] *)

Definition sumZ (l : list Z) : Z := fold_left Z.add l 0.

Lemma fold_left_add_acc l acc : fold_left Z.add l acc = acc + sumZ l.
Proof.
  unfold sumZ. revert acc. induction l as [|a l IH]; intros acc; simpl; [lia|].
  rewrite IH, (IH (0 + a)). lia.
Qed.

Lemma sumZ_app a b : sumZ (a ++ b) = sumZ a + sumZ b.
Proof. unfold sumZ at 1. rewrite fold_left_app, fold_left_add_acc. reflexivity. Qed.

Lemma record_deductions_bounds record :
  0 <= sumZ (record_deductions record) <= 25.
Proof.
  unfold record_deductions.
  destruct (_ || _ || _), (_ <=? _)%float; vm_compute; split; discriminate.
Qed.



(** The sum the penalties of a non-empty batch add up to. *)
Definition total_deductions (records : list PriceRecord) : Z :=
  sumZ (flat_map record_deductions records)
  + (if (1 <? size (list_to_set (map marketCode records) : gset string))%nat
     then 20 else 0)
  + (if negb (String.eqb
       (JS.JSON_stringify_times (map (fun r => Date_getTime (date r)) records))
       (JS.JSON_stringify_times
          (JS.sort JS.time_compare (map (fun r => Date_getTime (date r)) records))))
     then 5 else 0).

Lemma calculateScore_total records :
  calculateScore records =
  if (length records =? 0)%nat then 0
  else Z.max 0 (100 - Z.min (total_deductions records) 100).
Proof.
  unfold calculateScore, total_deductions.
  destruct (length records =? 0)%nat; [reflexivity|].
  fold (sumZ ((flat_map record_deductions records
    ++ (if (1 <? size (list_to_set (map marketCode records) : gset string))%nat
        then [20] else []))
    ++ (if negb (String.eqb
          (JS.JSON_stringify_times (map (fun r => Date_getTime (date r)) records))
          (JS.JSON_stringify_times
             (JS.sort JS.time_compare
                (map (fun r => Date_getTime (date r)) records))))
        then [5] else []))).
  rewrite !sumZ_app.
  destruct (1 <? _)%nat, (negb _); reflexivity.
Qed.



Lemma calculateScore_singleton record :
  calculateScore [record] = 100 - sumZ (record_deductions record).
Proof.
  rewrite calculateScore_total. unfold total_deductions.
  cbn [length Nat.eqb flat_map map].
  rewrite app_nil_r, list_to_set_cons, list_to_set_nil.
  rewrite union_empty_r_L, size_singleton.
  change (JS.sort JS.time_compare [Date_getTime (date record)])
    with [Date_getTime (date record)].
  rewrite String.eqb_refl. cbn [Nat.ltb Nat.leb negb].
  pose proof (record_deductions_bounds record). lia.
Qed.


(** C10.  The empty batch scores 0, not 100, although nothing is
    deducted from it; so appending any single record to the empty
    batch, a defective one included, strictly raises the score (to at
    least 75). *)
Theorem calculateScore_empty_is_zero :
  calculateScore [] = 0
  /\ calculateScore [] <> 100
  /\ (forall record,
        calculateScore [] < calculateScore ([] ++ [record])
        /\ 75 <= calculateScore ([] ++ [record])).
Proof.
  split; [reflexivity|]. split; [discriminate|].
  intros record. simpl app. rewrite calculateScore_singleton.
  change (calculateScore []) with 0.
  pose proof (record_deductions_bounds record). lia.
Qed.

(** *** Properties of [checkQuality] *)

(** The warnings of the price-range test are those that start with
    [Price ]; the others start with [Missing required field: ] or
    [Large price change ]. *)
Definition is_price_range_warning (w : string) : bool :=
  JS.startsWith "Price " w.

Lemma range_warnings_filter record options :
  List.filter is_price_range_warning (range_warnings record options)
  = range_warnings record options.
Proof. unfold range_warnings. destruct (outside_range record options); reflexivity. Qed.

Lemma field_warnings_filter record options :
  List.filter is_price_range_warning (field_warnings record options) = [].
Proof.
  unfold field_warnings.
  induction (requiredFields options) as [|field fields IH]; [reflexivity|].
  cbn [flat_map]. rewrite List.filter_app, IH, app_nil_r.
  destruct (field_missing field record); reflexivity.
Qed.

Lemma change_warnings_step maxChange prev curr rest :
  change_warnings maxChange (prev :: curr :: rest)
  = (if (maxChange <? JS.Math_abs
                        ((price curr - price prev) / price prev * 100))%float
     then ["Large price change "
             +:+ Number_toFixed1
                   (JS.Math_abs ((price curr - price prev) / price prev * 100)%float)
             +:+ "% between " +:+ date prev +:+ " and " +:+ date curr]
     else [])
    ++ change_warnings maxChange (curr :: rest).
Proof. reflexivity. Qed.

Lemma change_warnings_filter maxChange sortedRecords :
  List.filter is_price_range_warning (change_warnings maxChange sortedRecords) = [].
Proof.
  induction sortedRecords as [|prev rest IH]; [reflexivity|].
  destruct rest as [|curr rest]; [reflexivity|].
  rewrite change_warnings_step, List.filter_app, IH.
  destruct (_ <? _)%float; reflexivity.
Qed.

Lemma price_range_warnings_of_batch records options :
  List.filter is_price_range_warning (qc_warnings (checkQuality records options))
  = flat_map (fun record => range_warnings record options) records.
Proof.
  unfold checkQuality. cbn [qc_warnings].
  rewrite List.filter_app, change_warnings_filter, app_nil_r.
  induction records as [|r rs IH]; [reflexivity|].
  cbn [flat_map]. rewrite !List.filter_app, IH.
  rewrite range_warnings_filter, field_warnings_filter, app_nil_r. reflexivity.
Qed.

(** C5, as amended.  In the warnings of [checkQuality] there is one
    price-range warning for each record whose price is strictly below
    [expectedPriceRange.min] or strictly above [expectedPriceRange.max],
    in the order of the records, and none for any other record; for a
    single record a price-range warning is emitted if and only if its
    price is strictly outside the bounds.  When [min <= max], a record
    whose price equals either bound gets no price-range warning. *)
Theorem checkQuality_price_range_warning_iff :
  (forall records options,
     List.filter is_price_range_warning (qc_warnings (checkQuality records options))
     = flat_map (fun record => range_warnings record options)
         (List.filter (fun record => outside_range record options) records))
  /\ (forall records options,
     length (List.filter is_price_range_warning
               (qc_warnings (checkQuality records options)))
     = length (List.filter (fun record => outside_range record options) records))
  /\ (forall record options,
        (exists w, In w (qc_warnings (checkQuality [record] options))
                   /\ is_price_range_warning w = true)
        <-> ((price record <? min (expectedPriceRange options))%float = true
             \/ (max (expectedPriceRange options) <? price record)%float = true))
  /\ (forall record options,
        (min (expectedPriceRange options) <=? max (expectedPriceRange options))%float
          = true ->
        (price record =? min (expectedPriceRange options))%float = true
        \/ (price record =? max (expectedPriceRange options))%float = true ->
        forall w, In w (qc_warnings (checkQuality [record] options)) ->
                  is_price_range_warning w = false).
Proof.
  assert (Hone : forall record options,
    List.filter is_price_range_warning (qc_warnings (checkQuality [record] options))
    = range_warnings record options).
  { intros. rewrite price_range_warnings_of_batch. cbn [flat_map]. apply app_nil_r. }
  split; [|split; [|split]].
  - intros records options. rewrite price_range_warnings_of_batch.
    induction records as [|r rs IH]; [reflexivity|].
    cbn [flat_map List.filter]. rewrite IH.
    destruct (outside_range r options) eqn:Hout; [reflexivity|].
    unfold range_warnings at 1. rewrite Hout. reflexivity.
  - intros records options. rewrite price_range_warnings_of_batch.
    induction records as [|r rs IH]; [reflexivity|].
    cbn [flat_map List.filter]. rewrite length_app, IH.
    unfold range_warnings. destruct (outside_range r options); reflexivity.
  - intros record options.
    rewrite <- !orb_true_iff. fold (outside_range record options). split.
    + intros [w [Hin Hw]].
      assert (Hf : In w (List.filter is_price_range_warning
                           (qc_warnings (checkQuality [record] options))))
        by (apply List.filter_In; auto).
      rewrite Hone in Hf. unfold range_warnings in Hf.
      destruct (outside_range record options); [reflexivity | destruct Hf].
    + intros Hout.
      assert (Hf : exists w, In w (range_warnings record options)).
      { unfold range_warnings. rewrite Hout. eexists. left. reflexivity. }
      destruct Hf as [w Hf]. rewrite <- Hone in Hf.
      apply List.filter_In in Hf. exists w. exact Hf.
  - intros record options Hle Hbound w Hin.
    destruct (is_price_range_warning w) eqn:Hw; [exfalso | reflexivity].
    assert (Hf : In w (List.filter is_price_range_warning
                         (qc_warnings (checkQuality [record] options))))
      by (apply List.filter_In; auto).
    rewrite Hone in Hf. unfold range_warnings, outside_range in Hf.
    destruct (JS.bound_is_in_range _ _ _ Hle Hbound) as [E1 E2].
    rewrite E1, E2 in Hf. destruct Hf.
Qed.

End WithEngine.



(** The options the CARB adapter passes, and the same with the bounds
    of the range exchanged. *)
Definition carb_options : QualityCheckOptions := {|
  expectedPriceRange := {| min := 5%float; max := 100%float |};
  maxPriceChangePercent := 20%float;
  requiredFields := ["date"; "price"; "marketCode"; "instrumentCode"]
|}.

Definition inverted_options : QualityCheckOptions := {|
  expectedPriceRange := {| min := 10%float; max := 5%float |};
  maxPriceChangePercent := 20%float;
  requiredFields := ["date"; "price"; "marketCode"; "instrumentCode"]
|}.

Definition record_at (day : string) (p : JS.number) : PriceRecord := {|
  date := day; marketCode := "CCA"; instrumentCode := "CCA";
  price := p; currency := "USD"; volume := None;
  sourceUrl := "https://ww2.arb.ca.gov/"; collectedBy := "MCP:CARB CSV";
  metadata := None
|}.

(** C5 fails for options whose range has [min > max]: a price equal to
    [min] is then strictly above [max], and the record is warned about. *)
Lemma checkQuality_warns_at_bound_of_inverted_range :
  (price (record_at "2024-01-10" 10%float) =? min (expectedPriceRange inverted_options))%float
    = true
  /\ qc_warnings (@checkQuality Sample.engine [record_at "2024-01-10" 10%float] inverted_options)
     = ["Price 10 outside expected range (10-5)"]
  /\ is_price_range_warning "Price 10 outside expected range (10-5)" = true.
Proof. vm_compute. repeat split. Qed.

(** The bound clause of C5 at the lower bound of the CARB range, for a
    record that lacks its date and so has a warning at all. *)
Lemma checkQuality_price_range_warning_iff_witness :
  (min (expectedPriceRange carb_options) <=? max (expectedPriceRange carb_options))%float
    = true
  /\ (price (record_at "" 5%float) =? min (expectedPriceRange carb_options))%float = true
  /\ In "Missing required field: date"
        (qc_warnings (@checkQuality Sample.engine [record_at "" 5%float] carb_options))
  /\ is_price_range_warning "Missing required field: date" = false.
Proof.
  assert (Hle : (min (expectedPriceRange carb_options)
                 <=? max (expectedPriceRange carb_options))%float = true)
    by reflexivity.
  assert (Heq : (price (record_at "" 5%float)
                 =? min (expectedPriceRange carb_options))%float = true)
    by reflexivity.
  assert (Hin : In "Missing required field: date"
    (qc_warnings (@checkQuality Sample.engine [record_at "" 5%float] carb_options)))
    by (left; reflexivity).
  split; [exact Hle|]. split; [exact Heq|]. split; [exact Hin|].
  exact (proj2 (proj2 (proj2 (@checkQuality_price_range_warning_iff Sample.engine)))
           (record_at "" 5%float) carb_options Hle (or_introl Heq) _ Hin).
Defined.

Section FullMarks.
Context `{Engine}.

(** *** Full marks *)






(** *** The empty batch, and the range of the score *)

(** X4.  On an empty batch [checkQuality] gives no warning and passes,
    and its score is [NaN], the quotient [0 / 0] of the two counts.  On
    every batch the score is [NaN] or lies between 0 and 100. *)
Theorem checkQuality_score_range :
  (forall options,
     qc_warnings (checkQuality [] options) = []
     /\ passed (checkQuality [] options) = true
     /\ is_nan (score (checkQuality [] options)) = true)
  /\ (forall records options,
        is_nan (score (checkQuality records options)) = true
        \/ ((0 <=? score (checkQuality records options))%float = true
            /\ (score (checkQuality records options) <=? 100)%float = true)).
Proof.
  split.
  - intros options. repeat split.
  - intros records options. unfold checkQuality. cbn [score].
    unfold calculateQualityScore. apply JS.clamp_range.
Qed.

End FullMarks.

End QualityChecker.

(** ** utils/quality: the standalone duplicate detector *)
Module DataQuality.

Inductive MarketCode := EU | UK | CCA | CEA | CCER | CDR.

Definition MarketCode_string (m : MarketCode) : string :=
  match m with
  | EU => "EU" | UK => "UK" | CCA => "CCA"
  | CEA => "CEA" | CCER => "CCER" | CDR => "CDR"
  end.

Inductive PriceType := settlement | close | mid.
Inductive Currency := EUR | GBP | USD | CNY.

(** [ParsedRow] of adapters/types.ts; [unit] is the constant [tCO2e]. *)
Record ParsedRow := {
  market_code : MarketCode;
  instrument_code : string;
  date : string;
  price : JS.number;
  price_type : PriceType;
  currency : Currency;
  volume : option JS.number;
  venue_name : option string;
  source_url : string;
  notes : option string
}.

(** The key of a row: the three fields joined by hyphens. *)
Definition row_key (row : ParsedRow) : string :=
  MarketCode_string (market_code row) +:+ "-" +:+ instrument_code row
    +:+ "-" +:+ date row.

Definition duplicate_notice (key : string) : string :=
  "Duplicate entry: " +:+ key.

(** One turn of the loop over the rows, on the set [seen] and the
    array [duplicates]. *)
Definition checkDuplicates_step (state : gset string * list string) (row : ParsedRow)
  : gset string * list string :=
  let '(seen, duplicates) := state in
  let key := row_key row in
  let duplicates :=
    if bool_decide (key ∈ seen) then duplicates ++ [duplicate_notice key]
    else duplicates in
  ({[key]} ∪ seen, duplicates).

Definition checkDuplicates (rows : list ParsedRow) : list string :=
  snd (fold_left checkDuplicates_step rows (∅, [])).

(** The three fields the key is built from. *)
Definition key_fields (row : ParsedRow) : MarketCode * string * string :=
  (market_code row, instrument_code row, date row).

(** *** Properties of [checkDuplicates] *)




Lemma checkDuplicates_loop_origin rows seen duplicates w :
  In w (snd (fold_left checkDuplicates_step rows (seen, duplicates))) ->
  In w duplicates
  \/ exists row, In row rows /\ w = duplicate_notice (row_key row).
Proof.
  revert seen duplicates.
  induction rows as [|row rows IH]; intros seen duplicates; [simpl; auto|].
  cbn [fold_left checkDuplicates_step]. intros Hin.
  apply IH in Hin. destruct Hin as [Hin|[row' [Hrow' ->]]].
  - destruct (bool_decide (row_key row ∈ seen)); [|auto].
    apply in_app_or in Hin. destruct Hin as [Hin|[<-|[]]]; [auto|].
    right. exists row. split; [left|]; reflexivity.
  - right. exists row'. split; [right; exact Hrow' | reflexivity].
Qed.




(** [/^\d{4}-\d{2}-\d{2}$/.test(s)]: the form [YYYY-MM-DD] that
    [ParsedRow] documents for [date]. *)
Definition date_format_ok (s : string) : bool :=
  match list_ascii_of_string s with
  | [y1; y2; y3; y4; h1; m1; m2; h2; d1; d2] =>
      forallb JS.is_digit [y1; y2; y3; y4; m1; m2; d1; d2]
      && Ascii.eqb h1 "-" && Ascii.eqb h2 "-"
  | _ => false
  end.

#[local] Instance MarketCode_eq_dec : EqDecision MarketCode.
Proof. solve_decision. Defined.




Definition row_of (m : MarketCode) (instrument day : string) : ParsedRow := {|
  market_code := m; instrument_code := instrument; date := day;
  price := 120%float; price_type := close; currency := USD;
  volume := None; venue_name := None;
  source_url := "https://www.cdr.fyi/"; notes := None
|}.

(** Outside the documented form of the date the joined key can be
    shared by rows that differ in the three fields: these two rows
    differ in instrument and in date, and the second is reported. *)
Lemma checkDuplicates_reports_distinct_rows :
  key_fields (row_of CDR "DAC-2024" "01") <> key_fields (row_of CDR "DAC" "2024-01")
  /\ checkDuplicates [row_of CDR "DAC-2024" "01"; row_of CDR "DAC" "2024-01"]
     = ["Duplicate entry: CDR-DAC-2024-01"].
Proof. split; [discriminate | vm_compute; reflexivity]. Qed.


(** *** Validation of a row *)

Definition Currency_string (c : Currency) : string :=
  match c with
  | EUR => "EUR" | GBP => "GBP" | USD => "USD" | CNY => "CNY"
  end.

(** [QualityCheck] of adapters/types.ts. *)
Record QualityCheck := {
  check_passed : bool;
  check_warnings : list string;
  check_errors : list string;
  check_score : Z
}.

(** The three variables [validatePriceData] works on. *)
Record Tally := {
  tally_warnings : list string;
  tally_errors : list string;
  tally_score : Z
}.

(** [errors.push(message); score -= points]. *)
Definition add_error (message : string) (points : Z) (t : Tally) : Tally :=
  {| tally_warnings := tally_warnings t;
     tally_errors := tally_errors t ++ [message];
     tally_score := tally_score t - points |}.

(** [warnings.push(message); score -= points]. *)
Definition add_warning (message : string) (points : Z) (t : Tally) : Tally :=
  {| tally_warnings := tally_warnings t ++ [message];
     tally_errors := tally_errors t;
     tally_score := tally_score t - points |}.

Definition market_codes : list string := ["EU"; "UK"; "CCA"; "CEA"; "CCER"; "CDR"].

(** [marketCurrencyMap[market_code]]. *)
Definition marketCurrencyMap (m : MarketCode) : option Currency :=
  match m with
  | EU => Some EUR
  | UK => Some GBP
  | CCA => Some USD
  | CEA => Some CNY
  | CCER => Some CNY
  | CDR => Some USD
  end.

Section Validation.
Context `{Engine} `{Runtime}.

(** The rows of the same market and instrument. *)
Definition sameInstrumentRows (row : ParsedRow) (previousRows : list ParsedRow)
  : list ParsedRow :=
  List.filter (fun r =>
    String.eqb (MarketCode_string (market_code r)) (MarketCode_string (market_code row))
    && String.eqb (instrument_code r) (instrument_code row)) previousRows.

(** [sameInstrumentRows.sort((a, b) => b.date.localeCompare(a.date))[0]]. *)
Definition latestPrevious (rows : list ParsedRow) : option ParsedRow :=
  hd_error (JS.sort (fun a b => String_localeCompare (date b) (date a)) rows).

(** The steps of [validatePriceData], in the order of the source.
    [today] is the time value of the local midnight that began the
    day of the call. *)
Definition check_date (row : ParsedRow) (t : Tally) : Tally :=
  if JS.falsy_string (date row) || negb (date_format_ok (date row))
  then add_error "Invalid date format" 30 t else t.

Definition check_price (row : ParsedRow) (t : Tally) : Tally :=
  if JS.falsy_number (price row) || (price row <=? 0)%float
  then add_error "Invalid price value" 30 t else t.

Definition check_market (row : ParsedRow) (t : Tally) : Tally :=
  if JS.falsy_string (MarketCode_string (market_code row))
     || negb (existsb (String.eqb (MarketCode_string (market_code row))) market_codes)
  then add_error "Invalid market code" 20 t else t.

Definition check_future (today : Z) (row : ParsedRow) (t : Tally) : Tally :=
  if match Date_getTime (date row) with
     | Some rowDate => today <? rowDate
     | None => false
     end
  then add_error "Date cannot be in the future" 25 t else t.

Definition check_currency (row : ParsedRow) (t : Tally) : Tally :=
  match marketCurrencyMap (market_code row) with
  | Some expectedCurrency =>
      if negb (String.eqb (Currency_string (currency row))
                 (Currency_string expectedCurrency))
      then add_warning
             ("Currency mismatch: expected " +:+ Currency_string expectedCurrency
              +:+ " for " +:+ MarketCode_string (market_code row)) 10 t
      else t
  | None => t
  end.

Definition check_change (row : ParsedRow) (previousRows : list ParsedRow) (t : Tally)
  : Tally :=
  match latestPrevious (sameInstrumentRows row previousRows) with
  | Some latest =>
      let changePercent :=
        JS.Math_abs ((price row - price latest) / price latest * 100)%float in
      if (50 <? changePercent)%float then
        add_warning ("Extreme price change: " +:+ Number_toFixed1 changePercent
                     +:+ "% from previous day") 15 t
      else if (20 <? changePercent)%float then
        add_warning ("Large price change: " +:+ Number_toFixed1 changePercent
                     +:+ "% from previous day") 5 t
      else t
  | None => t
  end.

Definition check_volume (row : ParsedRow) (t : Tally) : Tally :=
  match volume row with
  | Some v =>
      if (v =? 0)%float then add_warning "Zero volume detected" 5 t
      else if (10000000 <? v)%float then add_warning "Unusually high volume" 5 t
      else t
  | None => t
  end.

Definition check_cea (row : ParsedRow) (t : Tally) : Tally :=
  if String.eqb (MarketCode_string (market_code row)) "CEA"
     && ((200 <? price row)%float || (price row <? 10)%float)
  then add_warning "CEA price outside normal range (10-200 CNY)" 10 t else t.

Definition check_cdr (row : ParsedRow) (t : Tally) : Tally :=
  if String.eqb (MarketCode_string (market_code row)) "CDR"
     && ((price row <? 100)%float || (2000 <? price row)%float)
  then add_warning "CDR price outside typical range (100-2000 USD)" 10 t else t.

Definition check_source (row : ParsedRow) (t : Tally) : Tally :=
  if JS.falsy_string (source_url row) || negb (URL_canParse (source_url row))
  then add_warning "Invalid or missing source URL" 5 t else t.

Definition validatePriceData (today : Z) (row : ParsedRow)
  (previousRows : list ParsedRow) : QualityCheck :=
  let t := {| tally_warnings := []; tally_errors := []; tally_score := 100 |} in
  let t := check_date row t in
  let t := check_price row t in
  let t := check_market row t in
  let t := check_future today row t in
  let t := check_currency row t in
  let t := check_change row previousRows t in
  let t := check_volume row t in
  let t := check_cea row t in
  let t := check_cdr row t in
  let t := check_source row t in
  {| check_passed := (length (tally_errors t) =? 0)%nat;
     check_warnings := tally_warnings t;
     check_errors := tally_errors t;
     check_score := Z.max 0 (tally_score t) |}.

(** *** Properties of [validatePriceData] *)

(** What a step does to the tally: it adds [e] errors and [w] warnings
    and takes [p] points. *)
Definition step_adds (step : Tally -> Tally) (e w : nat) (p : Z) : Prop :=
  forall t,
    length (tally_errors (step t)) = (length (tally_errors t) + e)%nat
    /\ length (tally_warnings (step t)) = (length (tally_warnings t) + w)%nat
    /\ tally_score (step t) = tally_score t - p.

Lemma step_none : step_adds (fun t => t) 0 0 0.
Proof. intros t. repeat split; lia. Qed.

Lemma step_error message points : step_adds (add_error message points) 1 0 points.
Proof.
  intros t. cbn [add_error tally_errors tally_warnings tally_score].
  rewrite length_app. cbn [length]. repeat split; lia.
Qed.

Lemma step_warning message points : step_adds (add_warning message points) 0 1 points.
Proof.
  intros t. cbn [add_warning tally_errors tally_warnings tally_score].
  rewrite length_app. cbn [length]. repeat split; lia.
Qed.

Lemma check_date_adds row :
  exists e, (e <= 1)%nat /\ step_adds (check_date row) e 0 (30 * Z.of_nat e).
Proof.
  unfold check_date. destruct (_ || _);
    [exists 1%nat | exists 0%nat]; (split; [lia|]);
    [apply step_error | apply step_none].
Qed.

Lemma check_price_adds row :
  exists e, (e <= 1)%nat /\ step_adds (check_price row) e 0 (30 * Z.of_nat e).
Proof.
  unfold check_price. destruct (_ || _);
    [exists 1%nat | exists 0%nat]; (split; [lia|]);
    [apply step_error | apply step_none].
Qed.

(** A row's market code is one of the six, so the third check never
    fires. *)
Lemma check_market_adds row : step_adds (check_market row) 0 0 0.
Proof.
  unfold check_market. destruct (market_code row); apply step_none.
Qed.

Lemma check_future_adds today row :
  exists e, (e <= 1)%nat /\ step_adds (check_future today row) e 0 (25 * Z.of_nat e).
Proof.
  unfold check_future. destruct (match _ with Some _ => _ | None => _ end);
    [exists 1%nat | exists 0%nat]; (split; [lia|]);
    [apply step_error | apply step_none].
Qed.

Lemma check_currency_adds row :
  exists w p, 0 <= p <= 10 /\ step_adds (check_currency row) 0 w p.
Proof.
  unfold check_currency. destruct (marketCurrencyMap _); [destruct (negb _)|];
    [exists 1%nat, 10 | exists 0%nat, 0 | exists 0%nat, 0]; (split; [lia|]);
    [apply step_warning | apply step_none | apply step_none].
Qed.

Lemma check_change_adds row previousRows :
  exists w p, 0 <= p <= 15 /\ step_adds (check_change row previousRows) 0 w p.
Proof.
  unfold check_change. destruct (latestPrevious _); cbv zeta;
    [destruct (50 <? _)%float; [|destruct (20 <? _)%float]|];
    [exists 1%nat, 15 | exists 1%nat, 5 | exists 0%nat, 0 | exists 0%nat, 0];
    (split; [lia|]);
    [apply step_warning | apply step_warning | apply step_none | apply step_none].
Qed.

Lemma check_volume_adds row :
  exists w p, 0 <= p <= 5 /\ step_adds (check_volume row) 0 w p.
Proof.
  unfold check_volume. destruct (volume row) as [v|];
    [destruct (v =? 0)%float; [|destruct (10000000 <? v)%float]|];
    [exists 1%nat, 5 | exists 1%nat, 5 | exists 0%nat, 0 | exists 0%nat, 0];
    (split; [lia|]);
    [apply step_warning | apply step_warning | apply step_none | apply step_none].
Qed.

(** The rules of the CEA and of the CDR market apply to different
    rows: together they take 10 points at most. *)
Lemma check_markets_adds row :
  exists w p,
    0 <= p <= 10 /\ step_adds (fun t => check_cdr row (check_cea row t)) 0 w p.
Proof.
  unfold check_cea, check_cdr.
  destruct (market_code row); cbn [MarketCode_string String.eqb Ascii.eqb Bool.eqb andb];
    try (exists 0%nat, 0; split; [lia | apply step_none]).
  - destruct (_ || _); [exists 1%nat, 10 | exists 0%nat, 0]; (split; [lia|]);
      [apply step_warning | apply step_none].
  - destruct (_ || _); [exists 1%nat, 10 | exists 0%nat, 0]; (split; [lia|]);
      [apply step_warning | apply step_none].
Qed.

Lemma check_source_adds row :
  exists w p, 0 <= p <= 5 /\ step_adds (check_source row) 0 w p.
Proof.
  unfold check_source. destruct (_ || _); [exists 1%nat, 5 | exists 0%nat, 0];
    (split; [lia|]); [apply step_warning | apply step_none].
Qed.

(** The score and the number of errors of a check: [e1], [e2] and
    [e4] count the errors of the date format, of the price and of a
    date in the future, and [p] is what the warnings take. *)
Lemma validatePriceData_tally today row previousRows :
  exists e1 e2 e4 p,
    (e1 <= 1)%nat /\ (e2 <= 1)%nat /\ (e4 <= 1)%nat /\ 0 <= p <= 45
    /\ length (check_errors (validatePriceData today row previousRows))
       = (e1 + e2 + e4)%nat
    /\ check_score (validatePriceData today row previousRows)
       = Z.max 0 (100 - 30 * Z.of_nat e1 - 30 * Z.of_nat e2 - 25 * Z.of_nat e4 - p).
Proof.
  destruct (check_date_adds row) as (e1 & He1 & S1).
  destruct (check_price_adds row) as (e2 & He2 & S2).
  pose proof (check_market_adds row) as S3.
  destruct (check_future_adds today row) as (e4 & He4 & S4).
  destruct (check_currency_adds row) as (w5 & p5 & Hp5 & S5).
  destruct (check_change_adds row previousRows) as (w6 & p6 & Hp6 & S6).
  destruct (check_volume_adds row) as (w7 & p7 & Hp7 & S7).
  destruct (check_markets_adds row) as (w8 & p8 & Hp8 & S8).
  destruct (check_source_adds row) as (w9 & p9 & Hp9 & S9).
  exists e1, e2, e4, (p5 + p6 + p7 + p8 + p9).
  split; [exact He1|]. split; [exact He2|]. split; [exact He4|]. split; [lia|].
  unfold validatePriceData. cbv zeta. cbn [check_errors check_score].
  set (t0 := {| tally_warnings := []; tally_errors := []; tally_score := 100 |}).
  set (t1 := check_date row t0).
  set (t2 := check_price row t1).
  set (t3 := check_market row t2).
  set (t4 := check_future today row t3).
  set (t5 := check_currency row t4).
  set (t6 := check_change row previousRows t5).
  set (t7 := check_volume row t6).
  destruct (S1 t0) as (A1 & _ & B1). destruct (S2 t1) as (A2 & _ & B2).
  destruct (S3 t2) as (A3 & _ & B3). destruct (S4 t3) as (A4 & _ & B4).
  destruct (S5 t4) as (A5 & _ & B5). destruct (S6 t5) as (A6 & _ & B6).
  destruct (S7 t6) as (A7 & _ & B7). destruct (S8 t7) as (A8 & _ & B8).
  destruct (S9 (check_cdr row (check_cea row t7))) as (A9 & _ & B9).
  fold t1 in A1, B1. fold t2 in A2, B2. fold t3 in A3, B3. fold t4 in A4, B4.
  fold t5 in A5, B5. fold t6 in A6, B6. fold t7 in A7, B7.
  cbn [t0 tally_errors tally_score length] in A1, B1.
  split; [lia|]. f_equal. lia.
Qed.

(** The messages of the errors a row can be given. *)
Definition row_errors : list string :=
  ["Invalid date format"; "Invalid price value"; "Date cannot be in the future"].

Definition known_errors (t : Tally) : Prop :=
  forall e, In e (tally_errors t) -> In e row_errors.

Lemma known_errors_error message points t :
  In message row_errors -> known_errors t ->
  known_errors (add_error message points t).
Proof.
  intros Hm Ht e Hin. cbn [add_error tally_errors] in Hin.
  apply in_app_or in Hin. destruct Hin as [Hin|[<-|[]]]; [apply Ht, Hin | exact Hm].
Qed.

Lemma validatePriceData_known_errors today row previousRows e :
  In e (check_errors (validatePriceData today row previousRows)) -> In e row_errors.
Proof.
  unfold validatePriceData. cbv zeta. cbn [check_errors]. revert e.
  change (known_errors
    (check_source row (check_cdr row (check_cea row (check_volume row
      (check_change row previousRows (check_currency row
        (check_future today row (check_market row (check_price row
          (check_date row
             {| tally_warnings := []; tally_errors := []; tally_score := 100 |}))))))))))).
  assert (K0 : known_errors
    {| tally_warnings := []; tally_errors := []; tally_score := 100 |})
    by (intros e []).
  revert K0. generalize {| tally_warnings := []; tally_errors := []; tally_score := 100 |}.
  intros t0 K0.
  assert (K1 : known_errors (check_date row t0)).
  { unfold check_date. destruct (_ || _); [|exact K0].
    apply known_errors_error; [left; reflexivity | exact K0]. }
  revert K1. generalize (check_date row t0). clear t0 K0. intros t1 K1.
  assert (K2 : known_errors (check_price row t1)).
  { unfold check_price. destruct (_ || _); [|exact K1].
    apply known_errors_error; [right; left; reflexivity | exact K1]. }
  revert K2. generalize (check_price row t1). clear t1 K1. intros t2 K2.
  assert (K3 : known_errors (check_market row t2)).
  { unfold check_market. destruct (market_code row); exact K2. }
  revert K3. generalize (check_market row t2). clear t2 K2. intros t3 K3.
  assert (K4 : known_errors (check_future today row t3)).
  { unfold check_future. destruct (match _ with Some _ => _ | None => _ end); [|exact K3].
    apply known_errors_error; [right; right; left; reflexivity | exact K3]. }
  revert K4. generalize (check_future today row t3). clear t3 K3. intros t4 K4.
  assert (K5 : known_errors (check_currency row t4)).
  { unfold check_currency. destruct (marketCurrencyMap _); [destruct (negb _)|];
      exact K4. }
  revert K5. generalize (check_currency row t4). clear t4 K4. intros t5 K5.
  assert (K6 : known_errors (check_change row previousRows t5)).
  { unfold check_change. destruct (latestPrevious _); cbv zeta;
      [destruct (50 <? _)%float; [|destruct (20 <? _)%float]|];
      exact K5. }
  revert K6. generalize (check_change row previousRows t5). clear t5 K5. intros t6 K6.
  assert (K7 : known_errors (check_volume row t6)).
  { unfold check_volume. destruct (volume row) as [v|];
      [destruct (v =? 0)%float; [|destruct (10000000 <? v)%float]|];
      exact K6. }
  revert K7. generalize (check_volume row t6). clear t6 K6. intros t7 K7.
  assert (K8 : known_errors (check_cea row t7)).
  { unfold check_cea. destruct (_ && _); exact K7. }
  revert K8. generalize (check_cea row t7). clear t7 K7. intros t8 K8.
  assert (K9 : known_errors (check_cdr row t8)).
  { unfold check_cdr. destruct (_ && _); exact K8. }
  revert K9. generalize (check_cdr row t8). clear t8 K8. intros t9 K9.
  unfold check_source. destruct (_ || _); exact K9.
Qed.

(** X5.  On a row of the type [ParsedRow], whose market code is one
    of the six the type allows, the score of [validatePriceData] lies
    between 0 and 100.  A row that passes, having no error, scores at
    least 55, since the warnings take 45 points at most.  A row that
    does not pass scores at most 75, and if it scores 60 or more, which
    lets it count towards the overall score of a batch, it has exactly
    one error.  The errors of such a row are among
    [Invalid date format], [Invalid price value] and
    [Date cannot be in the future]: the check of the market code finds
    nothing on a row of that type. *)
Theorem validatePriceData_score today row previousRows :
  let check := validatePriceData today row previousRows in
  0 <= check_score check <= 100
  /\ check_passed check = (length (check_errors check) =? 0)%nat
  /\ (if check_passed check then 55 <= check_score check
      else check_score check <= 75
           /\ (60 <= check_score check -> length (check_errors check) = 1%nat))
  /\ (forall e, In e (check_errors check) -> In e row_errors)
  /\ ~ In "Invalid market code" (check_errors check).
Proof.
  cbv zeta.
  destruct (validatePriceData_tally today row previousRows)
    as (e1 & e2 & e4 & p & He1 & He2 & He4 & Hp & Herrors & Hscore).
  split; [lia|]. split; [reflexivity|]. split; [|split].
  - change (check_passed (validatePriceData today row previousRows))
      with (length (check_errors (validatePriceData today row previousRows)) =? 0)%nat.
    rewrite Herrors, Hscore.
    destruct (Nat.eqb_spec (e1 + e2 + e4) 0); [lia|]. split; lia.
  - apply validatePriceData_known_errors.
  - intros Hin. apply validatePriceData_known_errors in Hin.
    destruct Hin as [E|[E|[E|[]]]]; discriminate.
Qed.

End Validation.

(** *** Assessment of a batch *)

Record BatchQuality := {
  overallScore : JS.number;
  issues : list string;
  recommendations : list string
}.

Definition low_quality_advice : string :=
  "数据质量偏低，建议检查数据源和采集流程".
Definition duplicates_advice : string :=
  "存在重复数据，建议检查去重逻辑".
Definition error_rate_advice : string :=
  "错误率过高，建议暂停自动导入进行人工审核".

(** [i.toLowerCase().includes('error')]. *)
Definition mentions_error (issue : string) : bool :=
  JS.includes "error" (JS.toLowerCase issue).

Section Batch.
Context `{Engine} `{Runtime}.

(** The loop over the rows: the issues, the sum of the scores that
    count, and the number of rows that count.  [clock i] is the
    midnight of the day on which the row of index [i] is validated. *)
Definition assess_row (rows : list ParsedRow) (clock : nat -> Z)
  (state : list string * Z * nat) (indexed : nat * ParsedRow)
  : list string * Z * nat :=
  let '(issues, totalScore, validRows) := state in
  let check := validatePriceData (clock (fst indexed)) (snd indexed) rows in
  let counts := check_passed check || (60 <=? check_score check) in
  (issues ++ check_errors check ++ check_warnings check,
   if counts then totalScore + check_score check else totalScore,
   if counts then S validRows else validRows).

(** [assessBatchQuality(rows)].  The scores are whole numbers, and so
    are the counts; [errorCount > rows.length * 0.1] holds for whole
    numbers exactly when ten times the count is above the length. *)
Definition assessBatchQuality (clock : nat -> Z) (rows : list ParsedRow)
  : BatchQuality :=
  let duplicates := checkDuplicates rows in
  let '(issues, totalScore, validRows) :=
    fold_left (assess_row rows clock) (combine (seq 0 (length rows)) rows)
      (duplicates, 0, 0%nat) in
  let overallScore :=
    if (0 <? validRows)%nat
    then (QualityChecker.count_number (Z.to_nat totalScore)
          / QualityChecker.count_number validRows)%float
    else 0%float in
  let errorCount := length (List.filter mentions_error issues) in
  {| overallScore := overallScore;
     issues := firstn 100 issues;
     recommendations :=
       (if (overallScore <? 70)%float then [low_quality_advice] else [])
       ++ (if (0 <? length duplicates)%nat then [duplicates_advice] else [])
       ++ (if Z.of_nat (length rows) <? 10 * Z.of_nat errorCount
           then [error_rate_advice] else []) |}.

(** *** Properties of [assessBatchQuality] *)

(** All the issues of a batch, before the first 100 are taken. *)
Definition all_issues (clock : nat -> Z) (rows : list ParsedRow) : list string :=
  fst (fst (fold_left (assess_row rows clock) (combine (seq 0 (length rows)) rows)
              (checkDuplicates rows, 0, 0%nat))).

Lemma assess_rows_issues rows clock indexed state :
  forall issue,
    In issue (fst (fst (fold_left (assess_row rows clock) indexed state))) ->
    In issue (fst (fst state))
    \/ exists today row,
         In issue (check_errors (validatePriceData today row rows)
                   ++ check_warnings (validatePriceData today row rows)).
Proof.
  revert state. induction indexed as [|[i row] indexed IH]; intros state issue Hin.
  - left. exact Hin.
  - cbn [fold_left] in Hin. apply IH in Hin. destruct Hin as [Hin|Hin]; [|auto].
    destruct state as [[issues total] valid]. cbn [assess_row fst snd] in Hin.
    apply in_app_or in Hin. destruct Hin as [Hin|Hin]; [left; exact Hin|].
    right. exists (clock i), row. exact Hin.
Qed.

(** The warnings of [validatePriceData] do not hold the word [error],
    when the numbers [toFixed] prints do not. *)
Lemma warnings_mention_no_error today row rows w :
  (forall x, mentions_error (Number_toFixed1 x) = false) ->
  In w (check_warnings (validatePriceData today row rows)) ->
  mentions_error w = false.
Proof.
  intros Hfixed. unfold validatePriceData. cbv zeta. cbn [check_warnings]. revert w.
  set (quiet := fun t : Tally =>
         forall w, In w (tally_warnings t) -> mentions_error w = false).
  change (quiet
    (check_source row (check_cdr row (check_cea row (check_volume row
      (check_change row rows (check_currency row
        (check_future today row (check_market row (check_price row
          (check_date row
             {| tally_warnings := []; tally_errors := []; tally_score := 100 |}))))))))))).
  assert (Kwarn : forall message points t,
    mentions_error message = false -> quiet t ->
    quiet (add_warning message points t)).
  { intros message points t Hm Ht w Hin. cbn [add_warning tally_warnings] in Hin.
    apply in_app_or in Hin. destruct Hin as [Hin|[<-|[]]]; [apply Ht, Hin | exact Hm]. }
  assert (Kchange : forall prefix x,
    JS.includes "error" (JS.toLowerCase prefix) = false ->
    mentions_error (prefix +:+ ": " +:+ Number_toFixed1 x +:+ "% from previous day")
    = false).
  { intros prefix x Hprefix. unfold mentions_error.
    rewrite !JS.toLowerCase_append.
    change (JS.toLowerCase ": ") with ": ".
    change (JS.toLowerCase "% from previous day") with "% from previous day".
    cbn [String.append].
    rewrite (JS.includes_split "error" ":") by reflexivity.
    rewrite Hprefix. cbn [orb].
    rewrite (JS.includes_after "error" " ") by reflexivity.
    rewrite (JS.includes_split "error" "%") by reflexivity.
    unfold mentions_error in Hfixed. rewrite (Hfixed x). reflexivity. }
  assert (K0 : quiet {| tally_warnings := []; tally_errors := []; tally_score := 100 |})
    by (intros w []).
  revert K0. generalize {| tally_warnings := []; tally_errors := []; tally_score := 100 |}.
  intros t0 K0.
  assert (K1 : quiet (check_date row t0))
    by (unfold check_date; destruct (_ || _); exact K0).
  revert K1. generalize (check_date row t0). clear t0 K0. intros t1 K1.
  assert (K2 : quiet (check_price row t1))
    by (unfold check_price; destruct (_ || _); exact K1).
  revert K2. generalize (check_price row t1). clear t1 K1. intros t2 K2.
  assert (K3 : quiet (check_market row t2))
    by (unfold check_market; destruct (_ || _); exact K2).
  revert K3. generalize (check_market row t2). clear t2 K2. intros t3 K3.
  assert (K4 : quiet (check_future today row t3))
    by (unfold check_future; destruct (match _ with Some _ => _ | None => _ end);
        exact K3).
  revert K4. generalize (check_future today row t3). clear t3 K3. intros t4 K4.
  assert (K5 : quiet (check_currency row t4)).
  { unfold check_currency.
    destruct (market_code row); cbn [marketCurrencyMap];
      destruct (negb _); try exact K4; (apply Kwarn; [reflexivity | exact K4]). }
  revert K5. generalize (check_currency row t4). clear t4 K4. intros t5 K5.
  assert (K6 : quiet (check_change row rows t5)).
  { unfold check_change. destruct (latestPrevious _); cbv zeta;
      [destruct (50 <? _)%float; [|destruct (20 <? _)%float]|];
      try exact K5; (apply Kwarn; [|exact K5]).
    - apply (Kchange "Extreme price change"). reflexivity.
    - apply (Kchange "Large price change"). reflexivity. }
  revert K6. generalize (check_change row rows t5). clear t5 K5. intros t6 K6.
  assert (K7 : quiet (check_volume row t6)).
  { unfold check_volume. destruct (volume row) as [v|];
      [destruct (v =? 0)%float; [|destruct (10000000 <? v)%float]|];
      try exact K6; (apply Kwarn; [reflexivity | exact K6]). }
  revert K7. generalize (check_volume row t6). clear t6 K6. intros t7 K7.
  assert (K8 : quiet (check_cea row t7)).
  { unfold check_cea. destruct (_ && _); [apply Kwarn; [reflexivity|]|]; exact K7. }
  revert K8. generalize (check_cea row t7). clear t7 K7. intros t8 K8.
  assert (K9 : quiet (check_cdr row t8)).
  { unfold check_cdr. destruct (_ && _); [apply Kwarn; [reflexivity|]|]; exact K8. }
  revert K9. generalize (check_cdr row t8). clear t8 K8. intros t9 K9.
  unfold check_source. destruct (_ || _); [apply Kwarn; [reflexivity|]|]; exact K9.
Qed.

(** The notice of a duplicate holds the word [error] only if the
    row's instrument code or date does. *)
Lemma duplicate_notice_mentions row :
  mentions_error (duplicate_notice (row_key row))
  = mentions_error (instrument_code row) || mentions_error (date row).
Proof.
  unfold mentions_error, duplicate_notice, row_key.
  rewrite !JS.toLowerCase_append.
  change (JS.toLowerCase "-") with "-". cbn [String.append].
  rewrite (JS.includes_split_after "error" "-") by reflexivity.
  rewrite (JS.includes_split "error" "-") by reflexivity.
  destruct (market_code row); reflexivity.
Qed.

Lemma no_issue_mentions_error clock rows :
  (forall x, mentions_error (Number_toFixed1 x) = false) ->
  (forall row, In row rows ->
     mentions_error (instrument_code row) = false
     /\ mentions_error (date row) = false) ->
  List.filter mentions_error (all_issues clock rows) = [].
Proof.
  intros Hfixed Hrows.
  assert (Hall : forall issue, In issue (all_issues clock rows) ->
                               mentions_error issue = false).
  { intros issue Hin. unfold all_issues in Hin.
    apply assess_rows_issues in Hin. cbn [fst] in Hin.
    destruct Hin as [Hin|(today & row & Hin)].
    - apply checkDuplicates_loop_origin in Hin. destruct Hin as [[]|(row & Hrow & ->)].
      rewrite duplicate_notice_mentions.
      destruct (Hrows row Hrow) as [-> ->]. reflexivity.
    - apply in_app_or in Hin. destruct Hin as [Hin|Hin].
      + apply validatePriceData_known_errors in Hin.
        destruct Hin as [<-|[<-|[<-|[]]]]; reflexivity.
      + eapply warnings_mention_no_error; eassumption. }
  induction (all_issues clock rows) as [|issue rest IH]; [reflexivity|].
  cbn [List.filter]. rewrite (Hall issue) by (left; reflexivity).
  apply IH. intros other Hin. apply Hall. right. exact Hin.
Qed.

Lemma assessBatchQuality_fields clock rows :
  issues (assessBatchQuality clock rows) = firstn 100 (all_issues clock rows)
  /\ (In error_rate_advice (recommendations (assessBatchQuality clock rows))
      <-> Z.of_nat (length rows)
          < 10 * Z.of_nat (length (List.filter mentions_error (all_issues clock rows))))
  /\ (In duplicates_advice (recommendations (assessBatchQuality clock rows))
      <-> checkDuplicates rows <> []).
Proof.
  unfold assessBatchQuality, all_issues.
  destruct (fold_left _ _ _) as [[found total] valid]. cbn [fst issues recommendations].
  split; [reflexivity|]. split.
  - destruct (Z.ltb_spec (Z.of_nat (length rows))
                (10 * Z.of_nat (length (List.filter mentions_error found)))) as [Hlt|Hge].
    + split; [intros _; exact Hlt|]. intros _.
      apply in_or_app. right. apply in_or_app. right. left. reflexivity.
    + split; [|lia]. intros Hin.
      apply in_app_or in Hin. destruct Hin as [Hin|Hin].
      { destruct (_ <? _)%float; [destruct Hin as [E|[]]; discriminate | destruct Hin]. }
      apply in_app_or in Hin. destruct Hin as [Hin|[]].
      destruct (_ <? _)%nat; [destruct Hin as [E|[]]; discriminate | destruct Hin].
  - destruct (checkDuplicates rows) as [|d ds]; cbn [length Nat.ltb Nat.leb].
    + split; [|congruence]. intros Hin.
      apply in_app_or in Hin. destruct Hin as [Hin|Hin].
      { destruct (_ <? _)%float; [destruct Hin as [E|[]]; discriminate | destruct Hin]. }
      destruct (_ <? _); [destruct Hin as [E|[]]; discriminate | destruct Hin].
    + split; [discriminate|]. intros _.
      apply in_or_app. right. left. reflexivity.
Qed.

(** X6.  [assessBatchQuality] returns at most 100 issues.  It
    advises to check the removal of duplicates exactly when
    [checkDuplicates] reports one.  Its advice to pause the automatic
    import is given when more than a tenth as many issues as there are
    rows hold the word [error]; no message of the validation holds
    it, so that, when [toFixed] prints no such word and no row holds
    it in its instrument code or its date, this advice is never
    given, whatever number of rows fails the validation. *)
Theorem assessBatchQuality_error_rate clock rows :
  (forall x, mentions_error (Number_toFixed1 x) = false) ->
  (forall row, In row rows ->
     mentions_error (instrument_code row) = false
     /\ mentions_error (date row) = false) ->
  ~ In error_rate_advice (recommendations (assessBatchQuality clock rows))
  /\ (length (issues (assessBatchQuality clock rows)) <= 100)%nat
  /\ (In duplicates_advice (recommendations (assessBatchQuality clock rows))
      <-> checkDuplicates rows <> []).
Proof.
  intros Hfixed Hrows.
  destruct (assessBatchQuality_fields clock rows) as (Hissues & Hrate & Hduplicates).
  split; [|split; [|exact Hduplicates]].
  - rewrite Hrate, (no_issue_mentions_error clock rows Hfixed Hrows).
    cbn [length]. lia.
  - rewrite Hissues. apply firstn_le_length.
Qed.

End Batch.

(** A batch that holds the same row twice. *)
Definition repeated_rows : list ParsedRow :=
  [row_of CDR "DAC" "2024-01-10"; row_of CDR "DAC" "2024-01-10"].

Lemma assessBatchQuality_error_rate_witness :
  (forall x, mentions_error (Sample.toFixed1 x) = false)
  /\ ~ In error_rate_advice
         (recommendations
            (@assessBatchQuality Sample.engine Sample.runtime (fun _ => 1704844800000)
               repeated_rows))
  /\ In duplicates_advice
        (recommendations
           (@assessBatchQuality Sample.engine Sample.runtime (fun _ => 1704844800000)
              repeated_rows)).
Proof.
  assert (Hrows : forall row, In row repeated_rows ->
            mentions_error (instrument_code row) = false
            /\ mentions_error (date row) = false).
  { intros row [<-|[<-|[]]]; split; reflexivity. }
  split; [exact Sample.toFixed1_without_error|].
  destruct (@assessBatchQuality_error_rate Sample.engine Sample.runtime
              (fun _ => 1704844800000) repeated_rows
              Sample.toFixed1_without_error Hrows) as (Hnever & _ & Hadvice).
  split; [exact Hnever|]. apply Hadvice. vm_compute. discriminate.
Defined.

End DataQuality.

(** ** adapters/carb-csv: [CarbCSVAdapter] *)
Module CarbCSVAdapter.

Definition name : string := "CARB CSV".
Definition marketCode : string := "CCA".
Definition currency : string := "USD".

Definition is_separator (c : ascii) : bool :=
  Ascii.eqb c "/" || Ascii.eqb c "-".

(** [dateString.trim().replace(/[^\d\/\-]/g, '')]: what is left are the
    digits, slashes and hyphens; the white space [trim] removes is
    among the characters the replacement removes. *)
Definition clean (dateString : string) : string :=
  string_of_list_ascii
    (List.filter (fun c => JS.is_digit c || is_separator c)
       (list_ascii_of_string dateString)).

(** The longest run of digits at the head of a string, and the rest. *)
Fixpoint digits_span (l : list ascii) : list ascii * list ascii :=
  match l with
  | c :: rest =>
      if JS.is_digit c then
        let '(run, tail) := digits_span rest in (c :: run, tail)
      else ([], l)
  | [] => ([], [])
  end.

(** The three groups of [^(\d..)[\/\-](\d..)[\/\-](\d..)$]: on a string
    of digits and separators a group is a whole run of digits. *)
Definition date_groups (s : string) : option (string * string * string) :=
  let '(g1, r1) := digits_span (list_ascii_of_string s) in
  match r1 with
  | sep1 :: r1 =>
      let '(g2, r2) := digits_span r1 in
      match r2 with
      | sep2 :: r2 =>
          let '(g3, r3) := digits_span r2 in
          match r3 with
          | [] =>
              if is_separator sep1 && is_separator sep2 then
                Some (string_of_list_ascii g1, string_of_list_ascii g2,
                      string_of_list_ascii g3)
              else None
          | _ :: _ => None
          end
      | [] => None
      end
  | [] => None
  end.

Definition length_in (lo hi : nat) (s : string) : bool :=
  (lo <=? String.length s)%nat && (String.length s <=? hi)%nat.

(** The entries of [formats]. *)
Inductive DateFormat := YMD | MDY4 | MDY2.

Definition formats : list DateFormat := [YMD; MDY4; MDY2].

(** The digit counts of the three groups in each format:
    [(\d{4})..(\d{1,2})..(\d{1,2})], [(\d{1,2})..(\d{1,2})..(\d{4})]
    and [(\d{1,2})..(\d{1,2})..(\d{2})]. *)
Definition group_lengths (format : DateFormat) (g1 g2 g3 : string) : bool :=
  match format with
  | YMD => length_in 4 4 g1 && length_in 1 2 g2 && length_in 1 2 g3
  | MDY4 => length_in 1 2 g1 && length_in 1 2 g2 && length_in 4 4 g3
  | MDY2 => length_in 1 2 g1 && length_in 1 2 g2 && length_in 2 2 g3
  end.

(** [clean.match(format)]. *)
Definition match_format (format : DateFormat) (clean : string)
  : option (string * string * string) :=
  match date_groups clean with
  | Some (g1, g2, g3) =>
      if group_lengths format g1 g2 g3 then Some (g1, g2, g3) else None
  | None => None
  end.

(** Year, month and day of a match. *)
Definition date_parts (format : DateFormat) (groups : string * string * string)
  : Z * Z * Z :=
  let '(g1, g2, g3) := groups in
  match format with
  | YMD => (JS.parseInt g1, JS.parseInt g2, JS.parseInt g3)
  | MDY4 => (JS.parseInt g3, JS.parseInt g1, JS.parseInt g2)
  | MDY2 =>
      let year := JS.parseInt g3 in
      (if year <? 50 then 2000 + year else 1900 + year,
       JS.parseInt g1, JS.parseInt g2)
  end.

Definition valid_date (year month day : Z) : bool :=
  (1 <=? month) && (month <=? 12) && (1 <=? day) && (day <=? 31)
  && (2000 <=? year).

Definition format_date (year month day : Z) : string :=
  JS.Z_toString year +:+ "-" +:+ JS.padStart2 (JS.Z_toString month)
    +:+ "-" +:+ JS.padStart2 (JS.Z_toString day).

(** The loop over [formats]: the first format that matches with a
    valid date gives the result. *)
Fixpoint normalizeDate_loop (formats : list DateFormat) (clean : string)
  : option string :=
  match formats with
  | [] => None
  | format :: rest =>
      match match_format format clean with
      | Some groups =>
          let '(year, month, day) := date_parts format groups in
          if valid_date year month day then Some (format_date year month day)
          else normalizeDate_loop rest clean
      | None => normalizeDate_loop rest clean
      end
  end.

Definition normalizeDate (dateString : string) : option string :=
  normalizeDate_loop formats (clean dateString).

Section WithEngine.
Context `{Engine}.

(** What one record adds to [errors] and to [warnings]. *)
Definition record_errors (record : PriceRecord) : list string :=
  (if negb (String.eqb (Types.marketCode record) marketCode)
   then ["Invalid market code: " +:+ Types.marketCode record] else [])
  ++ (if negb (String.eqb (Types.currency record) currency)
      then ["Invalid currency: " +:+ Types.currency record] else [])
  ++ (match Date_getTime (date record) with
      | None => ["Invalid date: " +:+ date record]
      | Some _ => []
      end).

Definition record_warnings (record : PriceRecord) : list string :=
  if (price record <? 5)%float || (100 <? price record)%float
  then ["Price $" +:+ Number_toString (price record)
          +:+ " outside typical CARB range ($5-100)"]
  else [].

Definition quality_options : QualityCheckOptions := {|
  expectedPriceRange := {| min := 5%float; max := 100%float |};
  maxPriceChangePercent := 20%float;
  requiredFields := ["date"; "price"; "marketCode"; "instrumentCode"]
|}.

(** The [metadata] summary of the result (the observed price and date
    range) is not modelled; nothing in the scheduler reads it. *)
Definition validateData (records : list PriceRecord) : ValidationResult :=
  let qualityScore := QualityChecker.calculateScore records in
  let errors := flat_map record_errors records in
  let warnings := flat_map record_warnings records in
  let qualityCheck := QualityChecker.checkQuality records quality_options in
  {| isValid := (length errors =? 0)%nat;
     errors := errors;
     warnings := warnings ++ qc_warnings qualityCheck;
     qualityScore := qualityScore;
     recordCount := length records |}.

End WithEngine.

(** *** Properties of [normalizeDate] *)

Lemma forallb_range (f : Z -> bool) (lo : Z) (n : nat) :
  forallb f (map (fun i => lo + Z.of_nat i) (seq 0 n)) = true ->
  forall z, lo <= z < lo + Z.of_nat n -> f z = true.
Proof.
  intros Hall z Hz. rewrite forallb_forall in Hall. apply Hall.
  apply in_map_iff. exists (Z.to_nat (z - lo)). split; [lia|].
  apply in_seq. lia.
Qed.

Lemma digits_span_digits l run tail :
  digits_span l = (run, tail) -> forallb JS.is_digit run = true.
Proof.
  revert run tail. induction l as [|c l IH]; intros run tail; simpl.
  - intros [= <- _]. reflexivity.
  - destruct (JS.is_digit c) eqn:Hc.
    + destruct (digits_span l) as [run' tail'] eqn:E. intros [= <- _].
      simpl. rewrite Hc. eapply IH. reflexivity.
    + intros [= <- _]. reflexivity.
Qed.

Lemma digits_span_app g tail :
  forallb JS.is_digit g = true ->
  match tail with [] => True | c :: _ => JS.is_digit c = false end ->
  digits_span (g ++ tail) = (g, tail).
Proof.
  intros Hg Htail. induction g as [|c g IH]; simpl in *.
  - destruct tail as [|c tail]; [reflexivity|]. simpl. rewrite Htail. reflexivity.
  - apply andb_prop in Hg. destruct Hg as [Hc Hg]. rewrite Hc, (IH Hg). reflexivity.
Qed.

Lemma digit_value_bounds c : JS.is_digit c = true -> 0 <= JS.digit_value c <= 9.
Proof.
  unfold JS.is_digit, JS.digit_value. intros Hc. apply andb_prop in Hc.
  destruct Hc as [Hlo Hhi]. apply N.leb_le in Hlo, Hhi. lia.
Qed.

Lemma parse_digits_bounds l acc :
  forallb JS.is_digit l = true -> 0 <= acc ->
  acc * 10 ^ Z.of_nat (length l)
  <= fold_left (fun acc c => 10 * acc + JS.digit_value c) l acc
  < (acc + 1) * 10 ^ Z.of_nat (length l).
Proof.
  revert acc. induction l as [|c l IH]; intros acc Hl Hacc.
  - simpl. lia.
  - cbn [forallb] in Hl. apply andb_prop in Hl. destruct Hl as [Hc Hl].
    pose proof (digit_value_bounds c Hc) as Hv.
    cbn [fold_left length]. specialize (IH (10 * acc + JS.digit_value c) Hl ltac:(lia)).
    rewrite Nat2Z.inj_succ, Z.pow_succ_r by lia.
    assert (0 < 10 ^ Z.of_nat (length l)) by (apply Z.pow_pos_nonneg; lia).
    nia.
Qed.

Lemma parseInt_bounds g :
  JS.all_digits g = true ->
  0 <= JS.parseInt g < 10 ^ Z.of_nat (String.length g).
Proof.
  unfold JS.all_digits, JS.parseInt. intros Hg.
  pose proof (parse_digits_bounds (list_ascii_of_string g) 0 Hg ltac:(lia)) as Hb.
  assert (Hlen : length (list_ascii_of_string g) = String.length g)
    by (clear; induction g; simpl; congruence).
  rewrite Hlen in Hb. lia.
Qed.

Lemma all_digits_of_list l :
  forallb JS.is_digit l = true -> JS.all_digits (string_of_list_ascii l) = true.
Proof.
  unfold JS.all_digits. rewrite list_ascii_of_string_of_list_ascii. auto.
Qed.

Lemma date_groups_digits s g1 g2 g3 :
  date_groups s = Some (g1, g2, g3) ->
  JS.all_digits g1 = true /\ JS.all_digits g2 = true /\ JS.all_digits g3 = true.
Proof.
  unfold date_groups.
  destruct (digits_span (list_ascii_of_string s)) as [r1 t1] eqn:E1.
  destruct t1 as [|sep1 t1]; [discriminate|].
  destruct (digits_span t1) as [r2 t2] eqn:E2.
  destruct t2 as [|sep2 t2]; [discriminate|].
  destruct (digits_span t2) as [r3 t3] eqn:E3.
  destruct t3; [|discriminate].
  destruct (_ && _); [|discriminate]. intros [= <- <- <-].
  repeat split; apply all_digits_of_list;
    eapply digits_span_digits; eassumption.
Qed.

Lemma length_in_spec lo hi s :
  length_in lo hi s = true <-> (lo <= String.length s <= hi)%nat.
Proof.
  unfold length_in. rewrite andb_true_iff, !Nat.leb_le. reflexivity.
Qed.

Lemma list_ascii_of_append a b :
  list_ascii_of_string (a +:+ b) = list_ascii_of_string a ++ list_ascii_of_string b.
Proof. induction a; simpl; congruence. Qed.

Lemma separator_not_digit c : is_separator c = true -> JS.is_digit c = false.
Proof.
  unfold is_separator. intros Hc. apply orb_prop in Hc.
  destruct Hc as [Hc|Hc]; apply Ascii.eqb_eq in Hc; subst c; reflexivity.
Qed.

Lemma filter_all_kept {A} (f : A -> bool) l :
  forallb f l = true -> List.filter f l = l.
Proof.
  induction l as [|a l IH]; simpl; [reflexivity|].
  intros Hl. apply andb_prop in Hl. destruct Hl as [-> Hl]. rewrite IH; auto.
Qed.

Lemma forallb_weaken {A} (f g : A -> bool) l :
  (forall a, f a = true -> g a = true) -> forallb f l = true -> forallb g l = true.
Proof.
  intros Hfg. induction l as [|a l IH]; simpl; [reflexivity|].
  intros Hl. apply andb_prop in Hl. destruct Hl as [Ha Hl].
  rewrite (Hfg _ Ha), (IH Hl). reflexivity.
Qed.

(** An input made of three groups of digits and two separators. *)
Definition date_text (g1 : string) (sep1 : ascii) (g2 : string) (sep2 : ascii)
  (g3 : string) : string :=
  g1 +:+ String sep1 (g2 +:+ String sep2 g3).

Lemma date_text_groups g1 sep1 g2 sep2 g3 :
  JS.all_digits g1 = true -> JS.all_digits g2 = true -> JS.all_digits g3 = true ->
  is_separator sep1 = true -> is_separator sep2 = true ->
  clean (date_text g1 sep1 g2 sep2 g3) = date_text g1 sep1 g2 sep2 g3
  /\ date_groups (date_text g1 sep1 g2 sep2 g3) = Some (g1, g2, g3).
Proof.
  unfold JS.all_digits. intros D1 D2 D3 S1 S2.
  assert (Hl : list_ascii_of_string (date_text g1 sep1 g2 sep2 g3)
             = list_ascii_of_string g1
               ++ sep1 :: list_ascii_of_string g2
               ++ sep2 :: list_ascii_of_string g3).
  { unfold date_text. rewrite list_ascii_of_append. simpl.
    rewrite list_ascii_of_append. reflexivity. }
  split.
  - unfold clean. rewrite filter_all_kept; [apply string_of_list_ascii_of_string|].
    rewrite Hl, forallb_app. cbn [forallb]. rewrite forallb_app. cbn [forallb].
    rewrite S1, S2, !orb_true_r.
    rewrite !(forallb_weaken JS.is_digit
                (fun c => JS.is_digit c || is_separator c)); auto;
      intros a Ha; rewrite Ha; reflexivity.
  - unfold date_groups. rewrite Hl.
    rewrite (digits_span_app _ _ D1) by (apply separator_not_digit, S1).
    rewrite (digits_span_app _ _ D2) by (apply separator_not_digit, S2).
    pose proof (digits_span_app _ [] D3 I) as E3. rewrite app_nil_r in E3.
    rewrite E3, S1, S2. simpl. rewrite !string_of_list_ascii_of_string.
    reflexivity.
Qed.

(** An input in one of the three formats is normalised when its month
    is 1 to 12, its day 1 to 31 and its year at least 2000, and is
    rejected otherwise. *)
Lemma normalizeDate_on_format format g1 sep1 g2 sep2 g3 :
  JS.all_digits g1 = true -> JS.all_digits g2 = true -> JS.all_digits g3 = true ->
  is_separator sep1 = true -> is_separator sep2 = true ->
  group_lengths format g1 g2 g3 = true ->
  normalizeDate (date_text g1 sep1 g2 sep2 g3)
  = let '(year, month, day) := date_parts format (g1, g2, g3) in
    if valid_date year month day then Some (format_date year month day)
    else None.
Proof.
  intros D1 D2 D3 S1 S2 Hlen.
  destruct (date_text_groups g1 sep1 g2 sep2 g3 D1 D2 D3 S1 S2) as [Hclean Hgroups].
  unfold normalizeDate, formats. rewrite Hclean.
  cbn [normalizeDate_loop]. unfold match_format. rewrite Hgroups.
  destruct (date_parts format (g1, g2, g3)) as [[year month] day] eqn:Ep.
  assert (Hcases :
    (format = YMD /\ group_lengths MDY4 g1 g2 g3 = false
       /\ group_lengths MDY2 g1 g2 g3 = false)
    \/ (format = MDY4 /\ group_lengths YMD g1 g2 g3 = false
          /\ group_lengths MDY2 g1 g2 g3 = false)
    \/ (format = MDY2 /\ group_lengths YMD g1 g2 g3 = false
          /\ group_lengths MDY4 g1 g2 g3 = false)).
  { unfold group_lengths, length_in in *.
    destruct format; [left | right; left | right; right];
      (split; [reflexivity|]);
      repeat match goal with
      | L : _ && _ = true |- _ => apply andb_prop in L; destruct L
      | L : (_ <=? _)%nat = true |- _ => apply Nat.leb_le in L
      end;
      split; apply not_true_is_false; intros Hc;
      repeat match goal with
      | L : _ && _ = true |- _ => apply andb_prop in L; destruct L
      | L : (_ <=? _)%nat = true |- _ => apply Nat.leb_le in L
      end; lia. }
  destruct Hcases as [[-> [E1 E2]]|[[-> [E1 E2]]|[-> [E1 E2]]]];
    rewrite ?Hlen, ?E1, ?E2, ?Ep;
    destruct (valid_date year month day); reflexivity.
Qed.

(** In the two-digit form a year from 50 on is read as 19xx and is then
    always rejected. *)
Lemma normalizeDate_rejects_1900s g1 sep1 g2 sep2 g3 :
  JS.all_digits g1 = true -> JS.all_digits g2 = true -> JS.all_digits g3 = true ->
  is_separator sep1 = true -> is_separator sep2 = true ->
  group_lengths MDY2 g1 g2 g3 = true -> 50 <= JS.parseInt g3 ->
  normalizeDate (date_text g1 sep1 g2 sep2 g3) = None.
Proof.
  intros D1 D2 D3 S1 S2 Hlen Hyear.
  rewrite (normalizeDate_on_format MDY2) by assumption.
  cbn [date_parts]. destruct (Z.ltb_spec (JS.parseInt g3) 50) as [|_]; [lia|].
  pose proof (parseInt_bounds _ D3) as B3.
  unfold group_lengths, length_in in Hlen.
  repeat match goal with
  | L : _ && _ = true |- _ => apply andb_prop in L; destruct L
  | L : (_ <=? _)%nat = true |- _ => apply Nat.leb_le in L
  end.
  replace (String.length g3) with 2%nat in B3 by lia. simpl in B3.
  unfold valid_date.
  destruct (Z.leb_spec 2000 (1900 + JS.parseInt g3)); [lia|].
  rewrite andb_false_r. reflexivity.
Qed.

(** The accepted formats, and the rejections the specification names. *)
Example normalizeDate_examples :
  map normalizeDate
    ["2024-01-15"; "2024/1/5"; "01/15/2024"; "1/5/24"; "12/31/49";
     "12/31/50"; "01/15/99"; "2024-13-01"; "2024-01-32"; "13/01/2024";
     "2024-00-10"; "1999-12-31"]
  = [Some "2024-01-15"; Some "2024-01-05"; Some "2024-01-15";
     Some "2024-01-05"; Some "2049-12-31";
     None; None; None; None; None; None; None].
Proof. vm_compute. reflexivity. Qed.

(** *** What [normalizeDate] accepts and returns *)

(** The statements below write numbers out digit by digit, apart from
    the way the code reads and prints them: the character of a digit,
    and a number written with one, two and four digits. *)
Definition digit_char (n : Z) : ascii := ascii_of_nat (48 + Z.to_nat n).

Definition digits1 (n : Z) : string := String (digit_char n) "".

Definition digits2 (n : Z) : string :=
  String (digit_char (n / 10)) (String (digit_char (n mod 10)) "").

Definition digits4 (n : Z) : string :=
  String (digit_char (n / 1000))
    (String (digit_char (n / 100 mod 10))
       (String (digit_char (n / 10 mod 10)) (String (digit_char (n mod 10)) ""))).

(** [text] writes [n] with two digits, or with one. *)
Definition written (n : Z) (text : string) : Prop :=
  text = digits2 n \/ (n <= 9 /\ text = digits1 n).

(** The characters [clean] keeps. *)
Definition date_characters : string := "0123456789/-".

Lemma digit_char_value c :
  JS.is_digit c = true -> digit_char (JS.digit_value c) = c.
Proof.
  destruct c as [[] [] [] [] [] [] [] []]; try discriminate; intros _; reflexivity.
Qed.

Lemma kept_characters c :
  existsb (Ascii.eqb c) (list_ascii_of_string date_characters)
  = JS.is_digit c || is_separator c.
Proof. destruct c as [[] [] [] [] [] [] [] []]; reflexivity. Qed.

Lemma clean_kept s :
  clean s
  = string_of_list_ascii
      (List.filter (fun c => existsb (Ascii.eqb c) (list_ascii_of_string date_characters))
         (list_ascii_of_string s)).
Proof.
  unfold clean. f_equal. apply filter_ext. intros c. symmetry. apply kept_characters.
Qed.

Lemma is_separator_cases c : is_separator c = true <-> (c = "/" \/ c = "-")%char.
Proof.
  unfold is_separator. rewrite orb_true_iff, !Ascii.eqb_eq. reflexivity.
Qed.

(** A group of one, two or four digits is its number written out. *)
Lemma group_of_one g :
  JS.all_digits g = true -> String.length g = 1%nat ->
  0 <= JS.parseInt g <= 9 /\ g = digits1 (JS.parseInt g).
Proof.
  unfold JS.all_digits, JS.parseInt.
  destruct g as [|a [|? ?]]; try discriminate. intros Hg _.
  cbn [list_ascii_of_string forallb fold_left] in *.
  rewrite andb_true_r in Hg. pose proof (digit_value_bounds a Hg) as Ha.
  replace (10 * 0 + JS.digit_value a) with (JS.digit_value a) by lia.
  split; [lia|]. unfold digits1. rewrite (digit_char_value a Hg). reflexivity.
Qed.

Lemma group_of_two g :
  JS.all_digits g = true -> String.length g = 2%nat ->
  0 <= JS.parseInt g <= 99 /\ g = digits2 (JS.parseInt g).
Proof.
  unfold JS.all_digits, JS.parseInt.
  destruct g as [|a [|b [|? ?]]]; try discriminate. intros Hg _.
  cbn [list_ascii_of_string forallb fold_left] in *.
  apply andb_prop in Hg. destruct Hg as [Ha Hb]. rewrite andb_true_r in Hb.
  pose proof (digit_value_bounds a Ha) as Ba.
  pose proof (digit_value_bounds b Hb) as Bb.
  set (n := 10 * (10 * 0 + JS.digit_value a) + JS.digit_value b).
  assert (E1 : n / 10 = JS.digit_value a)
    by (symmetry; apply (Z.div_unique n 10 _ (JS.digit_value b)); lia).
  assert (E2 : n mod 10 = JS.digit_value b)
    by (symmetry; apply (Z.mod_unique n 10 (JS.digit_value a)); lia).
  split; [lia|]. unfold digits2.
  rewrite E1, E2, (digit_char_value a Ha), (digit_char_value b Hb). reflexivity.
Qed.

Lemma group_of_four g :
  JS.all_digits g = true -> String.length g = 4%nat ->
  0 <= JS.parseInt g <= 9999 /\ g = digits4 (JS.parseInt g).
Proof.
  unfold JS.all_digits, JS.parseInt.
  destruct g as [|a [|b [|c [|d [|? ?]]]]]; try discriminate. intros Hg _.
  cbn [list_ascii_of_string forallb fold_left] in *.
  apply andb_prop in Hg. destruct Hg as [Ha Hg].
  apply andb_prop in Hg. destruct Hg as [Hb Hg].
  apply andb_prop in Hg. destruct Hg as [Hc Hd]. rewrite andb_true_r in Hd.
  pose proof (digit_value_bounds a Ha) as Ba.
  pose proof (digit_value_bounds b Hb) as Bb.
  pose proof (digit_value_bounds c Hc) as Bc.
  pose proof (digit_value_bounds d Hd) as Bd.
  set (n := 10 * (10 * (10 * (10 * 0 + JS.digit_value a) + JS.digit_value b)
                  + JS.digit_value c) + JS.digit_value d).
  assert (E1 : n / 1000 = JS.digit_value a)
    by (symmetry; apply (Z.div_unique n 1000 _
          (100 * JS.digit_value b + 10 * JS.digit_value c + JS.digit_value d)); lia).
  assert (E2 : n / 100 = 10 * JS.digit_value a + JS.digit_value b)
    by (symmetry; apply (Z.div_unique n 100 _
          (10 * JS.digit_value c + JS.digit_value d)); lia).
  assert (E3 : n / 10
               = 100 * JS.digit_value a + 10 * JS.digit_value b + JS.digit_value c)
    by (symmetry; apply (Z.div_unique n 10 _ (JS.digit_value d)); lia).
  assert (F2 : n / 100 mod 10 = JS.digit_value b)
    by (rewrite E2; symmetry; apply (Z.mod_unique _ 10 (JS.digit_value a)); lia).
  assert (F3 : n / 10 mod 10 = JS.digit_value c)
    by (rewrite E3; symmetry;
        apply (Z.mod_unique _ 10 (10 * JS.digit_value a + JS.digit_value b)); lia).
  assert (F4 : n mod 10 = JS.digit_value d)
    by (symmetry; apply (Z.mod_unique n 10
          (100 * JS.digit_value a + 10 * JS.digit_value b + JS.digit_value c)); lia).
  split; [lia|]. unfold digits4.
  rewrite E1, F2, F3, F4, (digit_char_value a Ha), (digit_char_value b Hb),
    (digit_char_value c Hc), (digit_char_value d Hd). reflexivity.
Qed.

Lemma group_written g :
  JS.all_digits g = true -> length_in 1 2 g = true ->
  0 <= JS.parseInt g <= 99 /\ written (JS.parseInt g) g.
Proof.
  intros Hg Hlen. apply length_in_spec in Hlen.
  destruct (Nat.eq_dec (String.length g) 1%nat) as [E|E].
  - destruct (group_of_one g Hg E) as [Hb Hw]. split; [lia|]. right. split; [lia|exact Hw].
  - destruct (group_of_two g Hg ltac:(lia)) as [Hb Hw]. split; [exact Hb|]. left. exact Hw.
Qed.

(** A number written out is a group of digits that reads back. *)
Definition reads_back (text : Z -> string) (size : nat) (n : Z) : bool :=
  JS.all_digits (text n) && (String.length (text n) =? size)%nat
  && (JS.parseInt (text n) =? n).

Lemma reads_back_spec text size n :
  reads_back text size n = true ->
  JS.all_digits (text n) = true /\ String.length (text n) = size
  /\ JS.parseInt (text n) = n.
Proof.
  unfold reads_back. intros Hn.
  apply andb_prop in Hn. destruct Hn as [Hn Hv].
  apply andb_prop in Hn. destruct Hn as [Hd Hl].
  apply Nat.eqb_eq in Hl. apply Z.eqb_eq in Hv. auto.
Qed.

Lemma digits1_reads_back n : 0 <= n <= 9 -> reads_back digits1 1 n = true.
Proof.
  intros Hn. apply (forallb_range (reads_back digits1 1) 0 10);
    [vm_compute; reflexivity | lia].
Qed.

Lemma digits2_reads_back n : 0 <= n <= 99 -> reads_back digits2 2 n = true.
Proof.
  intros Hn. apply (forallb_range (reads_back digits2 2) 0 100);
    [vm_compute; reflexivity | lia].
Qed.

Lemma digits4_reads_back n : 0 <= n <= 9999 -> reads_back digits4 4 n = true.
Proof.
  intros Hn. apply (forallb_range (reads_back digits4 4) 0 (Z.to_nat 10000));
    [vm_compute; reflexivity | lia].
Qed.

Lemma written_reads_back n text :
  0 <= n <= 99 -> written n text ->
  JS.all_digits text = true /\ length_in 1 2 text = true /\ JS.parseInt text = n.
Proof.
  intros Hn [->|[Hsmall ->]].
  - destruct (reads_back_spec _ _ _ (digits2_reads_back n Hn)) as (Hd & Hl & Hv).
    split; [exact Hd|]. split; [apply length_in_spec; lia | exact Hv].
  - destruct (reads_back_spec _ _ _ (digits1_reads_back n ltac:(lia))) as (Hd & Hl & Hv).
    split; [exact Hd|]. split; [apply length_in_spec; lia | exact Hv].
Qed.

(** The date the code prints, digit by digit. *)
Definition iso_text (year month day : Z) : string :=
  digits4 year +:+ "-" +:+ digits2 month +:+ "-" +:+ digits2 day.

Lemma format_date_text year month day :
  1000 <= year <= 9999 -> 0 <= month <= 99 -> 0 <= day <= 99 ->
  format_date year month day = iso_text year month day.
Proof.
  intros Hy Hm Hd.
  assert (Hyear : String.eqb (JS.Z_toString year) (digits4 year) = true).
  { apply (forallb_range (fun y => String.eqb (JS.Z_toString y) (digits4 y))
             1000 (Z.to_nat 9000)); [vm_compute; reflexivity | lia]. }
  assert (Htwo : forall n, 0 <= n <= 99 ->
            String.eqb (JS.padStart2 (JS.Z_toString n)) (digits2 n) = true).
  { intros n Hn.
    apply (forallb_range (fun n => String.eqb (JS.padStart2 (JS.Z_toString n)) (digits2 n))
             0 100); [vm_compute; reflexivity | lia]. }
  apply String.eqb_eq in Hyear.
  pose proof (Htwo month Hm) as Hmonth. pose proof (Htwo day Hd) as Hday.
  apply String.eqb_eq in Hmonth, Hday.
  unfold format_date, iso_text. rewrite Hyear, Hmonth, Hday. reflexivity.
Qed.

Lemma digits_span_split l run tail : digits_span l = (run, tail) -> l = run ++ tail.
Proof.
  revert run tail. induction l as [|c l IH]; intros run tail; simpl.
  - intros [= <- <-]. reflexivity.
  - destruct (JS.is_digit c).
    + destruct (digits_span l) as [run' tail'] eqn:E. intros [= <- <-].
      simpl. f_equal. apply IH. reflexivity.
    + intros [= <- <-]. reflexivity.
Qed.

Lemma date_groups_text s g1 g2 g3 :
  date_groups s = Some (g1, g2, g3) ->
  exists sep1 sep2,
    s = date_text g1 sep1 g2 sep2 g3
    /\ is_separator sep1 = true /\ is_separator sep2 = true.
Proof.
  unfold date_groups.
  destruct (digits_span (list_ascii_of_string s)) as [r1 t1] eqn:E1.
  destruct t1 as [|sep1 t1]; [discriminate|].
  destruct (digits_span t1) as [r2 t2] eqn:E2.
  destruct t2 as [|sep2 t2]; [discriminate|].
  destruct (digits_span t2) as [r3 t3] eqn:E3.
  destruct t3; [|discriminate].
  destruct (is_separator sep1) eqn:S1; [|discriminate].
  destruct (is_separator sep2) eqn:S2; [|discriminate].
  cbn [andb]. intros [= <- <- <-]. exists sep1, sep2.
  split; [|auto].
  apply digits_span_split in E1, E2, E3. rewrite app_nil_r in E3. subst t2 t1.
  rewrite <- (string_of_list_ascii_of_string s), E1. unfold date_text.
  clear. induction r1 as [|c r1 IH]; cbn [app string_of_list_ascii String.append].
  - f_equal. induction r2 as [|c r2 IH]; cbn [app string_of_list_ascii String.append];
      [reflexivity | f_equal; exact IH].
  - f_equal. exact IH.
Qed.

(** What a result of [normalizeDate] comes from: a format that
    matches the cleaned input and a date that is valid. *)
Lemma normalizeDate_inv dateString result :
  normalizeDate dateString = Some result ->
  exists format g1 sep1 g2 sep2 g3,
    clean dateString = date_text g1 sep1 g2 sep2 g3
    /\ JS.all_digits g1 = true /\ JS.all_digits g2 = true /\ JS.all_digits g3 = true
    /\ is_separator sep1 = true /\ is_separator sep2 = true
    /\ group_lengths format g1 g2 g3 = true
    /\ (let '(year, month, day) := date_parts format (g1, g2, g3) in
        valid_date year month day = true
        /\ result = format_date year month day).
Proof.
  unfold normalizeDate. generalize (clean dateString) as c. intros c.
  assert (Hstep : forall format rest (P : Prop),
    (normalizeDate_loop rest c = Some result -> P) ->
    (forall g1 g2 g3,
       match_format format c = Some (g1, g2, g3) ->
       (let '(year, month, day) := date_parts format (g1, g2, g3) in
        valid_date year month day = true /\ result = format_date year month day) ->
       P) ->
    normalizeDate_loop (format :: rest) c = Some result -> P).
  { intros format rest P Hrest Hhere. cbn [normalizeDate_loop].
    destruct (match_format format c) as [[[g1 g2] g3]|] eqn:Em; [|exact Hrest].
    specialize (Hhere g1 g2 g3 eq_refl).
    destruct (date_parts format (g1, g2, g3)) as [[year month] day].
    destruct (valid_date year month day); [|exact Hrest].
    intros [= <-]. apply Hhere. auto. }
  assert (Hmatch : forall format g1 g2 g3,
    match_format format c = Some (g1, g2, g3) ->
    (let '(year, month, day) := date_parts format (g1, g2, g3) in
     valid_date year month day = true /\ result = format_date year month day) ->
    exists format g1 sep1 g2 sep2 g3,
      c = date_text g1 sep1 g2 sep2 g3
      /\ JS.all_digits g1 = true /\ JS.all_digits g2 = true /\ JS.all_digits g3 = true
      /\ is_separator sep1 = true /\ is_separator sep2 = true
      /\ group_lengths format g1 g2 g3 = true
      /\ (let '(year, month, day) := date_parts format (g1, g2, g3) in
          valid_date year month day = true
          /\ result = format_date year month day)).
  { intros format g1 g2 g3 Em Hdate. unfold match_format in Em.
    destruct (date_groups c) as [[[h1 h2] h3]|] eqn:Eg; [|discriminate].
    destruct (group_lengths format h1 h2 h3) eqn:El; [|discriminate].
    injection Em as <- <- <-.
    destruct (date_groups_digits _ _ _ _ Eg) as (D1 & D2 & D3).
    destruct (date_groups_text _ _ _ _ Eg) as (sep1 & sep2 & Ec & S1 & S2).
    exists format, h1, sep1, h2, sep2, h3. auto 10. }
  unfold formats.
  apply Hstep; [|apply Hmatch].
  apply Hstep; [|apply Hmatch].
  apply Hstep; [|apply Hmatch].
  discriminate.
Qed.

(** X1.  A date that [normalizeDate] returns is the date written in
    the input, and not one moved into range: the result is
    [YYYY-MM-DD] for a year from 2000 to 9999, a month from 1 to 12 and
    a day from 1 to 31, and the digits, slashes and hyphens of the
    input, in their order, are this year, month and day in one of the
    three formats, the month and the day written with one or two
    digits and the year with four, or with two for a year up to
    2049. *)
Theorem normalizeDate_sound dateString result :
  normalizeDate dateString = Some result ->
  exists year month day sep1 sep2 monthText dayText,
    2000 <= year <= 9999 /\ 1 <= month <= 12 /\ 1 <= day <= 31
    /\ result = digits4 year +:+ "-" +:+ digits2 month +:+ "-" +:+ digits2 day
    /\ (sep1 = "/" \/ sep1 = "-")%char /\ (sep2 = "/" \/ sep2 = "-")%char
    /\ written month monthText /\ written day dayText
    /\ let kept :=
         string_of_list_ascii
           (List.filter
              (fun c => existsb (Ascii.eqb c) (list_ascii_of_string "0123456789/-"))
              (list_ascii_of_string dateString)) in
       kept = date_text (digits4 year) sep1 monthText sep2 dayText
       \/ kept = date_text monthText sep1 dayText sep2 (digits4 year)
       \/ (year <= 2049
           /\ kept = date_text monthText sep1 dayText sep2 (digits2 (year - 2000))).
Proof.
  intros Hresult. cbv zeta. fold date_characters. rewrite <- clean_kept.
  destruct (normalizeDate_inv _ _ Hresult)
    as (format & g1 & sep1 & g2 & sep2 & g3 & Hclean & D1 & D2 & D3 & S1 & S2
        & Hlen & Hdate).
  apply is_separator_cases in S1, S2. rewrite Hclean. clear Hclean Hresult.
  destruct format; cbn [date_parts group_lengths] in Hdate, Hlen;
    apply andb_prop in Hlen; destruct Hlen as [Hlen L3];
    apply andb_prop in Hlen; destruct Hlen as [L1 L2];
    destruct Hdate as [Hvalid ->]; unfold valid_date in Hvalid;
    repeat (apply andb_prop in Hvalid; destruct Hvalid as [Hvalid ?]).
  - (* YYYY-MM-DD *)
    apply length_in_spec in L1.
    destruct (group_of_four g1 D1 ltac:(lia)) as [B1 E1].
    destruct (group_written g2 D2 L2) as [B2 W2].
    destruct (group_written g3 D3 L3) as [B3 W3].
    exists (JS.parseInt g1), (JS.parseInt g2), (JS.parseInt g3), sep1, sep2, g2, g3.
    rewrite format_date_text by lia. unfold iso_text. rewrite <- E1.
    repeat (split; [first [lia | reflexivity | assumption]|]). left. reflexivity.
  - (* MM/DD/YYYY *)
    apply length_in_spec in L3.
    destruct (group_of_four g3 D3 ltac:(lia)) as [B3 E3].
    destruct (group_written g1 D1 L1) as [B1 W1].
    destruct (group_written g2 D2 L2) as [B2 W2].
    exists (JS.parseInt g3), (JS.parseInt g1), (JS.parseInt g2), sep1, sep2, g1, g2.
    rewrite format_date_text by lia. unfold iso_text. rewrite <- E3.
    repeat (split; [first [lia | reflexivity | assumption]|]). right. left. reflexivity.
  - (* MM/DD/YY *)
    apply length_in_spec in L3.
    destruct (group_of_two g3 D3 ltac:(lia)) as [B3 E3].
    destruct (group_written g1 D1 L1) as [B1 W1].
    destruct (group_written g2 D2 L2) as [B2 W2].
    destruct (Z.ltb_spec (JS.parseInt g3) 50) as [Hpivot|Hpivot]; [|lia].
    exists (2000 + JS.parseInt g3), (JS.parseInt g1), (JS.parseInt g2),
      sep1, sep2, g1, g2.
    rewrite format_date_text by lia. unfold iso_text.
    replace (2000 + JS.parseInt g3 - 2000) with (JS.parseInt g3) by lia.
    rewrite <- E3.
    repeat (split; [first [lia | reflexivity | assumption]|]). right. right.
    split; [lia | reflexivity].
Qed.

(** X2.  An input that writes a year, a month and a day in one of the
    three formats, with a slash or a hyphen at either place and the
    month and the day with one or two digits, is accepted exactly when
    the month is 1 to 12, the day 1 to 31 and the year at least 2000,
    and the result is then that date as [YYYY-MM-DD] with the month
    and the day on two digits; otherwise the result is [null].  A
    year written with two digits is read as 20xx below 50, and from
    50 on the input is rejected. *)
Theorem normalizeDate_complete year month day sep1 sep2 monthText dayText :
  0 <= year <= 9999 -> 0 <= month <= 99 -> 0 <= day <= 99 ->
  (sep1 = "/" \/ sep1 = "-")%char -> (sep2 = "/" \/ sep2 = "-")%char ->
  written month monthText -> written day dayText ->
  let in_range := (1 <=? month) && (month <=? 12) && (1 <=? day) && (day <=? 31) in
  let text := fun y => digits4 y +:+ "-" +:+ digits2 month +:+ "-" +:+ digits2 day in
  normalizeDate (date_text (digits4 year) sep1 monthText sep2 dayText)
  = (if in_range && (2000 <=? year) then Some (text year) else None)
  /\ normalizeDate (date_text monthText sep1 dayText sep2 (digits4 year))
     = (if in_range && (2000 <=? year) then Some (text year) else None)
  /\ (year <= 99 ->
      normalizeDate (date_text monthText sep1 dayText sep2 (digits2 year))
      = (if in_range && (year <? 50) then Some (text (2000 + year)) else None)).
Proof.
  intros Hy Hm Hd S1 S2 Wm Wd. cbv zeta.
  apply is_separator_cases in S1, S2.
  destruct (written_reads_back month monthText Hm Wm) as (Dm & Lm & Vm).
  destruct (written_reads_back day dayText Hd Wd) as (Dd & Ld & Vd).
  destruct (reads_back_spec _ _ _ (digits4_reads_back year Hy)) as (D4 & L4 & V4).
  assert (Four : length_in 4 4 (digits4 year) = true) by (apply length_in_spec; lia).
  split; [|split].
  - rewrite (normalizeDate_on_format YMD) by
      (try assumption; cbn [group_lengths]; rewrite Four, Lm, Ld; reflexivity).
    cbn [date_parts]. rewrite V4, Vm, Vd. unfold valid_date.
    destruct ((1 <=? month) && (month <=? 12) && (1 <=? day) && (day <=? 31)) eqn:Er;
      [|reflexivity].
    destruct (Z.leb_spec 2000 year); [|reflexivity]. cbn [andb].
    rewrite format_date_text by lia. reflexivity.
  - rewrite (normalizeDate_on_format MDY4) by
      (try assumption; cbn [group_lengths]; rewrite Four, Lm, Ld; reflexivity).
    cbn [date_parts]. rewrite V4, Vm, Vd. unfold valid_date.
    destruct ((1 <=? month) && (month <=? 12) && (1 <=? day) && (day <=? 31)) eqn:Er;
      [|reflexivity].
    destruct (Z.leb_spec 2000 year); [|reflexivity]. cbn [andb].
    rewrite format_date_text by lia. reflexivity.
  - intros Hshort.
    destruct (reads_back_spec _ _ _ (digits2_reads_back year ltac:(lia)))
      as (D2 & L2 & V2).
    assert (Two : length_in 2 2 (digits2 year) = true) by (apply length_in_spec; lia).
    rewrite (normalizeDate_on_format MDY2) by
      (try assumption; cbn [group_lengths]; rewrite Two, Lm, Ld; reflexivity).
    cbn [date_parts]. rewrite V2, Vm, Vd. unfold valid_date.
    destruct ((1 <=? month) && (month <=? 12) && (1 <=? day) && (day <=? 31)) eqn:Er;
      [|reflexivity].
    destruct (Z.ltb_spec year 50).
    + destruct (Z.leb_spec 2000 (2000 + year)); [|lia]. cbn [andb].
      rewrite format_date_text by lia. reflexivity.
    + destruct (Z.leb_spec 2000 (1900 + year)); [lia|]. reflexivity.
Qed.

Lemma normalizeDate_sound_witness :
  normalizeDate " 1/5/24 " = Some "2024-01-05"
  /\ exists year month day sep1 sep2 monthText dayText,
       2000 <= year <= 9999 /\ 1 <= month <= 12 /\ 1 <= day <= 31
       /\ "2024-01-05" = digits4 year +:+ "-" +:+ digits2 month +:+ "-" +:+ digits2 day
       /\ (sep1 = "/" \/ sep1 = "-")%char /\ (sep2 = "/" \/ sep2 = "-")%char
       /\ written month monthText /\ written day dayText
       /\ ("1/5/24" = date_text (digits4 year) sep1 monthText sep2 dayText
           \/ "1/5/24" = date_text monthText sep1 dayText sep2 (digits4 year)
           \/ (year <= 2049
               /\ "1/5/24" = date_text monthText sep1 dayText sep2 (digits2 (year - 2000)))).
Proof.
  split; [reflexivity|].
  exact (normalizeDate_sound " 1/5/24 " "2024-01-05" eq_refl).
Defined.

Lemma normalizeDate_complete_witness :
  normalizeDate "0024-1-05" = None
  /\ normalizeDate "1/05/0024" = None
  /\ normalizeDate "1/05/24" = Some "2024-01-05"
  /\ normalizeDate "2024-13-32" = None
  /\ normalizeDate "13/32/2024" = None
  /\ normalizeDate "2024/12-31" = Some "2024-12-31"
  /\ normalizeDate "12-31/50" = None.
Proof.
  assert (Hslash : ("/" = "/" \/ "/" = "-")%char) by (left; reflexivity).
  assert (Hhyphen : ("-" = "/" \/ "-" = "-")%char) by (right; reflexivity).
  assert (Hone : written 1 "1") by (right; split; [lia | reflexivity]).
  destruct (normalizeDate_complete 24 1 5 "/" "/" "1" "05"
              ltac:(lia) ltac:(lia) ltac:(lia) Hslash Hslash
              Hone (or_introl eq_refl))
    as (_ & A2 & A3).
  destruct (normalizeDate_complete 24 1 5 "-" "-" "1" "05"
              ltac:(lia) ltac:(lia) ltac:(lia) Hhyphen Hhyphen
              Hone (or_introl eq_refl))
    as (A1 & _ & _).
  destruct (normalizeDate_complete 2024 13 32 "-" "-" "13" "32"
              ltac:(lia) ltac:(lia) ltac:(lia) Hhyphen Hhyphen
              (or_introl eq_refl) (or_introl eq_refl))
    as (B1 & _ & _).
  destruct (normalizeDate_complete 2024 13 32 "/" "/" "13" "32"
              ltac:(lia) ltac:(lia) ltac:(lia) Hslash Hslash
              (or_introl eq_refl) (or_introl eq_refl))
    as (_ & B2 & _).
  destruct (normalizeDate_complete 2024 12 31 "/" "-" "12" "31"
              ltac:(lia) ltac:(lia) ltac:(lia) Hslash Hhyphen
              (or_introl eq_refl) (or_introl eq_refl))
    as (C1 & _ & _).
  destruct (normalizeDate_complete 50 12 31 "-" "/" "12" "31"
              ltac:(lia) ltac:(lia) ltac:(lia) Hhyphen Hslash
              (or_introl eq_refl) (or_introl eq_refl))
    as (_ & _ & C3).
  split; [exact A1|]. split; [exact A2|]. split; [exact (A3 ltac:(lia))|].
  split; [exact B1|]. split; [exact B2|]. split; [exact C1|].
  exact (C3 ltac:(lia)).
Defined.

(** Three rows of the California market on consecutive days, the third
    with a price more than twice the second: the batch is valid, all
    three records count, and the jump is a warning. *)
Example validateData_price_jump :
  @validateData Sample.engine
    [QualityChecker.record_at "2024-01-10" 30%float;
     QualityChecker.record_at "2024-01-11" (63 / 2)%float;
     QualityChecker.record_at "2024-01-12" 65%float]
  = {| isValid := true;
       errors := [];
       warnings :=
         ["Large price change 106.3% between 2024-01-11 and 2024-01-12"];
       qualityScore := 100;
       recordCount := 3 |}.
Proof. vm_compute. reflexivity. Qed.

(** *** Reading a CSV record *)

(** A value of a record that [csv-parse] hands over: a text, a number,
    or anything else.  The code reads a date from a text only and a
    number from a text or a number, and passes over any other value. *)
Inductive CsvValue :=
| Text (text : string)
| Num (x : JS.number)
| Other.

Definition dateFields : list string :=
  ["date"; "Date"; "Trading_Date"; "auction_date"; "settlement_date"].
Definition priceFields : list string :=
  ["price"; "Price"; "Settlement_Price"; "clearing_price"; "avg_price"].
Definition volumeFields : list string :=
  ["volume"; "Volume"; "Quantity"; "allowances_sold"; "total_volume"].

Section Parsing.
Context `{Runtime}.

(** [parseNumericValue(value)]: [value.replace(/[$,\s]/g, '')] drops
    the dollar signs, the commas and the white space, after which
    [trim] has nothing to remove. *)
Definition parseNumericValue (value : CsvValue) : option JS.number :=
  match value with
  | Num x => Some x
  | Text text =>
      let cleaned := JS.remove_class ("$" :: "," :: JS.white_space) text in
      let numeric := parseFloat cleaned in
      if is_nan numeric then None else Some numeric
  | Other => None
  end.

(** The loop over [dateFields]: the first field that holds a text
    [normalizeDate] accepts. *)
Fixpoint find_date (fields : list string) (record : gmap string CsvValue)
  : option string :=
  match fields with
  | [] => None
  | field :: rest =>
      match record !! field with
      | Some (Text dateValue) =>
          if JS.falsy_string dateValue then find_date rest record
          else
            match normalizeDate dateValue with
            | Some normalizedDate =>
                if JS.falsy_string normalizedDate then find_date rest record
                else Some normalizedDate
            | None => find_date rest record
            end
      | _ => find_date rest record
      end
  end.

(** [record[field]] is truthy. *)
Definition truthy (value : option CsvValue) : bool :=
  match value with
  | Some (Text text) => negb (JS.falsy_string text)
  | Some (Num x) => negb (JS.falsy_number x)
  | Some Other => true
  | None => false
  end.

(** The loops over [priceFields] and [volumeFields]: the first field
    that holds a number accepted by [accept]. *)
Fixpoint find_number (accept : JS.number -> bool) (fields : list string)
  (record : gmap string CsvValue) : option JS.number :=
  match fields with
  | [] => None
  | field :: rest =>
      if truthy (record !! field) then
        match parseNumericValue (default Other (record !! field)) with
        | Some numeric =>
            if negb (JS.falsy_number numeric) && accept numeric then Some numeric
            else find_number accept rest record
        | None => find_number accept rest record
        end
      else find_number accept rest record
  end.

(** [parseCSVRecord(record, sourceName, sourceUrl)].  The values of
    [metadata] are kept as text: [raw] stands for the record itself and
    [collectionTime] for the time of the call in ISO form. *)
Definition parseCSVRecord (record : gmap string CsvValue)
  (sourceName sourceUrl raw collectionTime : string) : option PriceRecord :=
  let date := find_date dateFields record in
  let price := find_number (fun x => (0 <? x)%float) priceFields record in
  let volume := find_number (fun x => (0 <=? x)%float) volumeFields record in
  match date, price with
  | Some date, Some price =>
      if JS.falsy_string date || JS.falsy_number price then None
      else
        Some {| Types.date := date;
                Types.marketCode := marketCode;
                instrumentCode := "CCA";
                price := price;
                Types.currency := currency;
                volume := volume;
                sourceUrl := sourceUrl;
                collectedBy := "MCP:" +:+ name;
                metadata := Some [("source", sourceName); ("rawRecord", raw);
                                  ("collectionTime", collectionTime)] |}
  | _, _ => None
  end.

(** *** Properties of [parseCSVRecord] *)

Lemma find_date_normalized fields record date :
  find_date fields record = Some date ->
  exists text, normalizeDate text = Some date.
Proof.
  induction fields as [|field rest IH]; cbn [find_date]; [discriminate|].
  destruct (record !! field) as [[text|x|]|]; try exact IH.
  destruct (JS.falsy_string text); [exact IH|].
  destruct (normalizeDate text) as [normalized|] eqn:E; [|exact IH].
  destruct (JS.falsy_string normalized); [exact IH|].
  intros [= <-]. exists text. exact E.
Qed.

Lemma find_number_accepted accept fields record x :
  find_number accept fields record = Some x ->
  JS.falsy_number x = false /\ accept x = true.
Proof.
  induction fields as [|field rest IH]; cbn [find_number]; [discriminate|].
  destruct (truthy (record !! field)); [|exact IH].
  destruct (parseNumericValue _) as [numeric|]; [|exact IH].
  destruct (negb (JS.falsy_number numeric) && accept numeric) eqn:E; [|exact IH].
  intros [= <-]. apply andb_prop in E. destruct E as [E1 E2].
  apply negb_true_iff in E1. auto.
Qed.

(** X7.  A record that [parseCSVRecord] returns carries the market
    code [CCA] and the currency [USD] of the adapter and the
    instrument code [CCA]; its date is a result of [normalizeDate], its
    price is above 0, and its volume is [null] or above 0: a volume of
    0 in the CSV is passed over like a missing one. *)
Theorem parseCSVRecord_sound record sourceName sourceUrl raw collectionTime result :
  parseCSVRecord record sourceName sourceUrl raw collectionTime = Some result ->
  Types.marketCode result = "CCA"
  /\ Types.currency result = "USD"
  /\ instrumentCode result = "CCA"
  /\ (exists text, normalizeDate text = Some (Types.date result))
  /\ (0 <? price result)%float = true
  /\ match volume result with
     | Some v => (0 <? v)%float = true
     | None => True
     end
  /\ Types.sourceUrl result = sourceUrl
  /\ collectedBy result = "MCP:CARB CSV".
Proof.
  unfold parseCSVRecord.
  destruct (find_date dateFields record) as [date|] eqn:Hdate; [|discriminate].
  destruct (find_number (fun x => (0 <? x)%float) priceFields record)
    as [price|] eqn:Hprice; [|discriminate].
  destruct (find_number (fun x => (0 <=? x)%float) volumeFields record)
    as [v|] eqn:Hvolume;
    (destruct (JS.falsy_string date || JS.falsy_number price); [discriminate|]);
    intros [= <-];
    cbn [Types.marketCode Types.currency instrumentCode Types.date Types.price
         Types.volume Types.sourceUrl collectedBy];
    (split; [reflexivity|]); (split; [reflexivity|]); (split; [reflexivity|]);
    (split; [exact (find_date_normalized _ _ _ Hdate)|]);
    (split; [exact (proj2 (find_number_accepted (fun x => (0 <? x)%float)
                             _ _ _ Hprice))|]);
    (split; [|split; reflexivity]); [|exact I].
  destruct (find_number_accepted (fun x => (0 <=? x)%float) _ _ _ Hvolume)
    as [Htruthy Hnonneg].
  apply JS.positive_of_truthy; assumption.
Qed.

End Parsing.

Section ParsedRecords.
Context `{Engine} `{Runtime}.





End ParsedRecords.

(** *** A worked record *)

(** A record of an auction with a date in the American form, a price
    in dollars and a volume of 0. *)
Definition auction_record : gmap string CsvValue :=
  <["auction_date" := Text "1/10/2024"]>
    (<["clearing_price" := Text "$30.50"]>
       (<["allowances_sold" := Text "0"]> ∅)).

Definition auction_result : PriceRecord := {|
  Types.date := "2024-01-10"; Types.marketCode := "CCA"; instrumentCode := "CCA";
  price := 30.5%float; Types.currency := "USD"; volume := None;
  sourceUrl := "https://ww2.arb.ca.gov/"; collectedBy := "MCP:CARB CSV";
  metadata := Some [("source", "CARB Auction Results"); ("rawRecord", "");
                    ("collectionTime", "2024-01-11T00:00:00.000Z")]
|}.

Lemma parseCSVRecord_auction_record :
  @parseCSVRecord Sample.runtime auction_record "CARB Auction Results"
    "https://ww2.arb.ca.gov/" "" "2024-01-11T00:00:00.000Z"
  = Some auction_result.
Proof. vm_compute. reflexivity. Qed.

Lemma parseCSVRecord_sound_witness :
  @parseCSVRecord Sample.runtime auction_record "CARB Auction Results"
    "https://ww2.arb.ca.gov/" "" "2024-01-11T00:00:00.000Z"
  = Some auction_result
  /\ (exists text, normalizeDate text = Some (Types.date auction_result))
  /\ (0 <? price auction_result)%float = true
  /\ volume auction_result = None.
Proof.
  split; [exact parseCSVRecord_auction_record|].
  destruct (@parseCSVRecord_sound Sample.runtime _ _ _ _ _ _
              parseCSVRecord_auction_record)
    as (_ & _ & _ & Hdate & Hprice & _).
  split; [exact Hdate|]. split; [exact Hprice|]. reflexivity.
Defined.


End CarbCSVAdapter.

(** ** adapters/cea-cneeex: [CEAAdapter] *)
Module CEAAdapter.

Definition name : string := "CEA CNEEEX".
Definition marketCode : string := "CEA".
Definition currency : string := "CNY".

(** [s.replace(/pattern/g, replacement)] for a literal pattern.  After
    a match the characters of the pattern are skipped. *)
Fixpoint replace_from (skip : nat) (pattern replacement s : string) : string :=
  match s with
  | EmptyString => EmptyString
  | String c rest =>
      match skip with
      | S k => replace_from k pattern replacement rest
      | O =>
          if JS.startsWith pattern s then
            replacement
              +:+ replace_from (Nat.pred (String.length pattern))
                    pattern replacement rest
          else String c (replace_from O pattern replacement rest)
      end
  end.

Definition replace_all (pattern replacement s : string) : string :=
  replace_from O pattern replacement s.

(** [/^\d{4}-\d{2}-\d{2}$/.test(s)]. *)
Definition is_standard_date (s : string) : bool :=
  match list_ascii_of_string s with
  | [y1; y2; y3; y4; h1; m1; m2; h2; d1; d2] =>
      forallb JS.is_digit [y1; y2; y3; y4; m1; m2; d1; d2]
      && Ascii.eqb h1 "-" && Ascii.eqb h2 "-"
  | _ => false
  end.

Section WithEngine.
Context `{Engine}.

(** [Date_toISODate s] is [new Date(s).toISOString().split('T')[0]],
    and [None] when [new Date(s)] is an invalid date. *)
Definition parseDateString (dateStr : string) : option string :=
  let normalized :=
    replace_all "日" ""
      (replace_all "月" "-" (replace_all "年" "-" dateStr)) in
  if is_standard_date normalized then Some normalized
  else Date_toISODate dateStr.

Definition record_errors (record : PriceRecord) : list string :=
  (if negb (String.eqb (Types.marketCode record) marketCode)
   then ["Invalid market code: " +:+ Types.marketCode record] else [])
  ++ (if negb (String.eqb (Types.currency record) currency)
      then ["Invalid currency: " +:+ Types.currency record] else [])
  ++ (match Date_getTime (date record) with
      | None => ["Invalid date: " +:+ date record]
      | Some _ => []
      end).

Definition record_warnings (record : PriceRecord) : list string :=
  if (price record <? 20)%float || (150 <? price record)%float
  then ["Price " +:+ Number_toString (price record)
          +:+ " outside typical CEA range (20-150 CNY)"]
  else [].

Definition quality_options : QualityCheckOptions := {|
  expectedPriceRange := {| min := 20%float; max := 150%float |};
  maxPriceChangePercent := 15%float;
  requiredFields := ["date"; "price"; "marketCode"; "instrumentCode"]
|}.

Definition validateData (records : list PriceRecord) : ValidationResult :=
  let qualityScore := QualityChecker.calculateScore records in
  let errors := flat_map record_errors records in
  let warnings := flat_map record_warnings records in
  let qualityCheck := QualityChecker.checkQuality records quality_options in
  {| isValid := (length errors =? 0)%nat;
     errors := errors;
     warnings := warnings ++ qc_warnings qualityCheck;
     qualityScore := qualityScore;
     recordCount := length records |}.

(** *** The date parser does not check the ranges *)

(** C8, at the input on which the code fails it.  A string already in
    the form [dddd-dd-dd] is returned by [parseDateString] as it is,
    whatever its month and day, and the engine is not consulted; the
    CSV adapter's [normalizeDate] rejects the same input. *)
Lemma parseDateString_standard_unchecked :
  parseDateString "2024-13-32" = Some "2024-13-32"
  /\ parseDateString "2024年13月32日" = Some "2024-13-32"
  /\ parseDateString "2024年01月15日" = Some "2024-01-15"
  /\ CarbCSVAdapter.normalizeDate "2024-13-32" = None.
Proof. repeat split; vm_compute; reflexivity. Qed.

(** The example of the source's own comment has a one-digit month: the
    rewritten string is not in the standard form, and what is parsed
    instead is the original string, characters 年月日 included. *)
Lemma parseDateString_comment_example :
  parseDateString "2024年1月15日" = Date_toISODate "2024年1月15日".
Proof. reflexivity. Qed.

End WithEngine.
(** *** The rows of the table *)

(** A row as [page.evaluate] returns it: the trimmed texts of the
    first three cells. *)
Record TableRow := {
  cell_date : string;
  cell_price : string;
  cell_volume : string
}.

Definition baseUrl : string := "http://www.cneeex.com/c/2020-04-08/452044.shtml".

(** [s.replace(pattern, replacement)] for a literal pattern: the first
    occurrence is replaced. *)
Fixpoint replace_first (pattern replacement s : string) : string :=
  if JS.startsWith pattern s then
    replacement +:+ String.substring (String.length pattern) (String.length s - String.length pattern) s
  else
    match s with
    | EmptyString => EmptyString
    | String c rest => String c (replace_first pattern replacement rest)
    end.

(** How the loop over the rows ends: it runs through, or
    [toISOString] throws a [RangeError] on an invalid date and the
    [catch] of [collectData] takes over, the rows after that one not
    being looked at. *)
Inductive LoopEnd := Completed | Aborted.

Section Collection.
Context `{Engine} `{Runtime}.

(** [parsePrice(priceStr)]. *)
Definition parsePrice (priceStr : string) : option JS.number :=
  let cleaned :=
    JS.remove_class ("￥" :: "¥" :: "," :: JS.white_space) priceStr in
  let price := parseFloat cleaned in
  if is_nan price || (price <=? 0)%float then None else Some price.

(** [parseVolume(volumeStr)]. *)
Definition parseVolume (volumeStr : string) : option JS.number :=
  if JS.falsy_string volumeStr || String.eqb volumeStr "-" then None else
  let multiplier := if JS.includes "万" volumeStr then 10000%float else 1%float in
  let volumeStr :=
    if JS.includes "万" volumeStr then replace_first "万" "" volumeStr
    else volumeStr in
  let cleaned := JS.remove_class ("," :: "吨" :: JS.white_space) volumeStr in
  let volume := parseFloat cleaned in
  if is_nan volume then None else Some (volume * multiplier)%float.

(** [isTargetDate(recordDate, targetDate)], [target] being the date
    part of [targetDate.toISOString()] for a [targetDate] that is a
    valid date.  [None] stands for the
    [RangeError] of [toISOString] on an invalid date.  The difference
    of two time values in days is at most 3 exactly when their
    difference in milliseconds is at most three days' worth. *)
Definition isTargetDate (recordDate target : string) : option bool :=
  match Date_toISODate recordDate with
  | None => None
  | Some record =>
      Some match Date_getTime target, Date_getTime record with
           | Some targetTime, Some recordTime =>
               Z.abs (targetTime - recordTime) <=? 3 * (1000 * 60 * 60 * 24)
           | _, _ => false
           end
  end.

(** The record made of a row.  The values of [metadata] are kept as
    text: [raw row] stands for the row itself and [collectionTime] for
    the time of the call in ISO form. *)
Definition record_of (raw : TableRow -> string) (collectionTime : string)
  (row : TableRow) (dateStr : string) (price : JS.number)
  (volume : option JS.number) : PriceRecord :=
  {| date := dateStr;
     Types.marketCode := marketCode;
     instrumentCode := "CEA";
     price := price;
     Types.currency := currency;
     volume := volume;
     sourceUrl := baseUrl;
     collectedBy := "MCP:" +:+ name;
     metadata := Some [("source", name); ("rawData", raw row);
                       ("collectionTime", collectionTime)] |}.

(** The loop of [collectData] over the rows of the table, on the
    array [data]. *)
Fixpoint collect_rows (raw : TableRow -> string) (collectionTime target : string)
  (rows : list TableRow) (data : list PriceRecord) : LoopEnd * list PriceRecord :=
  match rows with
  | [] => (Completed, data)
  | row :: rest =>
      match parseDateString (cell_date row) with
      | None => collect_rows raw collectionTime target rest data
      | Some dateStr =>
          if JS.falsy_string dateStr
          then collect_rows raw collectionTime target rest data
          else
            match parsePrice (cell_price row) with
            | None => collect_rows raw collectionTime target rest data
            | Some price =>
                if (price <=? 0)%float
                then collect_rows raw collectionTime target rest data
                else
                  let volume := parseVolume (cell_volume row) in
                  match isTargetDate dateStr target with
                  | None => (Aborted, data)
                  | Some true =>
                      collect_rows raw collectionTime target rest
                        (data ++ [record_of raw collectionTime row dateStr price volume])
                  | Some false => collect_rows raw collectionTime target rest data
                  end
            end
      end
  end.

(** *** Properties of the collection *)

Lemma parsePrice_positive priceStr price :
  parsePrice priceStr = Some price -> (0 <? price)%float = true.
Proof.
  unfold parsePrice. cbv zeta.
  destruct (is_nan (parseFloat _)) eqn:Hnan; [discriminate|].
  destruct (parseFloat _ <=? 0)%float eqn:Hle; [discriminate|].
  intros [= <-]. apply JS.positive_of_not_nan; assumption.
Qed.




Lemma collect_rows_app raw collectionTime target before after data :
  collect_rows raw collectionTime target (before ++ after) data
  = match collect_rows raw collectionTime target before data with
    | (Completed, data') => collect_rows raw collectionTime target after data'
    | (Aborted, data') => (Aborted, data')
    end.
Proof.
  revert data. induction before as [|row rest IH]; intros data;
    cbn [app collect_rows]; [reflexivity|].
  destruct (parseDateString (cell_date row)) as [dateStr|]; [|apply IH].
  destruct (JS.falsy_string dateStr); [apply IH|].
  destruct (parsePrice (cell_price row)) as [price|]; [|apply IH].
  destruct (price <=? 0)%float; [apply IH|]. cbv zeta.
  destruct (isTargetDate dateStr target) as [[|]|]; [apply IH | apply IH | reflexivity].
Qed.

(** X10.  A row whose date [parseDateString] returns but [new Date]
    does not read, such as [2024-13-32], ends the loop when its price
    is a price: the records of the rows before it are kept, and the
    rows after it are not collected, whatever they hold. *)
Theorem collect_rows_stops_at_unreadable_date raw collectionTime target
  before row after dateStr price :
  fst (collect_rows raw collectionTime target before []) = Completed ->
  parseDateString (cell_date row) = Some dateStr ->
  dateStr <> "" ->
  Date_toISODate dateStr = None ->
  parsePrice (cell_price row) = Some price ->
  collect_rows raw collectionTime target (before ++ row :: after) []
  = (Aborted, snd (collect_rows raw collectionTime target before [])).
Proof.
  intros Hbefore Hdate Hne Hiso Hprice.
  rewrite collect_rows_app.
  destruct (collect_rows raw collectionTime target before []) as [ending data].
  cbn [fst snd] in *. subst ending. cbn [collect_rows]. rewrite Hdate.
  unfold JS.falsy_string. rewrite (bool_decide_eq_false_2 _ Hne), Hprice.
  pose proof (parsePrice_positive _ _ Hprice) as Hpositive.
  apply JS.positive_iff in Hpositive. destruct Hpositive as [_ ->].
  cbv zeta. unfold isTargetDate. rewrite Hiso. reflexivity.
Qed.

End Collection.

(** *** A worked table *)

(** A table of three rows, the second of which has the month 13. *)
Definition first_row : TableRow :=
  {| cell_date := "2024-01-10"; cell_price := "￥55.50"; cell_volume := "1.2万吨" |}.
Definition odd_row : TableRow :=
  {| cell_date := "2024-13-32"; cell_price := "56.00"; cell_volume := "-" |}.
Definition last_row : TableRow :=
  {| cell_date := "2024-01-11"; cell_price := "56.20"; cell_volume := "800" |}.

Lemma collect_rows_stops_at_unreadable_date_witness :
  fst (@collect_rows Sample.engine Sample.runtime cell_date
         "2024-01-12T00:00:00.000Z" "2024-01-11" [first_row] []) = Completed
  /\ @parseDateString Sample.engine (cell_date odd_row) = Some "2024-13-32"
  /\ @Date_toISODate Sample.engine "2024-13-32" = None
  /\ @parsePrice Sample.runtime (cell_price odd_row) = Some 56%float
  /\ length (snd (@collect_rows Sample.engine Sample.runtime cell_date
                    "2024-01-12T00:00:00.000Z" "2024-01-11" [first_row] [])) = 1%nat
  /\ @collect_rows Sample.engine Sample.runtime cell_date
       "2024-01-12T00:00:00.000Z" "2024-01-11" [first_row; odd_row; last_row] []
     = (Aborted,
        snd (@collect_rows Sample.engine Sample.runtime cell_date
               "2024-01-12T00:00:00.000Z" "2024-01-11" [first_row] [])).
Proof.
  assert (Hbefore :
    fst (@collect_rows Sample.engine Sample.runtime cell_date
           "2024-01-12T00:00:00.000Z" "2024-01-11" [first_row] []) = Completed)
    by (vm_compute; reflexivity).
  assert (Hdate : @parseDateString Sample.engine (cell_date odd_row) = Some "2024-13-32")
    by (vm_compute; reflexivity).
  assert (Hiso : @Date_toISODate Sample.engine "2024-13-32" = None)
    by (vm_compute; reflexivity).
  assert (Hprice : @parsePrice Sample.runtime (cell_price odd_row) = Some 56%float)
    by (vm_compute; reflexivity).
  split; [exact Hbefore|]. split; [exact Hdate|]. split; [exact Hiso|].
  split; [exact Hprice|]. split; [vm_compute; reflexivity|].
  exact (@collect_rows_stops_at_unreadable_date Sample.engine Sample.runtime
           cell_date "2024-01-12T00:00:00.000Z" "2024-01-11"
           [first_row] odd_row [last_row] "2024-13-32" 56%float
           Hbefore Hdate ltac:(discriminate) Hiso Hprice).
Defined.


End CEAAdapter.

(** ** adapters/ccer-official: [CCEROfficialAdapter] *)
Module CCEROfficialAdapter.

Definition name : string := "CCER Official".
Definition marketCode : string := "CCER".
Definition currency : string := "CNY".

Section WithEngine.
Context `{Engine}.

Definition record_errors (record : PriceRecord) : list string :=
  (if negb (String.eqb (Types.marketCode record) marketCode)
   then ["Invalid market code: " +:+ Types.marketCode record] else [])
  ++ (if negb (String.eqb (Types.currency record) currency)
      then ["Invalid currency: " +:+ Types.currency record] else [])
  ++ (match Date_getTime (date record) with
      | None => ["Invalid date: " +:+ date record]
      | Some _ => []
      end).

(** The warnings of one record, [now] being [Date.now()] when the
    record is looked at.  The age in days is the quotient of a whole
    number of milliseconds by the 86400000 of a day, and is above 30
    exactly when the milliseconds are above 30 days' worth; the age of
    a date that does not parse is [NaN], which is not above 30. *)
Definition record_warnings (now : Z) (record : PriceRecord) : list string :=
  (if (price record <? 1)%float || (200 <? price record)%float
   then ["Price " +:+ Number_toString (price record)
           +:+ " outside typical CCER range (1-200 CNY)"]
   else [])
  ++ (match Date_getTime (date record) with
      | Some time =>
          if 30 * (1000 * 60 * 60 * 24) <? now - time
          then ["Data older than 30 days: " +:+ date record] else []
      | None => []
      end).

Definition quality_options : QualityCheckOptions := {|
  expectedPriceRange := {| min := 1%float; max := 200%float |};
  maxPriceChangePercent := 25%float;
  requiredFields := ["date"; "price"; "marketCode"; "instrumentCode"]
|}.

(** [clock i] is [Date.now()] at the record of index [i]. *)
Definition validateData (clock : nat -> Z) (records : list PriceRecord)
  : ValidationResult :=
  let qualityScore := QualityChecker.calculateScore records in
  let errors := flat_map record_errors records in
  let warnings :=
    concat (imap (fun i record => record_warnings (clock i) record) records) in
  let qualityCheck := QualityChecker.checkQuality records quality_options in
  {| isValid := (length errors =? 0)%nat;
     errors := errors;
     warnings := warnings ++ qc_warnings qualityCheck;
     qualityScore := qualityScore;
     recordCount := length records |}.

End WithEngine.
End CCEROfficialAdapter.

(** ** adapters/cdr-fyi: [CDRfyiAdapter] *)
Module CDRfyiAdapter.

Definition name : string := "CDR.fyi".
Definition marketCode : string := "CDR".
Definition currency : string := "USD".

Section WithEngine.
Context `{Engine}.

Definition record_errors (record : PriceRecord) : list string :=
  (if negb (String.eqb (Types.marketCode record) marketCode)
   then ["Invalid market code: " +:+ Types.marketCode record] else [])
  ++ (if negb (String.eqb (Types.currency record) currency)
      then ["Invalid currency: " +:+ Types.currency record] else [])
  ++ (match Date_getTime (date record) with
      | None => ["Invalid date: " +:+ date record]
      | Some _ => []
      end).

Definition record_warnings (record : PriceRecord) : list string :=
  if (price record <? 20)%float || (1000 <? price record)%float
  then ["Price $" +:+ Number_toString (price record)
          +:+ " outside typical CDR range ($20-1000)"]
  else [].

Definition quality_options : QualityCheckOptions := {|
  expectedPriceRange := {| min := 20%float; max := 1000%float |};
  maxPriceChangePercent := 30%float;
  requiredFields := ["date"; "price"; "marketCode"; "instrumentCode"]
|}.

Definition validateData (records : list PriceRecord) : ValidationResult :=
  let qualityScore := QualityChecker.calculateScore records in
  let errors := flat_map record_errors records in
  let warnings := flat_map record_warnings records in
  let qualityCheck := QualityChecker.checkQuality records quality_options in
  {| isValid := (length errors =? 0)%nat;
     errors := errors;
     warnings := warnings ++ qc_warnings qualityCheck;
     qualityScore := qualityScore;
     recordCount := length records |}.

End WithEngine.
End CDRfyiAdapter.

(** ** What the four adapters accept *)
Module Adapters.
Section WithEngine.
Context `{Engine}.

(** A record as an adapter for [market] trading in [money] wants it:
    with that market code, that currency, and a date [new Date] can
    read. *)
Definition conforms (market money : string) (record : PriceRecord) : Prop :=
  Types.marketCode record = market
  /\ Types.currency record = money
  /\ Date_getTime (date record) <> None.

Lemma no_errors_iff (market money : string) (record : PriceRecord) :
  (if negb (String.eqb (Types.marketCode record) market)
   then ["Invalid market code: " +:+ Types.marketCode record] else [])
  ++ (if negb (String.eqb (Types.currency record) money)
      then ["Invalid currency: " +:+ Types.currency record] else [])
  ++ (match Date_getTime (date record) with
      | None => ["Invalid date: " +:+ date record]
      | Some _ => []
      end) = []
  <-> conforms market money record.
Proof.
  unfold conforms.
  destruct (String.eqb_spec (Types.marketCode record) market) as [E1|E1];
    destruct (String.eqb_spec (Types.currency record) money) as [E2|E2];
    destruct (Date_getTime (date record)) as [time|]; cbn [negb app];
    (split; [intros E; try discriminate; repeat split; auto; discriminate
            | intros (? & ? & ?); try congruence; reflexivity]).
Qed.

Lemma flat_map_nil_iff {A B} (f : A -> list B) (l : list A) :
  flat_map f l = [] <-> forall a, In a l -> f a = [].
Proof.
  induction l as [|a l IH]; cbn [flat_map].
  - split; [intros _ ? [] | reflexivity].
  - split.
    + intros E. apply app_eq_nil in E. destruct E as [Ea El].
      intros b [<-|Hin]; [exact Ea | apply IH; assumption].
    + intros Hall. rewrite (Hall a) by (left; reflexivity).
      apply IH. intros b Hin. apply Hall. right. exact Hin.
Qed.

Lemma length_zero_iff {A} (l : list A) : (length l =? 0)%nat = true <-> l = [].
Proof. destruct l; cbn; split; congruence. Qed.

(** X11.  [validateData] of each of the four adapters declares a
    batch valid exactly when every record carries the adapter's market
    code and currency and a date that [new Date] can read.  Prices,
    volumes, the quality score and the warnings play no part in it,
    and the empty batch is valid. *)
Theorem validateData_valid_iff (records : list PriceRecord) :
  (isValid (CEAAdapter.validateData records) = true
   <-> forall record, In record records -> conforms "CEA" "CNY" record)
  /\ (forall clock,
        isValid (CCEROfficialAdapter.validateData clock records) = true
        <-> forall record, In record records -> conforms "CCER" "CNY" record)
  /\ (isValid (CarbCSVAdapter.validateData records) = true
      <-> forall record, In record records -> conforms "CCA" "USD" record)
  /\ (isValid (CDRfyiAdapter.validateData records) = true
      <-> forall record, In record records -> conforms "CDR" "USD" record).
Proof.
  split; [|split; [|split]]; try intros clock;
    cbn [isValid CEAAdapter.validateData CCEROfficialAdapter.validateData
         CarbCSVAdapter.validateData CDRfyiAdapter.validateData];
    rewrite length_zero_iff, flat_map_nil_iff;
    (split; intros Hall record Hin; apply no_errors_iff, Hall, Hin).
Qed.

End WithEngine.
End Adapters.

(** ** utils/fetch: [fetchWithRetry] *)
Module FetchUtils.

(** What [fetch] throws: an [Error] with its message, or a value that
    is not an [Error]. *)
Inductive Thrown :=
| ErrorObject (message : string)
| OtherValue.

Record Response := {
  ok : bool;
  status : Z;
  statusText : string;
  text : string
}.

(** The [timeout] and [retries] of the options, when they are given. *)
Record FetchParams := {
  timeout : option Z;
  retries : option Z
}.

(** What [fetchWithRetry] does to the outside, in order: it sets the
    timer that aborts, calls [fetch], waits, and clears the timer. *)
Inductive Event :=
| SetTimeout (delay : Z)
| Fetch (attempt : nat)
| Wait (delay : Z)
| ClearTimeout.

(** [error instanceof Error ? error : new Error('Unknown fetch error')],
    as its message. *)
Definition message_of (error : Thrown) : string :=
  match error with
  | ErrorObject message => message
  | OtherValue => "Unknown fetch error"
  end.

(** The loop [for (attempt = 0; attempt <= retries; attempt++)], with
    [remaining] turns to go; [outcome attempt] is what the call of
    [fetch] of that turn comes to.  The code after the loop is reached
    when the turns are used up and by the [break] of the last
    attempt. *)
Fixpoint attempt_loop (outcome : nat -> Thrown + Response) (retries : Z)
  (remaining attempt : nat) (lastError : option string) (log : list Event)
  : (string + Response) * list Event :=
  match remaining with
  | O =>
      (inl (default "All fetch attempts failed" lastError), log ++ [ClearTimeout])
  | S remaining =>
      match outcome attempt with
      | inr response => (inr response, log ++ [Fetch attempt; ClearTimeout])
      | inl error =>
          let lastError := Some (message_of error) in
          if Z.of_nat attempt =? retries then
            (inl (default "All fetch attempts failed" lastError),
             log ++ [Fetch attempt; ClearTimeout])
          else
            let delay := 2 ^ Z.of_nat attempt * 1000 in
            attempt_loop outcome retries remaining (S attempt) lastError
              (log ++ [Fetch attempt; Wait delay])
      end
  end.

(** [fetchWithRetry(url, options)]: what it throws or returns, and
    what it did.  [retries] is a whole number. *)
Definition fetchWithRetry (outcome : nat -> Thrown + Response) (options : FetchParams)
  : (string + Response) * list Event :=
  let timeout := default 10000 (timeout options) in
  let retries := default 3 (retries options) in
  attempt_loop outcome retries (Z.to_nat (retries + 1)) 0 None [SetTimeout timeout].

(** [fetchCsv(url, options)]. *)
Definition fetchCsv (outcome : nat -> Thrown + Response) (options : FetchParams)
  : (string + string) * list Event :=
  match fetchWithRetry outcome options with
  | (inr response, log) =>
      if negb (ok response)
      then (inl ("HTTP " +:+ JS.Z_toString (status response) +:+ ": "
                 +:+ statusText response), log)
      else (inr (text response), log)
  | (inl message, log) => (inl message, log)
  end.

(** *** Properties of [fetchWithRetry] *)

(** The calls and the waits of the attempts from [first] on that
    fail, [count] of them. *)
Definition failed_attempts (first count : nat) : list Event :=
  flat_map (fun i => [Fetch i; Wait (2 ^ Z.of_nat i * 1000)]) (seq first count).

Lemma failed_attempts_cons first count :
  failed_attempts first (S count)
  = [Fetch first; Wait (2 ^ Z.of_nat first * 1000)] ++ failed_attempts (S first) count.
Proof. reflexivity. Qed.

Lemma attempt_loop_success outcome retries remaining attempt lastError log k response :
  (forall i, (attempt <= i < attempt + k)%nat -> exists e, outcome i = inl e) ->
  outcome (attempt + k)%nat = inr response ->
  (k < remaining)%nat ->
  Z.of_nat (attempt + k) <= retries ->
  attempt_loop outcome retries remaining attempt lastError log
  = (inr response,
     log ++ failed_attempts attempt k ++ [Fetch (attempt + k)%nat; ClearTimeout]).
Proof.
  revert remaining attempt lastError log.
  induction k as [|k IH]; intros remaining attempt lastError log Hfail Hok Hrem Hle.
  - destruct remaining as [|remaining]; [lia|]. cbn [attempt_loop].
    rewrite Nat.add_0_r in Hok. rewrite Hok, Nat.add_0_r. reflexivity.
  - destruct remaining as [|remaining]; [lia|]. cbn [attempt_loop].
    destruct (Hfail attempt ltac:(lia)) as [e He]. rewrite He. cbv zeta.
    destruct (Z.eqb_spec (Z.of_nat attempt) retries) as [E|_]; [lia|].
    rewrite (IH remaining (S attempt) _ _); try lia.
    + rewrite failed_attempts_cons, <- !app_assoc.
      replace (S attempt + k)%nat with (attempt + S k)%nat by lia. reflexivity.
    + intros i Hi. apply Hfail. lia.
    + replace (S attempt + k)%nat with (attempt + S k)%nat by lia. exact Hok.
Qed.



(** X13.  A response with a status that is not [ok] counts as an
    answer: when the first call returns one, [fetchCsv] throws
    [HTTP status: statusText] after that one call, without trying
    again, however many retries the options allow. *)
Theorem fetchCsv_http_error_not_retried outcome options response :
  0 <= default 3 (retries options) ->
  outcome 0%nat = inr response ->
  ok response = false ->
  fetchCsv outcome options
  = (inl ("HTTP " +:+ JS.Z_toString (status response) +:+ ": "
          +:+ statusText response),
     [SetTimeout (default 10000 (timeout options)); Fetch 0; ClearTimeout]).
Proof.
  intros Hretries Hfirst Hok. unfold fetchCsv, fetchWithRetry. cbv zeta.
  rewrite (attempt_loop_success outcome _ _ 0 None _ 0 response);
    cbn [Nat.add]; try assumption; try lia.
  rewrite Hok. reflexivity.
Qed.

(** *** Worked requests *)


Definition unavailable : Response :=
  {| ok := false; status := 503; statusText := "Service Unavailable"; text := "" |}.



Lemma fetchCsv_http_error_not_retried_witness :
  fetchCsv (fun _ => inr unavailable) {| timeout := None; retries := None |}
  = (inl "HTTP 503: Service Unavailable",
     [SetTimeout 10000; Fetch 0; ClearTimeout]).
Proof.
  exact (fetchCsv_http_error_not_retried (fun _ => inr unavailable)
           {| timeout := None; retries := None |} unavailable
           ltac:(vm_compute; discriminate) eq_refl eq_refl).
Defined.

End FetchUtils.

(** ** scheduler/task-scheduler: [TaskScheduler] *)
Module TaskScheduler.

(** The interface [MCPAdapter] of [types/adapter], after its
    declaration at the end of [apps/mcp/src/index.ts], with the
    members the scheduler uses: [name], [marketCode] and
    [validateData], which is a function of the records.  [currency] is
    left out, the scheduler does not read it; [collectData] and
    [getHealthStatus] talk to the network, and what [collectData]
    returns is an input of the model ([Run] below). *)
Record MCPAdapter := {
  adapter_name : string;
  adapter_marketCode : string;
  adapter_validateData : list PriceRecord -> ValidationResult
}.

(** One item of the [evidence] array of a collection. *)
Record Evidence := {
  source : string;
  url : string;
  evidence_timestamp : string;
  evidence_success : bool;
  evidence_error : option string
}.

Record ScheduledTask := {
  id : string;
  adapter : MCPAdapter;
  schedule : string;
  lastRun : option Z;
  nextRun : option Z;
  enabled : bool;
  retryCount : Z;
  maxRetries : Z
}.

Record TaskExecutionResult := {
  taskId : string;
  success : bool;
  result_recordCount : nat;
  result_errors : list string;
  result_warnings : list string;
  executionTime : Z;
  timestamp : Z
}.

(** What the scheduler does to the outside: the CSV bodies it posts to
    the import endpoint, the timers it sets (the task to run again and
    the delay in milliseconds), and the alerts it logs. *)
Record Effects := {
  posted : list string;
  timers : list (string * Z);
  alerts : list string
}.

(** The fields of the class, and the effects so far. *)
Record Scheduler := {
  tasks : gmap string ScheduledTask;
  executionHistory : list TaskExecutionResult;
  isRunning : bool;
  effects : Effects
}.

(** What [fetch] of the import endpoint comes to. *)
Inductive ImportOutcome :=
| NetworkError (message : string)
| NotOk (status : Z) (error : option string)
| MalformedBody (message : string)
| Imported (imported : option Z).

(** What one execution reads from outside: the clock, the outcome of
    [collectData] (the message of what it throws, or the records and
    the evidence) and the import endpoint's answer. *)
Record Run := {
  startTime : Z;
  now : Z;
  collected : string + (list PriceRecord * list Evidence);
  importOutcome : ImportOutcome;
  finishTime : Z;
  endTime : Z
}.

(** The character [0x22] and the line feed. *)
Definition quote : string := String (ascii_of_nat 34) "".
Definition line_feed : string := String (ascii_of_nat 10) "".

(** [a || b] on strings. *)
Definition or_else (a b : string) : string :=
  if JS.falsy_string a then b else a.

(** [s.toLowerCase()] on the letters A to Z. *)
Definition toLowerCase (s : string) : string :=
  string_of_list_ascii
    (map (fun c =>
            let n := N_of_ascii c in
            if (65 <=? n)%N && (n <=? 90)%N then ascii_of_N (n + 32) else c)
       (list_ascii_of_string s)).

Definition getScheduleForMarket (marketCode : string) : string :=
  if String.eqb marketCode "CEA" then "30 9 * * 1-5"
  else if String.eqb marketCode "CCER" then "45 9 * * 1-5"
  else if String.eqb marketCode "CCA" then "0 23 * * 1-5"
  else if String.eqb marketCode "CDR" then "0 1 * * *"
  else "0 2 * * *".

(** The loop of [initializeAdapters] over the adapters it is given. *)
Definition initializeAdapters (adapters : list MCPAdapter)
  : gmap string ScheduledTask :=
  fold_left (fun tasks a =>
    let schedule := getScheduleForMarket (adapter_marketCode a) in
    let task :=
      {| id := toLowerCase (adapter_marketCode a) +:+ "-daily";
         adapter := a; schedule := schedule;
         lastRun := None; nextRun := None;
         enabled := true; retryCount := 0; maxRetries := 3 |} in
    <[id task := task]> tasks) adapters ∅.

(** A scheduler as the constructor leaves it. *)
Definition new_scheduler (adapters : list MCPAdapter) : Scheduler :=
  {| tasks := initializeAdapters adapters;
     executionHistory := [];
     isRunning := false;
     effects := {| posted := []; timers := []; alerts := [] |} |}.

Definition csv_headers : list string :=
  ["market_code"; "instrument_code"; "date"; "price"; "price_type";
   "currency"; "unit"; "volume"; "source_url"; "notes"].

Section WithEngine.
Context `{Engine}.

Definition csv_row (record : PriceRecord) : list string :=
  [Types.marketCode record;
   instrumentCode record;
   date record;
   Number_toString (price record);
   "close";
   Types.currency record;
   "tCO2e";
   or_else (match volume record with
            | Some v => Number_toString v
            | None => ""
            end) "";
   or_else (sourceUrl record) "";
   "MCP采集: " +:+ collectedBy record].

Definition csv_line (row : list string) : string :=
  JS.join "," (map (fun field => quote +:+ field +:+ quote) row).

Definition convertToCSVFormat (records : list PriceRecord) : string :=
  if (length records =? 0)%nat then ""
  else
    let headers := csv_headers in
    let rows := map csv_row records in
    JS.join line_feed (map csv_line (headers :: rows)).

(** *** The body of [executeTask] between [try] and [catch] *)

(** The objects the body works on: the result under construction, the
    task (the object held by the map) and the effects. *)
Record Context := {
  the_result : TaskExecutionResult;
  the_task : ScheduledTask;
  the_world : Effects
}.

(** A step of the body: it throws a message or returns a value, and
    leaves the objects as it changed them either way. *)
Definition Step (A : Type) : Type := Context -> (string + A) * Context.

Definition ret {A} (a : A) : Step A := fun c => (inr a, c).

Definition bind {A B} (m : Step A) (f : A -> Step B) : Step B :=
  fun c =>
    match m c with
    | (inr a, c') => f a c'
    | (inl e, c') => (inl e, c')
    end.

Definition throw {A} (message : string) : Step A := fun c => (inl message, c).

Definition update (f : Context -> Context) : Step unit := fun c => (inr tt, f c).

Definition when (b : bool) (m : Step unit) : Step unit :=
  if b then m else ret tt.

Notation "x <- m ;; k" := (bind m (fun x => k))
  (at level 100, m at next level, right associativity).
Notation "m ;;; k" := (bind m (fun _ => k))
  (at level 100, right associativity).

(** Assignments to the fields of [result] and of [task]. *)
Definition push_errors (messages : list string) : Step unit :=
  update (fun c =>
    let r := the_result c in
    {| the_result := {| taskId := taskId r; success := success r;
                    result_recordCount := result_recordCount r;
                    result_errors := result_errors r ++ messages;
                    result_warnings := result_warnings r;
                    executionTime := executionTime r;
                    timestamp := timestamp r |};
       the_task := the_task c; the_world := the_world c |}).

Definition push_warnings (messages : list string) : Step unit :=
  update (fun c =>
    let r := the_result c in
    {| the_result := {| taskId := taskId r; success := success r;
                    result_recordCount := result_recordCount r;
                    result_errors := result_errors r;
                    result_warnings := result_warnings r ++ messages;
                    executionTime := executionTime r;
                    timestamp := timestamp r |};
       the_task := the_task c; the_world := the_world c |}).

Definition set_recordCount (n : nat) : Step unit :=
  update (fun c =>
    let r := the_result c in
    {| the_result := {| taskId := taskId r; success := success r;
                    result_recordCount := n;
                    result_errors := result_errors r;
                    result_warnings := result_warnings r;
                    executionTime := executionTime r;
                    timestamp := timestamp r |};
       the_task := the_task c; the_world := the_world c |}).

Definition set_success (b : bool) : Step unit :=
  update (fun c =>
    let r := the_result c in
    {| the_result := {| taskId := taskId r; success := b;
                    result_recordCount := result_recordCount r;
                    result_errors := result_errors r;
                    result_warnings := result_warnings r;
                    executionTime := executionTime r;
                    timestamp := timestamp r |};
       the_task := the_task c; the_world := the_world c |}).

Definition with_retryCount (t : ScheduledTask) (n : Z) : ScheduledTask :=
  {| id := id t; adapter := adapter t; schedule := schedule t;
     lastRun := lastRun t; nextRun := nextRun t; enabled := enabled t;
     retryCount := n; maxRetries := maxRetries t |}.

Definition with_lastRun (t : ScheduledTask) (time : Z) : ScheduledTask :=
  {| id := id t; adapter := adapter t; schedule := schedule t;
     lastRun := Some time; nextRun := nextRun t; enabled := enabled t;
     retryCount := retryCount t; maxRetries := maxRetries t |}.

Definition set_retryCount (n : Z) : Step unit :=
  update (fun c =>
    {| the_result := the_result c; the_task := with_retryCount (the_task c) n;
       the_world := the_world c |}).

Definition set_lastRun (time : Z) : Step unit :=
  update (fun c =>
    {| the_result := the_result c; the_task := with_lastRun (the_task c) time;
       the_world := the_world c |}).

(** [fetch] of the import endpoint with the CSV as the form's file. *)
Definition post (body : string) : Step unit :=
  update (fun c =>
    {| the_result := the_result c; the_task := the_task c;
       the_world := {| posted := posted (the_world c) ++ [body];
                       timers := timers (the_world c);
                       alerts := alerts (the_world c) |} |}).

(** [setTimeout(() => this.executeTask(taskId), delay)]. *)
Definition setTimeout (taskId : string) (delay : Z) (w : Effects) : Effects :=
  {| posted := posted w; timers := timers w ++ [(taskId, delay)];
     alerts := alerts w |}.

Definition sendAlert (taskId error : string) (w : Effects) : Effects :=
  {| posted := posted w; timers := timers w;
     alerts := alerts w
       ++ ["ALERT: Task " +:+ taskId +:+ " failed permanently: " +:+ error] |}.

Definition collectData (run : Run) : Step (list PriceRecord * list Evidence) :=
  match collected run with
  | inl message => throw message
  | inr collection => ret collection
  end.

Definition submitDataToAPI (run : Run) (records : list PriceRecord)
  (evidence : list Evidence) : Step unit :=
  let csvData := convertToCSVFormat records in
  post csvData ;;;
  match importOutcome run with
  | NetworkError message => throw message
  | NotOk status error =>
      throw ("Import API failed: " +:+ JS.Z_toString status +:+ " - "
             +:+ or_else (default "" error) "Unknown error")
  | MalformedBody message => throw message
  | Imported _ => ret tt
  end.

(** The statements of the [try] block. *)
Definition try_block (run : Run) (a : MCPAdapter) : Step unit :=
  collection <- collectData run ;;
  let '(data, evidence) := collection in
  let validation := adapter_validateData a data in
  when (negb (isValid validation))
    (push_errors (errors validation) ;;;
     push_warnings (warnings validation) ;;;
     when (0 <? length (errors validation))%nat
       (throw ("Data validation failed: "
               +:+ JS.join ", " (errors validation)))) ;;;
  when (0 <? length data)%nat
    (submitDataToAPI run data evidence ;;;
     set_recordCount (length data)) ;;;
  set_success true ;;;
  push_warnings (warnings validation) ;;;
  set_retryCount 0 ;;;
  set_lastRun (finishTime run).

(** The statements of the [catch] block. *)
Definition catch_block (taskId errorMessage : string) (c : Context) : Context :=
  let r := the_result c in
  let r := {| taskId := TaskScheduler.taskId r; success := success r;
              result_recordCount := result_recordCount r;
              result_errors := result_errors r ++ [errorMessage];
              result_warnings := result_warnings r;
              executionTime := executionTime r;
              timestamp := timestamp r |} in
  let t := with_retryCount (the_task c) (retryCount (the_task c) + 1) in
  let w :=
    if retryCount t <? maxRetries t
    then setTimeout taskId (retryCount t * 5 * 60 * 1000) (the_world c)
    else sendAlert taskId errorMessage (the_world c) in
  {| the_result := r; the_task := t; the_world := w |}.

(** [history.slice(-n)]. *)
Definition slice_last {A} (n : nat) (l : list A) : list A :=
  skipn (length l - n) l.

(** [executeTask(taskId)]: what it throws or returns, and the
    scheduler afterwards. *)
Definition executeTask (taskId : string) (run : Run) (s : Scheduler)
  : (string + TaskExecutionResult) * Scheduler :=
  match tasks s !! taskId with
  | None => (inl ("Task not found: " +:+ taskId), s)
  | Some t =>
      let startTime := startTime run in
      let result :=
        {| taskId := taskId; success := false; result_recordCount := 0;
           result_errors := []; result_warnings := [];
           executionTime := 0; timestamp := now run |} in
      let c := {| the_result := result; the_task := t; the_world := effects s |} in
      let c :=
        match try_block run (adapter t) c with
        | (inr _, c) => c
        | (inl errorMessage, c) => catch_block taskId errorMessage c
        end in
      let r := the_result c in
      let result :=
        {| taskId := TaskScheduler.taskId r; success := success r;
           result_recordCount := result_recordCount r;
           result_errors := result_errors r;
           result_warnings := result_warnings r;
           executionTime := endTime run - startTime;
           timestamp := timestamp r |} in
      let history := executionHistory s ++ [result] in
      let history :=
        if (1000 <? length history)%nat then slice_last 500 history
        else history in
      (inr result,
       {| tasks := <[taskId := the_task c]> (tasks s);
          executionHistory := history;
          isRunning := isRunning s;
          effects := the_world c |})
  end.

(** The retry counter of a task, if the scheduler has the task. *)
Definition retryCount_of (s : Scheduler) (taskId : string) : option Z :=
  retryCount <$> tasks s !! taskId.

(** *** What the [try] block leaves behind *)

Lemma try_block_outcome run a c :
  match try_block run a c with
  | (inr _, c') =>
      success (the_result c') = true
      /\ the_task c' = with_lastRun (with_retryCount (the_task c) 0) (finishTime run)
      /\ timers (the_world c') = timers (the_world c)
      /\ alerts (the_world c') = alerts (the_world c)
  | (inl _, c') =>
      success (the_result c') = success (the_result c)
      /\ the_task c' = the_task c
      /\ timers (the_world c') = timers (the_world c)
      /\ alerts (the_world c') = alerts (the_world c)
  end.
Proof.
  unfold try_block, collectData, submitDataToAPI, bind, when.
  destruct (collected run) as [message|[data evidence]]; [repeat split|].
  cbv beta iota zeta delta [ret].
  generalize (adapter_validateData a data) as v. intros v.
  destruct (isValid v), (errors v), data, (importOutcome run);
    cbn; repeat split.
Qed.

(** [executeTask] on a task the scheduler has returns a result, and a
    scheduler in which the task is still there: with its counter at 0
    when the result is a success, and otherwise with its counter
    raised by one and either a timer set or an alert sent. *)
Lemma executeTask_known s taskId t run :
  tasks s !! taskId = Some t ->
  exists r s' t',
    executeTask taskId run s = (inr r, s')
    /\ tasks s' !! taskId = Some t'
    /\ maxRetries t' = maxRetries t
    /\ (if success r
        then retryCount t' = 0
             /\ timers (effects s') = timers (effects s)
             /\ alerts (effects s') = alerts (effects s)
        else retryCount t' = retryCount t + 1
             /\ if retryCount t' <? maxRetries t'
                then timers (effects s')
                     = timers (effects s) ++ [(taskId, retryCount t' * 5 * 60 * 1000)]
                     /\ alerts (effects s') = alerts (effects s)
                else timers (effects s') = timers (effects s)
                     /\ exists alert,
                          alerts (effects s') = alerts (effects s) ++ [alert]).
Proof.
  intros Hlookup. unfold executeTask. rewrite Hlookup. cbv zeta.
  set (c0 := {| the_result := _; the_task := t; the_world := effects s |}).
  pose proof (try_block_outcome run (adapter t) c0) as Hout.
  destruct (try_block run (adapter t) c0) as [[message|[]] c'].
  - destruct Hout as [Hsuccess [Htask [Htimers Halerts]]].
    eexists _, _, _. split; [reflexivity|].
    cbn [tasks effects success]. rewrite lookup_insert_eq.
    split; [reflexivity|].
    unfold catch_block. cbn [the_task the_result the_world success].
    rewrite Hsuccess, Htask. cbn [c0 the_result the_task success].
    cbn [with_retryCount maxRetries retryCount].
    split; [reflexivity|]. split; [reflexivity|].
    destruct (retryCount t + 1 <? maxRetries t);
      cbn [setTimeout sendAlert timers alerts];
      rewrite Htimers, Halerts; cbn [c0 the_world]; eauto.
  - destruct Hout as [Hsuccess [Htask [Htimers Halerts]]].
    eexists _, _, _. split; [reflexivity|].
    cbn [tasks effects success]. rewrite lookup_insert_eq.
    split; [reflexivity|].
    rewrite Hsuccess, Htask. cbn [c0 the_task].
    cbn [with_lastRun with_retryCount maxRetries retryCount].
    repeat split; assumption.
Qed.

(** C1.  A failed call of [executeTask] raises the task's [retryCount]
    by one; if the count is then still below [maxRetries] it sets a
    timer for a retry after [retryCount] times five minutes and sends
    no alert, and otherwise it sends an alert and sets no timer; a
    successful call puts the count back to 0.  With [maxRetries = 3]
    and a count of 0, three failed calls in a row take the count to 1,
    2 and 3, set timers for 5 and for 10 minutes, and on the third send
    the alert and set no further timer; a success after that resets
    the count. *)
Theorem executeTask_retry_then_alert :
  (forall s taskId t run,
     tasks s !! taskId = Some t ->
     exists r s' t',
       executeTask taskId run s = (inr r, s')
       /\ tasks s' !! taskId = Some t'
       /\ maxRetries t' = maxRetries t
       /\ (if success r
           then retryCount t' = 0
                /\ timers (effects s') = timers (effects s)
                /\ alerts (effects s') = alerts (effects s)
           else retryCount t' = retryCount t + 1
                /\ if retryCount t' <? maxRetries t'
                   then timers (effects s')
                        = timers (effects s)
                          ++ [(taskId, retryCount t' * 5 * 60 * 1000)]
                        /\ alerts (effects s') = alerts (effects s)
                   else timers (effects s') = timers (effects s)
                        /\ exists alert,
                             alerts (effects s') = alerts (effects s) ++ [alert]))
  /\ (forall s0 taskId t run1 run2 run3 r1 r2 r3 s1 s2 s3,
        tasks s0 !! taskId = Some t ->
        retryCount t = 0 -> maxRetries t = 3 ->
        executeTask taskId run1 s0 = (inr r1, s1) -> success r1 = false ->
        executeTask taskId run2 s1 = (inr r2, s2) -> success r2 = false ->
        executeTask taskId run3 s2 = (inr r3, s3) -> success r3 = false ->
        retryCount_of s1 taskId = Some 1
        /\ retryCount_of s2 taskId = Some 2
        /\ retryCount_of s3 taskId = Some 3
        /\ timers (effects s1) = timers (effects s0) ++ [(taskId, 5 * 60 * 1000)]
        /\ timers (effects s2) = timers (effects s1) ++ [(taskId, 10 * 60 * 1000)]
        /\ timers (effects s3) = timers (effects s2)
        /\ alerts (effects s2) = alerts (effects s0)
        /\ (exists alert, alerts (effects s3) = alerts (effects s0) ++ [alert])
        /\ (forall run4 r4 s4,
              executeTask taskId run4 s3 = (inr r4, s4) -> success r4 = true ->
              retryCount_of s4 taskId = Some 0
              /\ timers (effects s4) = timers (effects s3)
              /\ alerts (effects s4) = alerts (effects s3))).
Proof.
  split; [exact executeTask_known|].
  intros s0 taskId t run1 run2 run3 r1 r2 r3 s1 s2 s3 Ht Hcount Hmax
    E1 F1 E2 F2 E3 F3.
  destruct (executeTask_known s0 taskId t run1 Ht)
    as (r1' & s1' & t1 & E1' & Ht1 & Hmax1 & Hstep1).
  rewrite E1 in E1'. injection E1' as <- <-. rewrite F1 in Hstep1.
  destruct Hstep1 as [Hc1 Hstep1].
  assert (Hc1' : retryCount t1 = 1) by lia.
  rewrite Hc1', Hmax1, Hmax in Hstep1. cbn in Hstep1.
  destruct Hstep1 as [Htimers1 Halerts1].
  destruct (executeTask_known s1 taskId t1 run2 Ht1)
    as (r2' & s2' & t2 & E2' & Ht2 & Hmax2 & Hstep2).
  rewrite E2 in E2'. injection E2' as <- <-. rewrite F2 in Hstep2.
  destruct Hstep2 as [Hc2 Hstep2].
  assert (Hc2' : retryCount t2 = 2) by lia.
  rewrite Hc2', Hmax2, Hmax1, Hmax in Hstep2. cbn in Hstep2.
  destruct Hstep2 as [Htimers2 Halerts2].
  destruct (executeTask_known s2 taskId t2 run3 Ht2)
    as (r3' & s3' & t3 & E3' & Ht3 & Hmax3 & Hstep3).
  rewrite E3 in E3'. injection E3' as <- <-. rewrite F3 in Hstep3.
  destruct Hstep3 as [Hc3 Hstep3].
  assert (Hc3' : retryCount t3 = 3) by lia.
  rewrite Hc3', Hmax3, Hmax2, Hmax1, Hmax in Hstep3. cbn in Hstep3.
  destruct Hstep3 as [Htimers3 [alert Halerts3]].
  assert (Hreset : forall run4 r4 s4,
    executeTask taskId run4 s3 = (inr r4, s4) -> success r4 = true ->
    retryCount_of s4 taskId = Some 0
    /\ timers (effects s4) = timers (effects s3)
    /\ alerts (effects s4) = alerts (effects s3)).
  { intros run4 r4 s4 E4 F4.
    destruct (executeTask_known s3 taskId t3 run4 Ht3)
      as (r4' & s4' & t4 & E4' & Ht4 & _ & Hstep4).
    rewrite E4 in E4'. injection E4' as <- <-. rewrite F4 in Hstep4.
    destruct Hstep4 as (Hc4 & Htimers4 & Halerts4).
    unfold retryCount_of. rewrite Ht4. cbn [fmap option_fmap option_map].
    rewrite Hc4. auto. }
  unfold retryCount_of in *. rewrite Ht1, Ht2, Ht3.
  cbn [fmap option_fmap option_map]. rewrite Hc1', Hc2', Hc3'.
  split; [reflexivity|]. split; [reflexivity|]. split; [reflexivity|].
  split; [exact Htimers1|]. split; [exact Htimers2|]. split; [exact Htimers3|].
  split; [congruence|]. split; [exists alert; congruence|].
  exact Hreset.
Qed.

(** C4.  For an id the scheduler has no task for, [executeTask] throws
    [Task not found] and leaves everything as it was: the tasks, the
    history, and the timers, posts and alerts. *)
Theorem executeTask_unknown_task s taskId run :
  tasks s !! taskId = None ->
  executeTask taskId run s = (inl ("Task not found: " +:+ taskId), s).
Proof. intros Hnone. unfold executeTask. rewrite Hnone. reflexivity. Qed.

(** What [executeTask] does to the history of a scheduler that has the
    task: it appends the result, and when that makes more than 1000
    entries it keeps the last 500. *)
Lemma executeTask_history s taskId t run :
  tasks s !! taskId = Some t ->
  exists r s',
    executeTask taskId run s = (inr r, s')
    /\ executionHistory s'
       = if (1000 <? length (executionHistory s ++ [r]))%nat
         then skipn (length (executionHistory s ++ [r]) - 500)
                (executionHistory s ++ [r])
         else executionHistory s ++ [r].
Proof.
  intros Hlookup. unfold executeTask. rewrite Hlookup. cbv zeta.
  eexists _, _. split; reflexivity.
Qed.

(** C2, as amended.  When the history holds exactly 1000 entries,
    [executeTask] leaves exactly 500: the entries 502 to 1000 of the old
    history followed by the new result.  The entries 1 to 501 are
    dropped.  Below 1000 entries nothing is dropped. *)
Theorem executeTask_trims_history_to_500 :
  (forall s taskId t run,
     tasks s !! taskId = Some t ->
     length (executionHistory s) = 1000%nat ->
     exists r s',
       executeTask taskId run s = (inr r, s')
       /\ executionHistory s' = skipn 501 (executionHistory s) ++ [r]
       /\ length (executionHistory s') = 500%nat)
  /\ (forall s taskId t run,
        tasks s !! taskId = Some t ->
        (length (executionHistory s) < 1000)%nat ->
        exists r s',
          executeTask taskId run s = (inr r, s')
          /\ executionHistory s' = executionHistory s ++ [r]).
Proof.
  split; intros s taskId t run Hlookup Hlen;
    destruct (executeTask_history s taskId t run Hlookup) as (r & s' & E & Hh);
    exists r, s'; (split; [exact E|]); rewrite Hh, length_app; cbn [length].
  - rewrite Hlen. cbn [Nat.add Nat.ltb Nat.leb].
    replace (1000 + 1 - 500)%nat with 501%nat by reflexivity.
    change (1000 <? 1000 + 1)%nat with true. cbv iota.
    rewrite skipn_app, Hlen. cbn [Nat.sub skipn].
    split; [reflexivity|].
    rewrite length_app, length_skipn, Hlen. reflexivity.
  - destruct (Nat.ltb_spec 1000 (length (executionHistory s) + 1)); [lia|].
    reflexivity.
Qed.

(** The adapters of the sources as the scheduler holds them. *)
Definition carb_adapter : MCPAdapter := {|
  adapter_name := CarbCSVAdapter.name;
  adapter_marketCode := CarbCSVAdapter.marketCode;
  adapter_validateData := CarbCSVAdapter.validateData
|}.

Definition cea_adapter : MCPAdapter := {|
  adapter_name := CEAAdapter.name;
  adapter_marketCode := CEAAdapter.marketCode;
  adapter_validateData := CEAAdapter.validateData
|}.

(** An adapter whose [validateData] sets [isValid] to
    [errors.length === 0], as those of the sources do. *)
Definition reports_errors_as_invalid (a : MCPAdapter) : Prop :=
  forall data,
    isValid (adapter_validateData a data)
    = (length (errors (adapter_validateData a data)) =? 0)%nat.

Lemma try_block_invalid run a c data evidence :
  collected run = inr (data, evidence) ->
  isValid (adapter_validateData a data) = false ->
  errors (adapter_validateData a data) <> [] ->
  try_block run a c
  = (inl ("Data validation failed: "
          +:+ JS.join ", " (errors (adapter_validateData a data))),
     snd (push_warnings (warnings (adapter_validateData a data))
            (snd (push_errors (errors (adapter_validateData a data)) c)))).
Proof.
  intros Hcollected Hinvalid Herrors.
  unfold try_block, collectData, bind, when. rewrite Hcollected.
  cbv beta iota zeta delta [ret]. rewrite Hinvalid.
  destruct (errors (adapter_validateData a data)) as [|e es] eqn:E;
    [congruence|].
  reflexivity.
Qed.

Lemma executeTask_validation_failure s taskId t run data evidence :
  tasks s !! taskId = Some t ->
  collected run = inr (data, evidence) ->
  isValid (adapter_validateData (adapter t) data) = false ->
  errors (adapter_validateData (adapter t) data) <> [] ->
  exists r s',
    executeTask taskId run s = (inr r, s')
    /\ success r = false
    /\ result_recordCount r = 0%nat
    /\ result_errors r
       = errors (adapter_validateData (adapter t) data)
         ++ ["Data validation failed: "
             +:+ JS.join ", " (errors (adapter_validateData (adapter t) data))]
    /\ posted (effects s') = posted (effects s)
    /\ retryCount_of s' taskId = Some (retryCount t + 1).
Proof.
  intros Hlookup Hcollected Hinvalid Herrors.
  unfold executeTask, retryCount_of. rewrite Hlookup. cbv zeta.
  rewrite (try_block_invalid _ _ _ _ _ Hcollected Hinvalid Herrors).
  eexists _, _. split; [reflexivity|].
  cbn [tasks effects success result_recordCount result_errors].
  rewrite lookup_insert_eq.
  unfold catch_block, push_warnings, push_errors, update.
  cbn [snd the_result the_task the_world success result_recordCount
       result_errors app retryCount with_retryCount fmap option_fmap option_map].
  repeat split. destruct (_ <? _); reflexivity.
Qed.

(** Whatever happens, [executeTask] posts nothing or one CSV holding
    the whole batch that was collected. *)
Lemma try_block_posts run a c :
  posted (the_world (snd (try_block run a c))) = posted (the_world c)
  \/ exists data evidence,
       collected run = inr (data, evidence)
       /\ posted (the_world (snd (try_block run a c)))
          = posted (the_world c) ++ [convertToCSVFormat data].
Proof.
  unfold try_block, collectData, submitDataToAPI, bind, when.
  destruct (collected run) as [message|[data evidence]]; [left; reflexivity|].
  cbv beta iota zeta delta [ret].
  generalize (adapter_validateData a data) as v. intros v.
  destruct (isValid v), (errors v), data, (importOutcome run); cbn;
    solve [left; reflexivity | right; eexists _, _; split; reflexivity].
Qed.

Lemma executeTask_posts_whole_batch s taskId t run :
  tasks s !! taskId = Some t ->
  exists r s',
    executeTask taskId run s = (inr r, s')
    /\ (posted (effects s') = posted (effects s)
        \/ exists data evidence,
             collected run = inr (data, evidence)
             /\ posted (effects s')
                = posted (effects s) ++ [convertToCSVFormat data]).
Proof.
  intros Hlookup. unfold executeTask. rewrite Hlookup. cbv zeta.
  set (c0 := {| the_result := _; the_task := t; the_world := effects s |}).
  pose proof (try_block_posts run (adapter t) c0) as Hposts.
  destruct (try_block run (adapter t) c0) as [[message|[]] c'];
    eexists _, _; (split; [reflexivity|]); cbn [effects snd] in *.
  - unfold catch_block. cbn [the_world].
    assert (Hsame : forall w w', posted
      (if retryCount (with_retryCount (the_task c') (retryCount (the_task c') + 1))
          <? maxRetries (with_retryCount (the_task c') (retryCount (the_task c') + 1))
       then setTimeout taskId w' w else sendAlert taskId message w) = posted w)
      by (intros; destruct (_ <? _); reflexivity).
    rewrite Hsame. exact Hposts.
  - exact Hposts.
Qed.

Lemma carb_record_error_in records record message :
  In record records -> In message (CarbCSVAdapter.record_errors record) ->
  In message (errors (CarbCSVAdapter.validateData records)).
Proof.
  intros Hin Hmsg. cbn [CarbCSVAdapter.validateData errors].
  apply in_flat_map. exists record. split; assumption.
Qed.

Lemma nonempty_errors_invalid (l : list string) :
  l <> [] -> (length l =? 0)%nat = false.
Proof. destruct l; [congruence | reflexivity]. Qed.

(** C3, as amended.  When [validateData] reports at least one hard
    error, [executeTask] takes the execution as a thrown failure: the
    result is a failure that lists the errors, the retry counter goes
    up, and nothing is posted to the import endpoint.  In every case
    either nothing is posted or one CSV with the whole collected batch.
    Under the CARB adapter a record whose market code is not [CCA]
    gives an [Invalid market code] error and a record whose currency is
    not [USD] gives an [Invalid currency] error, each with
    [isValid = false]. *)
Theorem executeTask_submits_nothing_on_hard_error :
  (forall s taskId t run data evidence,
     tasks s !! taskId = Some t ->
     reports_errors_as_invalid (adapter t) ->
     collected run = inr (data, evidence) ->
     errors (adapter_validateData (adapter t) data) <> [] ->
     exists r s',
       executeTask taskId run s = (inr r, s')
       /\ success r = false
       /\ result_recordCount r = 0%nat
       /\ result_errors r
          = errors (adapter_validateData (adapter t) data)
            ++ ["Data validation failed: "
                +:+ JS.join ", " (errors (adapter_validateData (adapter t) data))]
       /\ posted (effects s') = posted (effects s)
       /\ retryCount_of s' taskId = Some (retryCount t + 1))
  /\ (forall s taskId t run,
        tasks s !! taskId = Some t ->
        exists r s',
          executeTask taskId run s = (inr r, s')
          /\ (posted (effects s') = posted (effects s)
              \/ exists data evidence,
                   collected run = inr (data, evidence)
                   /\ posted (effects s')
                      = posted (effects s) ++ [convertToCSVFormat data]))
  /\ reports_errors_as_invalid carb_adapter
  /\ reports_errors_as_invalid cea_adapter
  /\ (forall records record,
        In record records ->
        Types.marketCode record <> "CCA" ->
        In ("Invalid market code: " +:+ Types.marketCode record)
           (errors (CarbCSVAdapter.validateData records))
        /\ isValid (CarbCSVAdapter.validateData records) = false)
  /\ (forall records record,
        In record records ->
        Types.currency record <> "USD" ->
        In ("Invalid currency: " +:+ Types.currency record)
           (errors (CarbCSVAdapter.validateData records))
        /\ isValid (CarbCSVAdapter.validateData records) = false).
Proof.
  assert (Hinvalid : forall records message,
    In message (errors (CarbCSVAdapter.validateData records)) ->
    isValid (CarbCSVAdapter.validateData records) = false).
  { intros records message Hin. cbn [CarbCSVAdapter.validateData isValid errors] in *.
    apply nonempty_errors_invalid. intros E. rewrite E in Hin. destruct Hin. }
  split; [|split; [|split; [|split; [|split]]]].
  - intros s taskId t run data evidence Hlookup Hadapter Hcollected Herrors.
    apply (executeTask_validation_failure s taskId t run data evidence);
      try assumption.
    rewrite Hadapter. apply nonempty_errors_invalid, Herrors.
  - exact executeTask_posts_whole_batch.
  - intros data. reflexivity.
  - intros data. reflexivity.
  - intros records record Hin Hcode.
    assert (Hmsg : In ("Invalid market code: " +:+ Types.marketCode record)
                      (errors (CarbCSVAdapter.validateData records))).
    { apply (carb_record_error_in records record _ Hin).
      unfold CarbCSVAdapter.record_errors.
      apply String.eqb_neq in Hcode. unfold CarbCSVAdapter.marketCode.
      rewrite Hcode. left. reflexivity. }
    split; [exact Hmsg | exact (Hinvalid _ _ Hmsg)].
  - intros records record Hin Hcurrency.
    assert (Hmsg : In ("Invalid currency: " +:+ Types.currency record)
                      (errors (CarbCSVAdapter.validateData records))).
    { apply (carb_record_error_in records record _ Hin).
      unfold CarbCSVAdapter.record_errors.
      apply String.eqb_neq in Hcurrency. unfold CarbCSVAdapter.currency.
      rewrite Hcurrency. apply in_or_app. right. left. reflexivity. }
    split; [exact Hmsg | exact (Hinvalid _ _ Hmsg)].
Qed.

(** *** The CSV of a submission *)

(** A field between double quotes. *)
Definition quoted (field : string) : string := quote +:+ field +:+ quote.

(** [join] is the concatenation with a separator of the standard
    library. *)
Lemma join_concat sep l : JS.join sep l = String.concat sep l.
Proof.
  induction l as [|s l IH]; [reflexivity|].
  destruct l as [|t l]; [reflexivity|].
  change (JS.join sep (s :: t :: l)) with (s +:+ sep +:+ JS.join sep (t :: l)).
  rewrite IH. reflexivity.
Qed.

(** C9.  For a list of records that is not empty, [convertToCSVFormat]
    gives the lines, joined by line feeds (the character 10), of a
    header and of one row per record.  The header holds the ten column
    names in their order, and a row holds the record's ten fields in
    that order, with [close] as the price type, [tCO2e] as the unit and
    [MCP采集: ] followed by [collectedBy] as the notes; every field of
    the header and of the rows stands between two double quotes (the
    character 34), and the fields of a line are joined by commas. *)
Theorem convertToCSVFormat_layout (first : PriceRecord) (rest : list PriceRecord) :
  let newline := String (ascii_of_nat 10) "" in
  let double_quote := String (ascii_of_nat 34) "" in
  let line := fun fields : list string =>
    String.concat ","
      (map (fun field => double_quote +:+ field +:+ double_quote) fields) in
  exists rows,
    convertToCSVFormat (first :: rest)
    = String.concat newline
        (line ["market_code"; "instrument_code"; "date"; "price"; "price_type";
               "currency"; "unit"; "volume"; "source_url"; "notes"]
         :: rows)
    /\ length rows = length (first :: rest)
    /\ forall i record,
         nth_error (first :: rest) i = Some record ->
         nth_error rows i
         = Some (line [Types.marketCode record;
                       instrumentCode record;
                       date record;
                       Number_toString (price record);
                       "close";
                       Types.currency record;
                       "tCO2e";
                       match volume record with
                       | Some v => Number_toString v
                       | None => ""
                       end;
                       sourceUrl record;
                       "MCP采集: " +:+ collectedBy record]).
Proof.
  cbv zeta. exists (map csv_line (map csv_row (first :: rest))).
  split; [|split].
  - unfold convertToCSVFormat. cbn [length Nat.eqb]. cbv zeta.
    rewrite (join_concat (String (ascii_of_nat 10) "")). cbn [map].
    unfold csv_line at 1. rewrite (join_concat ","). reflexivity.
  - rewrite !length_map. reflexivity.
  - intros i record Hi. rewrite !nth_error_map, Hi. cbn [option_map].
    assert (Hor : forall a, or_else a "" = a).
    { intros a. unfold or_else, JS.falsy_string.
      destruct (bool_decide_reflect (a = "")); congruence. }
    unfold csv_line. rewrite join_concat. unfold csv_row. rewrite !Hor.
    reflexivity.
Qed.

End WithEngine.

(** *** Worked executions *)

(** A scheduler over the CEA and the CARB adapter. *)
Definition sample : Scheduler :=
  new_scheduler [@cea_adapter Sample.engine; @carb_adapter Sample.engine].

(** A run in which [collectData] throws. *)
Definition failing_run (time : Z) : Run := {|
  startTime := time; now := time;
  collected := inl "HTTP 503: Service Unavailable";
  importOutcome := Imported None;
  finishTime := time; endTime := time + 40
|}.

(** A run that collects the given records and whose import succeeds. *)
Definition collecting_run (time : Z) (records : list PriceRecord) : Run := {|
  startTime := time; now := time;
  collected := inr (records, []);
  importOutcome := Imported (Some (Z.of_nat (length records)));
  finishTime := time + 30; endTime := time + 40
|}.

Definition run_on (taskId : string) (run : Run) (s : Scheduler) : Scheduler :=
  snd (@executeTask Sample.engine taskId run s).

Definition result_on (taskId : string) (run : Run) (s : Scheduler)
  : option TaskExecutionResult :=
  match fst (@executeTask Sample.engine taskId run s) with
  | inr r => Some r
  | inl _ => None
  end.

Definition cca_task : ScheduledTask := {|
  id := "cca-daily"; adapter := @carb_adapter Sample.engine;
  schedule := "0 23 * * 1-5"; lastRun := None; nextRun := None;
  enabled := true; retryCount := 0; maxRetries := 3
|}.

Definition dummy_result : TaskExecutionResult := {|
  taskId := ""; success := false; result_recordCount := 0;
  result_errors := []; result_warnings := []; executionTime := 0; timestamp := 0
|}.

Definition the_result_on (taskId : string) (run : Run) (s : Scheduler)
  : TaskExecutionResult :=
  default dummy_result (result_on taskId run s).

(** The CARB task fails three times in a row and then succeeds. *)
Definition after_1 : Scheduler := run_on "cca-daily" (failing_run 0) sample.
Definition after_2 : Scheduler := run_on "cca-daily" (failing_run 300000) after_1.
Definition after_3 : Scheduler := run_on "cca-daily" (failing_run 900000) after_2.
Definition good_run : Run :=
  collecting_run 86400000 [QualityChecker.record_at "2024-01-10" 30%float].

Lemma executeTask_retry_then_alert_witness :
  tasks sample !! "cca-daily" = Some cca_task
  /\ retryCount cca_task = 0 /\ maxRetries cca_task = 3
  /\ success (the_result_on "cca-daily" (failing_run 0) sample) = false
  /\ success (the_result_on "cca-daily" (failing_run 300000) after_1) = false
  /\ success (the_result_on "cca-daily" (failing_run 900000) after_2) = false
  /\ success (the_result_on "cca-daily" good_run after_3) = true
  /\ retryCount_of after_1 "cca-daily" = Some 1
  /\ retryCount_of after_2 "cca-daily" = Some 2
  /\ retryCount_of after_3 "cca-daily" = Some 3
  /\ timers (effects after_3) = [("cca-daily", 300000); ("cca-daily", 600000)]
  /\ (exists alert, alerts (effects after_3) = alerts (effects sample) ++ [alert])
  /\ retryCount_of (run_on "cca-daily" good_run after_3) "cca-daily" = Some 0.
Proof.
  assert (Ht : tasks sample !! "cca-daily" = Some cca_task) by reflexivity.
  assert (E1 : @executeTask Sample.engine "cca-daily" (failing_run 0) sample
               = (inr (the_result_on "cca-daily" (failing_run 0) sample), after_1))
    by reflexivity.
  assert (E2 : @executeTask Sample.engine "cca-daily" (failing_run 300000) after_1
               = (inr (the_result_on "cca-daily" (failing_run 300000) after_1),
                  after_2))
    by reflexivity.
  assert (E3 : @executeTask Sample.engine "cca-daily" (failing_run 900000) after_2
               = (inr (the_result_on "cca-daily" (failing_run 900000) after_2),
                  after_3))
    by reflexivity.
  assert (E4 : @executeTask Sample.engine "cca-daily" good_run after_3
               = (inr (the_result_on "cca-daily" good_run after_3),
                  run_on "cca-daily" good_run after_3))
    by reflexivity.
  assert (F4 : success (the_result_on "cca-daily" good_run after_3) = true)
    by reflexivity.
  destruct (proj2 (@executeTask_retry_then_alert Sample.engine)
              sample "cca-daily" cca_task
              (failing_run 0) (failing_run 300000) (failing_run 900000)
              _ _ _ _ _ _ Ht eq_refl eq_refl E1 eq_refl E2 eq_refl E3 eq_refl)
    as (C1 & C2 & C3 & T1 & T2 & T3 & A2 & A3 & Hreset).
  destruct (Hreset good_run _ _ E4 F4) as (C4 & _ & _).
  repeat match goal with |- _ /\ _ => split end;
    first [exact Ht | exact C1 | exact C2 | exact C3 | exact A3 | exact C4
          | reflexivity].
Defined.

(** The scheduler has no task for the EU market. *)
Lemma executeTask_unknown_task_witness :
  tasks sample !! "eu-daily" = None
  /\ @executeTask Sample.engine "eu-daily" (failing_run 0) sample
     = (inl "Task not found: eu-daily", sample).
Proof.
  assert (Hnone : tasks sample !! "eu-daily" = None) by reflexivity.
  split; [exact Hnone|].
  exact (@executeTask_unknown_task Sample.engine sample "eu-daily"
           (failing_run 0) Hnone).
Defined.

(** A scheduler whose history holds 1000 results, numbered from 1 to
    1000 by their time stamps. *)
Definition numbered_result (n : nat) : TaskExecutionResult := {|
  taskId := "cca-daily"; success := true; result_recordCount := 1;
  result_errors := []; result_warnings := [];
  executionTime := 40; timestamp := Z.of_nat n
|}.

Definition full : Scheduler := {|
  tasks := tasks sample;
  executionHistory := map numbered_result (seq 1 1000);
  isRunning := true;
  effects := effects sample
|}.

(** C2 fails in its count of the survivors: after the result number
    1001 is appended to 1000 results, the 500 that are left are the
    numbers 502 to 1001, and number 501 is not among them. *)
Lemma executeTask_drops_entry_501 :
  length (executionHistory full) = 1000%nat
  /\ map timestamp (executionHistory (run_on "cca-daily" (failing_run 1001) full))
     = map Z.of_nat (seq 502 500)
  /\ existsb (Z.eqb 501)
       (map timestamp (executionHistory (run_on "cca-daily" (failing_run 1001) full)))
     = false.
Proof. vm_compute. repeat split. Qed.

Lemma executeTask_trims_history_to_500_witness :
  tasks full !! "cca-daily" = Some cca_task
  /\ length (executionHistory full) = 1000%nat
  /\ exists r s',
       @executeTask Sample.engine "cca-daily" (failing_run 1001) full = (inr r, s')
       /\ executionHistory s' = skipn 501 (executionHistory full) ++ [r]
       /\ length (executionHistory s') = 500%nat.
Proof.
  assert (Ht : tasks full !! "cca-daily" = Some cca_task) by reflexivity.
  assert (Hlen : length (executionHistory full) = 1000%nat)
    by (vm_compute; reflexivity).
  split; [exact Ht|]. split; [exact Hlen|].
  exact (proj1 (@executeTask_trims_history_to_500 Sample.engine)
           full "cca-daily" cca_task (failing_run 1001) Ht Hlen).
Defined.

(** A record of the EU market in US dollars, and a record of the
    California market in US dollars. *)
Definition eu_usd_record : PriceRecord := {|
  date := "2024-01-10"; marketCode := "EU"; instrumentCode := "EUA";
  price := 30%float; currency := "USD"; volume := None;
  sourceUrl := "https://ww2.arb.ca.gov/"; collectedBy := "MCP:CARB CSV";
  metadata := None
|}.

Definition cca_usd_record : PriceRecord :=
  QualityChecker.record_at "2024-01-10" 30%float.

(** C3 fails in its example: under the CARB adapter the currency [USD]
    is the adapter's own, so a record in US dollars gives no
    [Invalid currency] error.  The EU record gives the market-code
    error only, and the California record in US dollars validates and
    is submitted. *)
Lemma carb_accepts_usd :
  errors (@CarbCSVAdapter.validateData Sample.engine [eu_usd_record])
    = ["Invalid market code: EU"]
  /\ Types.currency cca_usd_record = "USD"
  /\ errors (@CarbCSVAdapter.validateData Sample.engine [cca_usd_record]) = []
  /\ isValid (@CarbCSVAdapter.validateData Sample.engine [cca_usd_record]) = true
  /\ posted (effects (run_on "cca-daily" (collecting_run 0 [cca_usd_record]) sample))
     = [@convertToCSVFormat Sample.engine [cca_usd_record]].
Proof. vm_compute. repeat split. Qed.

Lemma executeTask_submits_nothing_on_hard_error_witness :
  tasks sample !! "cca-daily" = Some cca_task
  /\ collected (collecting_run 0 [eu_usd_record]) = inr ([eu_usd_record], [])
  /\ errors (adapter_validateData (adapter cca_task) [eu_usd_record]) <> []
  /\ exists r s',
       @executeTask Sample.engine "cca-daily" (collecting_run 0 [eu_usd_record]) sample
         = (inr r, s')
       /\ success r = false
       /\ result_recordCount r = 0%nat
       /\ result_errors r
          = errors (adapter_validateData (adapter cca_task) [eu_usd_record])
            ++ ["Data validation failed: "
                +:+ JS.join ", "
                      (errors (adapter_validateData (adapter cca_task) [eu_usd_record]))]
       /\ posted (effects s') = posted (effects sample)
       /\ retryCount_of s' "cca-daily" = Some (retryCount cca_task + 1).
Proof.
  assert (Ht : tasks sample !! "cca-daily" = Some cca_task) by reflexivity.
  assert (Herrors :
    errors (adapter_validateData (adapter cca_task) [eu_usd_record]) <> [])
    by (vm_compute; discriminate).
  split; [exact Ht|]. split; [reflexivity|]. split; [exact Herrors|].
  exact (proj1 (@executeTask_submits_nothing_on_hard_error Sample.engine)
           sample "cca-daily" cca_task (collecting_run 0 [eu_usd_record])
           [eu_usd_record] []
           Ht
           (proj1 (proj2 (proj2 (@executeTask_submits_nothing_on_hard_error
                                    Sample.engine))))
           eq_refl Herrors).
Defined.

Section Operations.
Context `{Engine}.

(** *** When an execution succeeds *)

(** The CSV posts of an execution that collected [data] and reached
    the import. *)
Definition posts_of (data : list PriceRecord) : list string :=
  match data with
  | [] => []
  | _ :: _ => [convertToCSVFormat data]
  end.

(** What makes the [try] block complete: the collection returns, the
    validation reports no error, and the import, if there is anything
    to import, is accepted. *)
Definition completes (run : Run) (a : MCPAdapter) : Prop :=
  exists data evidence,
    collected run = inr (data, evidence)
    /\ errors (adapter_validateData a data) = []
    /\ (data = [] \/ exists imported, importOutcome run = Imported imported).

Lemma try_block_report run a c :
  reports_errors_as_invalid a ->
  match try_block run a c with
  | (inr _, c') =>
      completes run a
      /\ forall data evidence,
           collected run = inr (data, evidence) ->
           result_recordCount (the_result c')
           = match data with
             | [] => result_recordCount (the_result c)
             | _ :: _ => length data
             end
           /\ result_errors (the_result c') = result_errors (the_result c)
           /\ result_warnings (the_result c')
              = result_warnings (the_result c)
                ++ warnings (adapter_validateData a data)
           /\ posted (the_world c') = posted (the_world c) ++ posts_of data
  | (inl _, c') =>
      ~ completes run a
      /\ result_recordCount (the_result c') = result_recordCount (the_result c)
  end.
Proof.
  intros Hadapter. unfold completes.
  unfold try_block, collectData, submitDataToAPI, bind, when.
  destruct (collected run) as [message|[data evidence]].
  { cbn. split; [|reflexivity]. intros (? & ? & ? & _). discriminate. }
  cbv beta iota zeta delta [ret].
  rewrite (Hadapter data).
  destruct (errors (adapter_validateData a data)) as [|e errs] eqn:Herrors;
    cbn [length Nat.eqb negb].
  - destruct data as [|record data].
    + cbn. split.
      * exists [], evidence.
        split; [reflexivity|]. split; [exact Herrors | left; reflexivity].
      * intros ? ? [= <- <-]. rewrite app_nil_r. repeat split.
    + destruct (importOutcome run) eqn:Hi; cbn.
      1-3: split; [|reflexivity]; intros (? & ? & [= <- <-] & _ & [?|[? ?]]);
             discriminate.
      split.
      * exists (record :: data), evidence.
        split; [reflexivity|]. split; [exact Herrors | right; eexists; reflexivity].
      * intros ? ? [= <- <-]. repeat split.
  - cbn. split; [|reflexivity]. intros (? & ? & [= <- <-] & ? & _). congruence.
Qed.

(** X14.  On a task the scheduler has, and with an adapter whose
    [isValid] is [errors.length === 0], [executeTask] reports a success
    exactly when the collection returns, the validation reports no
    error and the import, if any record was collected, is accepted.
    The result of a success counts the records collected, has no error
    and carries the warnings of the validation once; one CSV of the
    whole batch was posted (none for an empty batch), and the task has
    its retry counter at 0 and its last run at the time of completion.
    The result of a failure counts no record and lists an error. *)
Theorem executeTask_succeeds_iff s taskId t run r s' :
  tasks s !! taskId = Some t ->
  reports_errors_as_invalid (adapter t) ->
  executeTask taskId run s = (inr r, s') ->
  (success r = true <-> completes run (adapter t))
  /\ (success r = true ->
      forall data evidence,
        collected run = inr (data, evidence) ->
        result_recordCount r = length data
        /\ result_errors r = []
        /\ result_warnings r = warnings (adapter_validateData (adapter t) data)
        /\ posted (effects s') = posted (effects s) ++ posts_of data
        /\ tasks s' !! taskId
           = Some (with_lastRun (with_retryCount t 0) (finishTime run)))
  /\ (success r = false ->
      result_recordCount r = 0%nat /\ result_errors r <> []
      /\ retryCount_of s' taskId = Some (retryCount t + 1)).
Proof.
  intros Hlookup Hadapter Hexec.
  unfold executeTask in Hexec. rewrite Hlookup in Hexec. cbv zeta in Hexec.
  set (c0 := {| the_result := _; the_task := t; the_world := effects s |}) in Hexec.
  pose proof (try_block_report run (adapter t) c0 Hadapter) as Hreport.
  pose proof (try_block_outcome run (adapter t) c0) as Hout.
  destruct (try_block run (adapter t) c0) as [[message|[]] c'].
  - destruct Hreport as [Hnot Hcount].
    destruct Hout as (Hsuccess & Htask & _).
    injection Hexec as <- <-.
    unfold catch_block. cbn [success result_recordCount result_errors the_result
      tasks effects]. unfold retryCount_of. cbn [tasks].
    rewrite lookup_insert_eq. cbn [the_task fmap option_fmap option_map].
    rewrite Hsuccess, Hcount, Htask. cbn [c0 the_result the_task success
      result_recordCount with_retryCount retryCount].
    split; [split; [discriminate | intros Hc; destruct (Hnot Hc)]|].
    split; [discriminate|]. intros _.
    split; [reflexivity|]. split; [|reflexivity].
    intros E. apply app_eq_nil in E. destruct E as [_ E]. discriminate.
  - destruct Hreport as [Hcompletes Hfields].
    destruct Hout as (Hsuccess & Htask & _).
    injection Hexec as <- <-.
    cbn [success result_recordCount result_errors result_warnings tasks effects].
    rewrite lookup_insert_eq, Hsuccess, Htask. cbn [c0 the_task].
    split; [split; auto|]. split; [|discriminate].
    intros _ data evidence Hc.
    destruct (Hfields data evidence Hc) as (Hn & He & Hw & Hp).
    rewrite Hn, He, Hw, Hp. cbn [c0 the_result result_recordCount result_errors
      result_warnings the_world app].
    repeat split. destruct data; reflexivity.
Qed.


(** X15.  When a batch that validates is posted and the import
    endpoint answers with a status that is not ok, the execution is a
    failure although the CSV was sent: the result counts no record,
    lists the one error [Import API failed: status - error] (with
    [Unknown error] for a body without one) and none of the warnings
    of the validation, and the task's retry counter goes up, so that
    the retry posts the batch again. *)
Theorem executeTask_import_failure s taskId t run data evidence status error :
  tasks s !! taskId = Some t ->
  reports_errors_as_invalid (adapter t) ->
  collected run = inr (data, evidence) ->
  data <> [] ->
  errors (adapter_validateData (adapter t) data) = [] ->
  importOutcome run = NotOk status error ->
  exists r s',
    executeTask taskId run s = (inr r, s')
    /\ success r = false
    /\ result_recordCount r = 0%nat
    /\ result_errors r
       = ["Import API failed: " +:+ JS.Z_toString status +:+ " - "
          +:+ match error with
              | Some text => if JS.falsy_string text then "Unknown error" else text
              | None => "Unknown error"
              end]
    /\ result_warnings r = []
    /\ posted (effects s') = posted (effects s) ++ [convertToCSVFormat data]
    /\ retryCount_of s' taskId = Some (retryCount t + 1)
    /\ (lastRun <$> tasks s' !! taskId) = Some (lastRun t).
Proof.
  intros Hlookup Hadapter Hcollected Hdata Herrors Himport.
  unfold executeTask, retryCount_of. rewrite Hlookup. cbv zeta.
  unfold try_block, collectData, submitDataToAPI, bind, when.
  rewrite Hcollected. cbv beta iota zeta delta [ret].
  rewrite (Hadapter data), Herrors, Himport.
  destruct data as [|record data]; [congruence|].
  eexists _, _. split; [reflexivity|].
  cbn [tasks effects]. rewrite lookup_insert_eq.
  cbn. repeat split.
  - destruct error as [text|]; [|reflexivity].
    unfold or_else. cbn [default]. reflexivity.
  - destruct (_ <? _); reflexivity.
Qed.

(** *** What an execution leaves alone *)

Lemma try_block_task run a c :
  the_task (snd (try_block run a c)) = the_task c
  \/ the_task (snd (try_block run a c))
     = with_lastRun (with_retryCount (the_task c) 0) (finishTime run).
Proof.
  pose proof (try_block_outcome run a c) as Hout.
  destruct (try_block run a c) as [[message|[]] c']; cbn [snd];
    destruct Hout as (_ & Htask & _); auto.
Qed.

(** The task after an execution differs from the task before it in
    [retryCount] and [lastRun] at most. *)
Definition same_settings (t t' : ScheduledTask) : Prop :=
  id t' = id t /\ adapter t' = adapter t /\ schedule t' = schedule t
  /\ nextRun t' = nextRun t /\ enabled t' = enabled t
  /\ maxRetries t' = maxRetries t.

Lemma executeTask_frame s taskId t run :
  tasks s !! taskId = Some t ->
  exists r s' t',
    executeTask taskId run s = (inr r, s')
    /\ TaskScheduler.taskId r = taskId
    /\ tasks s' = <[taskId := t']> (tasks s)
    /\ same_settings t t'
    /\ isRunning s' = isRunning s
    /\ executionHistory s'
       = (if (1000 <? length (executionHistory s ++ [r]))%nat
          then skipn (length (executionHistory s ++ [r]) - 500)
                 (executionHistory s ++ [r])
          else executionHistory s ++ [r]).
Proof.
  intros Hlookup. unfold executeTask. rewrite Hlookup. cbv zeta.
  set (c0 := {| the_result := _; the_task := t; the_world := effects s |}).
  pose proof (try_block_task run (adapter t) c0) as Htask.
  assert (Hid : TaskScheduler.taskId (the_result (snd (try_block run (adapter t) c0)))
                = taskId).
  { unfold try_block, collectData, submitDataToAPI, bind, when.
    destruct (collected run) as [message|[data evidence]]; [reflexivity|].
    cbv beta iota zeta delta [ret].
    generalize (adapter_validateData (adapter t) data) as v. intros v.
    destruct (isValid v), (errors v), data, (importOutcome run); reflexivity. }
  destruct (try_block run (adapter t) c0) as [[message|[]] c']; cbn [snd] in *;
    eexists _, _, _; (split; [reflexivity|]);
    cbn [tasks isRunning executionHistory TaskScheduler.taskId];
    (split; [exact Hid|]); (split; [reflexivity|]);
    (split; [|split; reflexivity]).
  - unfold catch_block. cbn [the_task].
    destruct Htask as [-> | ->]; repeat split.
  - destruct Htask as [-> | ->]; repeat split.
Qed.

(** X16.  An execution changes one task only, and of that task the
    retry counter and the time of the last run only: its adapter,
    schedule, next run, [enabled] flag and [maxRetries] stay as they
    were, every other task stays as it was, no task is added or
    removed, and [isRunning] is not touched. *)
Theorem executeTask_touches_one_task s taskId t run :
  tasks s !! taskId = Some t ->
  exists r s' t',
    executeTask taskId run s = (inr r, s')
    /\ tasks s' !! taskId = Some t'
    /\ same_settings t t'
    /\ (forall other, other <> taskId -> tasks s' !! other = tasks s !! other)
    /\ dom (tasks s') = dom (tasks s)
    /\ isRunning s' = isRunning s.
Proof.
  intros Hlookup.
  destruct (executeTask_frame s taskId t run Hlookup)
    as (r & s' & t' & Hexec & _ & Htasks & Hsame & Hrunning & _).
  exists r, s', t'. split; [exact Hexec|]. rewrite Htasks.
  split; [apply lookup_insert_eq|]. split; [exact Hsame|].
  split; [intros other Hother; apply lookup_insert_ne; congruence|].
  split; [|exact Hrunning].
  rewrite dom_insert_L.
  apply subseteq_union_1_L, singleton_subseteq_l, (elem_of_dom_2 _ _ _ Hlookup).
Qed.

(** *** The history over a series of executions *)

(** A series of calls of [executeTask], each with what it reads from
    outside; a call that throws leaves the scheduler as it was. *)
Definition executeTasks (calls : list (string * Run)) (s : Scheduler) : Scheduler :=
  fold_left (fun s call => snd (executeTask (fst call) (snd call) s)) calls s.

Lemma executeTask_history_bound taskId run s :
  (length (executionHistory s) <= 1000)%nat ->
  (length (executionHistory (snd (executeTask taskId run s))) <= 1000)%nat.
Proof.
  intros Hlen. destruct (tasks s !! taskId) as [t|] eqn:Hlookup.
  - destruct (executeTask_frame s taskId t run Hlookup)
      as (r & s' & t' & Hexec & _ & _ & _ & _ & Hhistory).
    rewrite Hexec. cbn [snd]. rewrite Hhistory.
    rewrite length_app. cbn [length].
    destruct (Nat.ltb_spec 1000 (length (executionHistory s) + 1)).
    + rewrite length_skipn, length_app. cbn [length]. lia.
    + rewrite length_app. cbn [length]. lia.
  - unfold executeTask. rewrite Hlookup. exact Hlen.
Qed.

(** X17.  The history never holds more than 1000 results: whatever
    calls of [executeTask] are made on a scheduler whose history is
    within that bound, and so on a scheduler as the constructor leaves
    it, the history stays within it; and no call adds or removes a
    task. *)
Theorem executionHistory_bounded :
  (forall calls s,
     (length (executionHistory s) <= 1000)%nat ->
     (length (executionHistory (executeTasks calls s)) <= 1000)%nat)
  /\ (forall adapters calls,
        (length (executionHistory (executeTasks calls (new_scheduler adapters)))
         <= 1000)%nat)
  /\ (forall calls s, dom (tasks (executeTasks calls s)) = dom (tasks s)).
Proof.
  assert (Hbound : forall calls s,
    (length (executionHistory s) <= 1000)%nat ->
    (length (executionHistory (executeTasks calls s)) <= 1000)%nat).
  { unfold executeTasks. induction calls as [|[taskId run] calls IH];
      intros s Hlen; cbn [fold_left fst snd]; [exact Hlen|].
    apply IH, executeTask_history_bound, Hlen. }
  split; [exact Hbound|]. split.
  - intros adapters calls. apply Hbound. cbn. lia.
  - unfold executeTasks. induction calls as [|[taskId run] calls IH];
      intros s; cbn [fold_left fst snd]; [reflexivity|].
    rewrite IH. destruct (tasks s !! taskId) as [t|] eqn:Hlookup.
    + destruct (executeTask_frame s taskId t run Hlookup)
        as (r & s' & t' & Hexec & _ & Htasks & _).
      rewrite Hexec. cbn [snd]. rewrite Htasks, dom_insert_L.
      apply subseteq_union_1_L, singleton_subseteq_l, (elem_of_dom_2 _ _ _ Hlookup).
    + unfold executeTask. rewrite Hlookup. reflexivity.
Qed.

(** *** The management interface *)

Definition with_enabled (t : ScheduledTask) (b : bool) : ScheduledTask :=
  {| id := id t; adapter := adapter t; schedule := schedule t;
     lastRun := lastRun t; nextRun := nextRun t; enabled := b;
     retryCount := retryCount t; maxRetries := maxRetries t |}.

Definition with_tasks (s : Scheduler) (m : gmap string ScheduledTask) : Scheduler :=
  {| tasks := m; executionHistory := executionHistory s;
     isRunning := isRunning s; effects := effects s |}.

(** [getTaskStatus(taskId)]: the task, or [null]. *)
Definition getTaskStatus (taskId : string) (s : Scheduler) : option ScheduledTask :=
  tasks s !! taskId.

(** [enableTask(taskId)] and [disableTask(taskId)]: what they return,
    and the scheduler afterwards. *)
Definition enableTask (taskId : string) (s : Scheduler) : bool * Scheduler :=
  match tasks s !! taskId with
  | Some task =>
      (true, with_tasks s (<[taskId := with_enabled task true]> (tasks s)))
  | None => (false, s)
  end.

Definition disableTask (taskId : string) (s : Scheduler) : bool * Scheduler :=
  match tasks s !! taskId with
  | Some task =>
      (true, with_tasks s (<[taskId := with_enabled task false]> (tasks s)))
  | None => (false, s)
  end.

(** [getExecutionHistory(taskId?)]: an id that is absent or empty is
    falsy, and the whole history is returned. *)
Definition getExecutionHistory (taskId : option string) (s : Scheduler)
  : list TaskExecutionResult :=
  match taskId with
  | Some wanted =>
      if JS.falsy_string wanted then executionHistory s
      else List.filter (fun h => String.eqb (TaskScheduler.taskId h) wanted)
             (executionHistory s)
  | None => executionHistory s
  end.

(** X18.  [disableTask] and [enableTask] return [true] for a task the
    scheduler has and set its [enabled] flag, which [getTaskStatus]
    then shows, every other field and every other task being as
    before; enabling after disabling gives what enabling alone gives.
    For an unknown id they return [false] and change nothing. *)
Theorem enableTask_disableTask_status taskId s :
  match tasks s !! taskId with
  | Some t =>
      fst (disableTask taskId s) = true
      /\ fst (enableTask taskId s) = true
      /\ getTaskStatus taskId (snd (disableTask taskId s))
         = Some (with_enabled t false)
      /\ getTaskStatus taskId (snd (enableTask taskId s))
         = Some (with_enabled t true)
      /\ snd (enableTask taskId (snd (disableTask taskId s)))
         = snd (enableTask taskId s)
      /\ (forall other,
            other <> taskId ->
            getTaskStatus other (snd (disableTask taskId s)) = getTaskStatus other s
            /\ getTaskStatus other (snd (enableTask taskId s))
               = getTaskStatus other s)
      /\ executionHistory (snd (disableTask taskId s)) = executionHistory s
      /\ effects (snd (disableTask taskId s)) = effects s
  | None =>
      disableTask taskId s = (false, s) /\ enableTask taskId s = (false, s)
  end.
Proof.
  unfold disableTask, enableTask, getTaskStatus.
  destruct (tasks s !! taskId) as [t|] eqn:Hlookup; [|split; reflexivity].
  cbn [fst snd with_tasks tasks executionHistory effects].
  rewrite !lookup_insert_eq.
  repeat split; try reflexivity.
  - unfold with_tasks. cbn [tasks executionHistory isRunning effects].
    rewrite insert_insert_eq. reflexivity.
  - apply lookup_insert_ne. congruence.
  - apply lookup_insert_ne. congruence.
Qed.

(** A context with the [enabled] flag of its task set. *)
Definition context_with_enabled (c : Context) (b : bool) : Context :=
  {| the_result := the_result c; the_task := with_enabled (the_task c) b;
     the_world := the_world c |}.

Lemma try_block_enabled run a c b :
  try_block run a (context_with_enabled c b)
  = (fst (try_block run a c), context_with_enabled (snd (try_block run a c)) b).
Proof.
  unfold try_block, collectData, submitDataToAPI, bind, when.
  destruct (collected run) as [message|[data evidence]]; [reflexivity|].
  cbv beta iota zeta delta [ret].
  generalize (adapter_validateData a data) as v. intros v.
  destruct (isValid v), (errors v), data, (importOutcome run); reflexivity.
Qed.

(** X19.  [executeTask] does not look at the [enabled] flag: on a
    task that was disabled it does what it does on the task enabled,
    returns the same result, and leaves the task disabled.  Disabling
    a task therefore stops neither a direct call nor a retry that a
    timer holds. *)
Theorem executeTask_ignores_enabled taskId run s :
  executeTask taskId run (snd (disableTask taskId s))
  = (fst (executeTask taskId run s),
     snd (disableTask taskId (snd (executeTask taskId run s)))).
Proof.
  unfold disableTask at 1.
  destruct (tasks s !! taskId) as [t|] eqn:Hlookup.
  - cbn [snd]. unfold executeTask. cbn [tasks with_tasks effects executionHistory
      isRunning]. rewrite lookup_insert_eq, Hlookup. cbv zeta.
    set (r0 := {| taskId := taskId; success := false; result_recordCount := 0;
                  result_errors := []; result_warnings := [];
                  executionTime := 0; timestamp := now run |}).
    set (c0 := {| the_result := r0; the_task := t; the_world := effects s |}).
    change {| the_result := r0; the_task := with_enabled t false;
              the_world := effects s |}
      with (context_with_enabled c0 false).
    change (adapter (with_enabled t false)) with (adapter t).
    rewrite try_block_enabled.
    destruct (try_block run (adapter t) c0) as [[message|[]] c'];
      cbn [fst snd]; unfold disableTask; cbn [tasks]; rewrite lookup_insert_eq;
      cbn [snd with_tasks tasks executionHistory isRunning effects];
      rewrite !insert_insert_eq; reflexivity.
  - cbn [snd]. unfold executeTask. rewrite Hlookup. cbn [fst snd].
    unfold disableTask. rewrite Hlookup. reflexivity.
Qed.

Lemma filter_snoc {A} (f : A -> bool) l x :
  List.filter f (l ++ [x]) = List.filter f l ++ (if f x then [x] else []).
Proof. rewrite List.filter_app. reflexivity. Qed.

(** X20.  After [executeTask] on a task the scheduler has, the result
    it returned is the last entry of the history, and the last entry
    of the history asked for by the task's id; the history asked for
    by an id holds the results of that task only.  Asked for by the
    empty id the whole history is returned, as when no id is given. *)
Theorem getExecutionHistory_after_executeTask s taskId t run :
  tasks s !! taskId = Some t ->
  taskId <> "" ->
  exists r s',
    executeTask taskId run s = (inr r, s')
    /\ last (getExecutionHistory None s') = Some r
    /\ last (getExecutionHistory (Some taskId) s') = Some r
    /\ (forall h, In h (getExecutionHistory (Some taskId) s') ->
                  TaskScheduler.taskId h = taskId)
    /\ getExecutionHistory (Some "") s' = getExecutionHistory None s'.
Proof.
  intros Hlookup Hid.
  destruct (executeTask_frame s taskId t run Hlookup)
    as (r & s' & t' & Hexec & Hr & _ & _ & _ & Hhistory).
  exists r, s'. split; [exact Hexec|].
  assert (Hlast : exists older, executionHistory s' = older ++ [r]).
  { rewrite Hhistory. destruct (1000 <? _)%nat; [|eauto].
    rewrite length_app. cbn [length].
    rewrite skipn_app.
    replace (length (executionHistory s) + 1 - 500 - length (executionHistory s))%nat
      with 0%nat by lia.
    cbn [skipn]. eauto. }
  destruct Hlast as [older Holder].
  unfold getExecutionHistory, JS.falsy_string.
  rewrite (bool_decide_eq_false_2 _ Hid), (bool_decide_eq_true_2 ("" = "") eq_refl).
  rewrite Holder, filter_snoc, Hr, String.eqb_refl, !last_snoc.
  split; [reflexivity|]. split; [reflexivity|]. split; [|reflexivity].
  intros h Hin. apply in_app_or in Hin. destruct Hin as [Hin|[<-|[]]]; [|exact Hr].
  apply List.filter_In in Hin. destruct Hin as [_ Hin].
  apply String.eqb_eq, Hin.
Qed.

(** *** Running every task *)

(** Whether the scheduler has the task and the task is enabled. *)
Definition enabled_in (s : Scheduler) (taskId : string) : bool :=
  match tasks s !! taskId with
  | Some task => enabled task
  | None => false
  end.

(** [executeAllTasks()].  The loop runs over the entries of the [Map]
    in the order of their insertion, which a [gmap] does not record:
    [order] is that order.  [runs taskId] is what the execution of the
    task reads from outside.  The second branch of the inner [match] is
    the [catch] block of the loop. *)
Fixpoint executeAllTasks_loop (runs : string -> Run) (order : list string)
  (s : Scheduler) (results : list TaskExecutionResult)
  : list TaskExecutionResult * Scheduler :=
  match order with
  | [] => (results, s)
  | taskId :: rest =>
      match tasks s !! taskId with
      | Some task =>
          if enabled task then
            match executeTask taskId (runs taskId) s with
            | (inr result, s') =>
                executeAllTasks_loop runs rest s' (results ++ [result])
            | (inl message, s') =>
                executeAllTasks_loop runs rest s'
                  (results
                   ++ [{| taskId := taskId; success := false;
                          result_recordCount := 0;
                          result_errors := [message]; result_warnings := [];
                          executionTime := 0; timestamp := now (runs taskId) |}])
            end
          else executeAllTasks_loop runs rest s results
      | None => executeAllTasks_loop runs rest s results
      end
  end.

Definition executeAllTasks (runs : string -> Run) (order : list string)
  (s : Scheduler) : list TaskExecutionResult * Scheduler :=
  executeAllTasks_loop runs order s [].

Lemma executeTask_enabled_in s taskId t run :
  tasks s !! taskId = Some t ->
  forall other,
    enabled_in (snd (executeTask taskId run s)) other = enabled_in s other.
Proof.
  intros Hlookup other.
  destruct (executeTask_frame s taskId t run Hlookup)
    as (r & s' & t' & Hexec & _ & Htasks & Hsame & _).
  rewrite Hexec. cbn [snd]. unfold enabled_in. rewrite Htasks.
  destruct (decide (other = taskId)) as [->|Hne].
  - rewrite lookup_insert_eq, Hlookup. apply Hsame.
  - rewrite lookup_insert_ne by congruence. reflexivity.
Qed.

Lemma executeAllTasks_loop_report runs order s results :
  exists new,
    fst (executeAllTasks_loop runs order s results) = results ++ new
    /\ map taskId new = List.filter (enabled_in s) order
    /\ (forall other,
          enabled_in (snd (executeAllTasks_loop runs order s results)) other
          = enabled_in s other)
    /\ (forall other,
          ~ In other (List.filter (enabled_in s) order) ->
          tasks (snd (executeAllTasks_loop runs order s results)) !! other
          = tasks s !! other)
    /\ ((length (executionHistory s) + length order <= 1000)%nat ->
        executionHistory (snd (executeAllTasks_loop runs order s results))
        = executionHistory s ++ new).
Proof.
  revert s results. induction order as [|taskId rest IH]; intros s results.
  { exists []. cbn. rewrite !app_nil_r. auto. }
  cbn [executeAllTasks_loop List.filter].
  destruct (tasks s !! taskId) as [t|] eqn:Hlookup.
  2: { assert (Hen : enabled_in s taskId = false)
         by (unfold enabled_in; rewrite Hlookup; reflexivity).
       rewrite Hen.
       destruct (IH s results) as (new & E & Hids & Hflags & Hothers & Hhistory).
       exists new. repeat split; auto. intros Hlen. apply Hhistory.
       cbn [length] in Hlen. lia. }
  destruct (enabled t) eqn:Henabled.
  2: { assert (Hen : enabled_in s taskId = false)
         by (unfold enabled_in; rewrite Hlookup; exact Henabled).
       rewrite Hen.
       destruct (IH s results) as (new & E & Hids & Hflags & Hothers & Hhistory).
       exists new. repeat split; auto. intros Hlen. apply Hhistory.
       cbn [length] in Hlen. lia. }
  assert (Hen : enabled_in s taskId = true)
    by (unfold enabled_in; rewrite Hlookup; exact Henabled).
  rewrite Hen.
  pose proof (executeTask_enabled_in s taskId t (runs taskId) Hlookup) as Hsame.
  destruct (executeTask_frame s taskId t (runs taskId) Hlookup)
    as (r & s' & t' & Hexec & Hr & Htasks & _ & _ & Hh).
  rewrite Hexec in *. cbn [snd] in Hsame.
  destruct (IH s' (results ++ [r])) as (new & E & Hids & Hflags & Hothers & Hhistory).
  exists (r :: new). rewrite E, <- app_assoc. split; [reflexivity|].
  split.
  { cbn [map]. rewrite Hr, Hids. f_equal. apply List.filter_ext, Hsame. }
  split; [intros other; rewrite Hflags; apply Hsame|].
  split.
  - intros other Hnot. rewrite Hothers.
    + rewrite Htasks. apply lookup_insert_ne. intros ->. apply Hnot. left. reflexivity.
    + intros Hin. apply Hnot. right.
      rewrite <- (List.filter_ext _ _ Hsame). exact Hin.
  - intros Hlen. cbn [length] in Hlen.
    assert (Hs' : executionHistory s' = executionHistory s ++ [r]).
    { rewrite Hh, length_app. cbn [length].
      destruct (Nat.ltb_spec 1000 (length (executionHistory s) + 1)); [lia|].
      reflexivity. }
    rewrite Hhistory, Hs', <- app_assoc; [reflexivity|].
    rewrite Hs', length_app. cbn [length]. lia.
Qed.

(** X21.  [executeAllTasks] returns one result for each enabled task,
    in the order of the tasks, and each is the result [executeTask]
    returned and recorded: while the history has room for them, it
    grows by exactly the results returned, so the result made up in
    the [catch] block of the loop never occurs.  A task that is
    disabled is not run and stays as it was, and no task's [enabled]
    flag changes. *)
Theorem executeAllTasks_runs_enabled runs order s :
  map taskId (fst (executeAllTasks runs order s))
  = List.filter (enabled_in s) order
  /\ (forall other,
        enabled_in (snd (executeAllTasks runs order s)) other = enabled_in s other)
  /\ (forall other,
        ~ In other (List.filter (enabled_in s) order) ->
        tasks (snd (executeAllTasks runs order s)) !! other = tasks s !! other)
  /\ ((length (executionHistory s) + length order <= 1000)%nat ->
      executionHistory (snd (executeAllTasks runs order s))
      = executionHistory s ++ fst (executeAllTasks runs order s)).
Proof.
  unfold executeAllTasks.
  destruct (executeAllTasks_loop_report runs order s [])
    as (new & E & Hids & Hflags & Hothers & Hhistory).
  rewrite E. cbn [app]. auto.
Qed.

(** *** Starting and stopping *)

(** A job registered with [cron.schedule]: the cron expression, and
    the task its callback executes. *)
Record CronJob := {
  cron_expression : string;
  cron_task : string
}.

Definition with_nextRun (t : ScheduledTask) (time : Z) : ScheduledTask :=
  {| id := id t; adapter := adapter t; schedule := schedule t;
     lastRun := lastRun t; nextRun := Some time; enabled := enabled t;
     retryCount := retryCount t; maxRetries := maxRetries t |}.

Definition with_isRunning (s : Scheduler) (b : bool) : Scheduler :=
  {| tasks := tasks s; executionHistory := executionHistory s;
     isRunning := b; effects := effects s |}.

(** [calculateNextRun(schedule)] at the time [now]. *)
Definition calculateNextRun (schedule : string) (now : Z) : Z :=
  now + 24 * 60 * 60 * 1000.

(** The loop of [start] over the entries of the [Map] in their order;
    [clock taskId] is the time at which the next run of the task is
    calculated. *)
Fixpoint start_loop (clock : string -> Z) (order : list string)
  (s : Scheduler) (jobs : list CronJob) : list CronJob * Scheduler :=
  match order with
  | [] => (jobs, s)
  | taskId :: rest =>
      match tasks s !! taskId with
      | Some task =>
          if enabled task then
            let job := {| cron_expression := schedule task; cron_task := taskId |} in
            let task :=
              with_nextRun task (calculateNextRun (schedule task) (clock taskId)) in
            start_loop clock rest (with_tasks s (<[taskId := task]> (tasks s)))
              (jobs ++ [job])
          else start_loop clock rest s jobs
      | None => start_loop clock rest s jobs
      end
  end.

(** [start()]: the jobs it registers, and the scheduler afterwards. *)
Definition start (clock : string -> Z) (order : list string) (s : Scheduler)
  : list CronJob * Scheduler :=
  if isRunning s then ([], s)
  else start_loop clock order (with_isRunning s true) [].

Definition stop (s : Scheduler) : Scheduler := with_isRunning s false.

(** The job [start] registers for a task. *)
Definition job_of (s : Scheduler) (taskId : string) : CronJob :=
  {| cron_expression := default "" (schedule <$> tasks s !! taskId);
     cron_task := taskId |}.

(** Two schedulers whose tasks agree in everything but [nextRun]. *)
Definition same_but_nextRun (s s' : Scheduler) : Prop :=
  forall taskId,
    match tasks s !! taskId, tasks s' !! taskId with
    | Some t, Some t' =>
        id t' = id t /\ adapter t' = adapter t /\ schedule t' = schedule t
        /\ lastRun t' = lastRun t /\ enabled t' = enabled t
        /\ retryCount t' = retryCount t /\ maxRetries t' = maxRetries t
    | None, None => True
    | _, _ => False
    end.

Lemma same_but_nextRun_refl s : same_but_nextRun s s.
Proof. intros taskId. destruct (tasks s !! taskId); repeat split. Qed.

Lemma same_but_nextRun_jobs s s' order :
  same_but_nextRun s s' ->
  map (job_of s') (List.filter (enabled_in s') order)
  = map (job_of s) (List.filter (enabled_in s) order).
Proof.
  intros Hsame. induction order as [|taskId rest IH]; [reflexivity|].
  cbn [List.filter].
  assert (Hjob : enabled_in s' taskId = enabled_in s taskId
                 /\ (enabled_in s taskId = true -> job_of s' taskId = job_of s taskId)).
  { unfold enabled_in, job_of. pose proof (Hsame taskId) as Ht.
    destruct (tasks s !! taskId) as [t|], (tasks s' !! taskId) as [t'|];
      [|destruct Ht|destruct Ht|split; [reflexivity | discriminate]].
    destruct Ht as (_ & _ & Hschedule & _ & Henabled & _).
    split; [exact Henabled|]. intros _. cbn. rewrite Hschedule. reflexivity. }
  destruct Hjob as [Hen Hjob]. rewrite Hen.
  destruct (enabled_in s taskId); [|exact IH].
  cbn [map]. rewrite IH, Hjob; reflexivity.
Qed.

Lemma start_loop_report clock order s jobs :
  fst (start_loop clock order s jobs)
  = jobs ++ map (job_of s) (List.filter (enabled_in s) order)
  /\ same_but_nextRun s (snd (start_loop clock order s jobs))
  /\ isRunning (snd (start_loop clock order s jobs)) = isRunning s
  /\ executionHistory (snd (start_loop clock order s jobs)) = executionHistory s
  /\ effects (snd (start_loop clock order s jobs)) = effects s
  /\ (forall taskId,
        In taskId order -> enabled_in s taskId = true ->
        (nextRun <$> tasks (snd (start_loop clock order s jobs)) !! taskId)
        = Some (Some (clock taskId + 86400000)))
  /\ (forall taskId,
        ~ In taskId (List.filter (enabled_in s) order) ->
        tasks (snd (start_loop clock order s jobs)) !! taskId = tasks s !! taskId).
Proof.
  revert s jobs. induction order as [|taskId rest IH]; intros s jobs.
  { cbn. rewrite app_nil_r. repeat split; auto using same_but_nextRun_refl.
    intros ? []. }
  cbn [start_loop List.filter].
  destruct (tasks s !! taskId) as [t|] eqn:Hlookup.
  2: { assert (Hen : enabled_in s taskId = false)
         by (unfold enabled_in; rewrite Hlookup; reflexivity).
       rewrite Hen.
       destruct (IH s jobs) as (Hjobs & Hsame & Hrun & Hh & He & Hnext & Hrest).
       repeat split; auto.
       intros other [<-|Hin] Hother; [congruence | auto]. }
  destruct (enabled t) eqn:Henabled.
  2: { assert (Hen : enabled_in s taskId = false)
         by (unfold enabled_in; rewrite Hlookup; exact Henabled).
       rewrite Hen.
       destruct (IH s jobs) as (Hjobs & Hsame & Hrun & Hh & He & Hnext & Hrest).
       repeat split; auto.
       intros other [<-|Hin] Hother; [congruence | auto]. }
  assert (Hen : enabled_in s taskId = true)
    by (unfold enabled_in; rewrite Hlookup; exact Henabled).
  rewrite Hen.
  cbv zeta.
  set (t1 := with_nextRun t (calculateNextRun (schedule t) (clock taskId))).
  set (s1 := with_tasks s (<[taskId := t1]> (tasks s))).
  destruct (IH s1 (jobs ++ [{| cron_expression := schedule t; cron_task := taskId |}]))
    as (Hjobs & Hsame & Hrun & Hh & He & Hnext & Hrest).
  assert (Hstep : same_but_nextRun s s1).
  { intros other. unfold s1. cbn [tasks with_tasks].
    destruct (decide (other = taskId)) as [->|Hne].
    - rewrite lookup_insert_eq, Hlookup. repeat split.
    - rewrite lookup_insert_ne by congruence.
      destruct (tasks s !! other); repeat split. }
  assert (Henabled_in : forall other, enabled_in s1 other = enabled_in s other).
  { intros other. unfold enabled_in. pose proof (Hstep other) as Ho.
    destruct (tasks s !! other), (tasks s1 !! other);
      [|destruct Ho|destruct Ho|reflexivity].
    tauto. }
  split.
  { rewrite Hjobs, <- app_assoc. f_equal. cbn [app map]. f_equal.
    - unfold job_of. rewrite Hlookup. reflexivity.
    - apply same_but_nextRun_jobs, Hstep. }
  split.
  { intros other. pose proof (Hstep other) as H1. pose proof (Hsame other) as H2.
    destruct (tasks s !! other), (tasks s1 !! other),
      (tasks (snd (start_loop clock rest s1 _)) !! other);
      try tauto.
    destruct H1 as (? & ? & ? & ? & ? & ? & ?), H2 as (? & ? & ? & ? & ? & ? & ?).
    repeat split; congruence. }
  split; [exact Hrun|]. split; [exact Hh|]. split; [exact He|].
  split.
  - intros other [<-|Hin] Hother.
    + destruct (in_dec string_dec taskId rest) as [Hin|Hnot].
      * apply Hnext; [exact Hin|]. rewrite Henabled_in. exact Hother.
      * rewrite Hrest.
        -- unfold s1. cbn [tasks with_tasks]. rewrite lookup_insert_eq. reflexivity.
        -- intros Hin. apply List.filter_In in Hin. tauto.
    + apply Hnext; [exact Hin|]. rewrite Henabled_in. exact Hother.
  - intros other Hnot. rewrite Hrest.
    + unfold s1. cbn [tasks with_tasks]. apply lookup_insert_ne.
      intros ->. apply Hnot. left. reflexivity.
    + intros Hin. apply Hnot. right.
      rewrite <- (List.filter_ext _ _ Henabled_in). exact Hin.
Qed.

(** X22.  [start] on a scheduler that is running does nothing.  On
    one that is not running it registers one cron job for each enabled
    task, in the order of the tasks and under the task's schedule, sets
    [isRunning], and sets the next run of each of these tasks to 24
    hours after the time of the call, whatever the schedule says; a
    disabled task is left as it was.  [stop] clears [isRunning] and
    nothing else, so a [start] after it registers the same jobs a
    second time. *)
Theorem start_registers_enabled_tasks clock order s :
  (isRunning s = true -> start clock order s = ([], s))
  /\ (isRunning s = false ->
      fst (start clock order s)
      = map (job_of s) (List.filter (enabled_in s) order)
      /\ isRunning (snd (start clock order s)) = true
      /\ (forall taskId,
            In taskId order -> enabled_in s taskId = true ->
            (nextRun <$> tasks (snd (start clock order s)) !! taskId)
            = Some (Some (clock taskId + 86400000)))
      /\ (forall taskId,
            ~ In taskId (List.filter (enabled_in s) order) ->
            tasks (snd (start clock order s)) !! taskId = tasks s !! taskId)
      /\ (forall later,
            start later order (snd (start clock order s))
            = ([], snd (start clock order s)))
      /\ (forall later,
            fst (start later order (stop (snd (start clock order s))))
            = fst (start clock order s)))
  /\ tasks (stop s) = tasks s
  /\ isRunning (stop s) = false.
Proof.
  split; [intros Hrun; unfold start; rewrite Hrun; reflexivity|].
  split; [|split; reflexivity].
  intros Hrun.
  assert (Hstart : start clock order s
                   = start_loop clock order (with_isRunning s true) [])
    by (unfold start; rewrite Hrun; reflexivity).
  rewrite !Hstart.
  destruct (start_loop_report clock order (with_isRunning s true) [])
    as (Hjobs & Hsame & Hrunning & _ & _ & Hnext & Hrest).
  split; [exact Hjobs|]. split; [exact Hrunning|].
  split; [exact Hnext|]. split; [exact Hrest|].
  split.
  - intros later. unfold start. rewrite Hrunning. reflexivity.
  - intros later. unfold start, stop. cbn [isRunning with_isRunning].
    destruct (start_loop_report later order
                (with_isRunning
                   (with_isRunning
                      (snd (start_loop clock order (with_isRunning s true) [])) false)
                   true) [])
      as (Hjobs' & _).
    rewrite Hjobs', Hjobs. cbn [app].
    apply (same_but_nextRun_jobs (with_isRunning s true)). exact Hsame.
Qed.

End Operations.

Section CsvFormat.
Context `{Engine}.

(** *** Reading the CSV back *)

(** A field without a double quote. *)
Fixpoint quote_free (field : string) : bool :=
  match field with
  | EmptyString => true
  | String c rest => negb (Ascii.eqb c (ascii_of_nat 34)) && quote_free rest
  end.

Lemma quote_free_split f1 f2 r1 r2 :
  quote_free f1 = true -> quote_free f2 = true ->
  f1 +:+ quote +:+ r1 = f2 +:+ quote +:+ r2 -> f1 = f2 /\ r1 = r2.
Proof.
  revert f2. induction f1 as [|c f1 IH]; intros [|c2 f2]; cbn [quote_free];
    intros H1 H2 E.
  - injection E as E. auto.
  - cbn in E. injection E as <- _.
    apply andb_prop in H2. destruct H2 as [H2 _]. discriminate.
  - cbn in E. injection E as -> _.
    apply andb_prop in H1. destruct H1 as [H1 _]. discriminate.
  - cbn in E. injection E as -> E.
    apply andb_prop in H1. destruct H1 as [_ H1].
    apply andb_prop in H2. destruct H2 as [_ H2].
    destruct (IH f2 H1 H2 E) as [-> ->]. auto.
Qed.

Lemma quoted_split f1 f2 r1 r2 :
  quote_free f1 = true -> quote_free f2 = true ->
  quoted f1 +:+ r1 = quoted f2 +:+ r2 -> f1 = f2 /\ r1 = r2.
Proof.
  intros H1 H2 E. unfold quoted in E.
  assert (Hassoc : forall f r, (quote +:+ f +:+ quote) +:+ r
                               = quote +:+ (f +:+ quote +:+ r)).
  { intros f r. unfold quote. cbn [String.append].
    f_equal. induction f as [|c f IHf]; cbn [String.append]; [reflexivity|].
    f_equal. exact IHf. }
  rewrite !Hassoc in E. unfold quote at 1 3 in E. cbn [String.append] in E.
  injection E as E. apply quote_free_split; assumption.
Qed.

(** The fields of a line, each between quotes, joined by commas, and
    what follows the line. *)
Fixpoint line_text (fields : list string) (rest : string) : string :=
  match fields with
  | [] => rest
  | [field] => quoted field +:+ rest
  | field :: more => quoted field +:+ "," +:+ line_text more rest
  end.

Lemma csv_line_text fields rest :
  fields <> [] -> csv_line fields +:+ rest = line_text fields rest.
Proof.
  unfold csv_line. induction fields as [|field more IH]; [congruence|].
  intros _. destruct more as [|next more].
  - reflexivity.
  - cbn [map JS.join line_text] in *. fold (quoted field). fold (quoted next) in *.
    rewrite !JS.append_assoc. f_equal. f_equal. apply IH. discriminate.
Qed.

Lemma line_text_inj fields1 fields2 rest1 rest2 :
  length fields1 = length fields2 ->
  Forall (fun f => quote_free f = true) fields1 ->
  Forall (fun f => quote_free f = true) fields2 ->
  line_text fields1 rest1 = line_text fields2 rest2 ->
  fields1 = fields2 /\ rest1 = rest2.
Proof.
  revert fields2. induction fields1 as [|f1 more1 IH]; intros [|f2 more2] Hlen H1 H2 E;
    try discriminate; [auto|].
  apply Forall_cons in H1. destruct H1 as [Hf1 H1].
  apply Forall_cons in H2. destruct H2 as [Hf2 H2].
  injection Hlen as Hlen.
  destruct more1 as [|g1 more1], more2 as [|g2 more2]; try discriminate.
  - cbn [line_text] in E. apply quoted_split in E; try assumption.
    destruct E as [-> ->]. auto.
  - cbn [line_text] in E.
    change (quoted f1 +:+ "," +:+ line_text (g1 :: more1) rest1
            = quoted f2 +:+ "," +:+ line_text (g2 :: more2) rest2) in E.
    apply quoted_split in E; try assumption. destruct E as [-> E].
    cbn [String.append] in E. injection E as E.
    destruct (IH (g2 :: more2) Hlen H1 H2 E) as [-> ->]. auto.
Qed.

(** The lines of a CSV, and what follows them. *)
Fixpoint lines_text (rows : list (list string)) : string :=
  match rows with
  | [] => ""
  | [row] => line_text row ""
  | row :: more => line_text row (line_feed +:+ lines_text more)
  end.

Lemma join_lines rows :
  Forall (fun row => row <> []) rows ->
  JS.join line_feed (map csv_line rows) = lines_text rows.
Proof.
  induction rows as [|row more IH]; [reflexivity|].
  intros Hrows. apply Forall_cons in Hrows. destruct Hrows as [Hrow Hmore].
  destruct more as [|next more].
  - cbn [map JS.join lines_text]. rewrite <- (csv_line_text row "" Hrow).
    symmetry. apply JS.append_nil_r.
  - cbn [map JS.join lines_text] in *. rewrite <- csv_line_text by exact Hrow.
    f_equal. f_equal. apply IH, Hmore.
Qed.

Lemma line_text_quote fields rest :
  fields <> [] -> exists tail, line_text fields rest = String (ascii_of_nat 34) tail.
Proof.
  destruct fields as [|f [|g more]]; [congruence| |]; intros _;
    cbn [line_text]; unfold quoted, quote; cbn [String.append]; eauto.
Qed.

Lemma lines_text_quote row more :
  row <> [] ->
  exists tail, lines_text (row :: more) = String (ascii_of_nat 34) tail.
Proof.
  intros Hrow. destruct more; cbn [lines_text]; apply line_text_quote, Hrow.
Qed.

Lemma lines_text_inj rows1 rows2 :
  Forall (fun row => length row = 10%nat /\ Forall (fun f => quote_free f = true) row)
    rows1 ->
  Forall (fun row => length row = 10%nat /\ Forall (fun f => quote_free f = true) row)
    rows2 ->
  lines_text rows1 = lines_text rows2 -> rows1 = rows2.
Proof.
  intros H1. revert rows2. induction H1 as [|row1 more1 [Hlen1 Hq1] H1 IH];
    intros rows2 H2 E.
  - destruct H2 as [|row2 more2 [Hlen2 Hq2] H2]; [reflexivity|].
    exfalso. assert (Hne : row2 <> []) by (intros ->; discriminate).
    destruct more2 as [|next2 more2]; cbn [lines_text] in E;
      match type of E with
      | context [line_text row2 ?r] =>
          destruct (line_text_quote row2 r Hne) as [tail Ht]
      end;
      rewrite Ht in E; discriminate.
  - destruct H2 as [|row2 more2 [Hlen2 Hq2] H2].
    + exfalso. assert (Hne : row1 <> []) by (intros ->; discriminate).
      destruct more1 as [|next1 more1]; cbn [lines_text] in E;
        match type of E with
        | context [line_text row1 ?r] =>
            destruct (line_text_quote row1 r Hne) as [tail Ht]
        end;
        rewrite Ht in E; discriminate.
    + assert (Hsplit : row1 = row2
                       /\ match more1 with [] => "" | _ => line_feed +:+ lines_text more1 end
                          = match more2 with [] => "" | _ => line_feed +:+ lines_text more2 end).
      { apply line_text_inj; try assumption; [congruence|].
        destruct more1, more2; exact E. }
      destruct Hsplit as [-> Hrest]. f_equal. apply IH; [exact H2|].
      destruct more1, more2; try reflexivity; try discriminate.
      unfold line_feed in Hrest. cbn [String.append] in Hrest.
      injection Hrest as Hrest. exact Hrest.
Qed.

(** X23.  When no field of the rows holds a double quote, the CSV of
    [convertToCSVFormat] can be read back: two batches with the same
    CSV have the same fields in every row.  Fields are written between
    quotes without any escaping, and with a quote inside a field this
    fails: two rows that differ in market code and instrument code can
    give the same CSV. *)
Theorem convertToCSVFormat_unambiguous :
  (forall records1 records2,
     (forall record field,
        In record (records1 ++ records2) -> In field (csv_row record) ->
        quote_free field = true) ->
     convertToCSVFormat records1 = convertToCSVFormat records2 ->
     map csv_row records1 = map csv_row records2)
  /\ (forall record,
        let first :=
          {| date := date record;
             marketCode := "A" +:+ quote +:+ "," +:+ quote +:+ "B";
             instrumentCode := "C"; price := price record;
             currency := Types.currency record; volume := volume record;
             sourceUrl := sourceUrl record; collectedBy := collectedBy record;
             metadata := metadata record |} in
        let second :=
          {| date := date record; marketCode := "A";
             instrumentCode := "B" +:+ quote +:+ "," +:+ quote +:+ "C";
             price := price record;
             currency := Types.currency record; volume := volume record;
             sourceUrl := sourceUrl record; collectedBy := collectedBy record;
             metadata := metadata record |} in
        csv_row first <> csv_row second
        /\ convertToCSVFormat [first] = convertToCSVFormat [second]).
Proof.
  split.
  - intros records1 records2 Hfields E.
    assert (Hrows : forall records,
      (forall record field, In record records -> In field (csv_row record) ->
                            quote_free field = true) ->
      Forall (fun row => length row = 10%nat
                         /\ Forall (fun f => quote_free f = true) row)
        (csv_headers :: map csv_row records)).
    { intros records Hq. constructor.
      - split; [reflexivity|]. repeat constructor.
      - induction records as [|r rs IH]; [constructor|].
        cbn [map]. constructor.
        + split; [reflexivity|]. apply List.Forall_forall.
          intros field Hin. apply (Hq r); [left; reflexivity | exact Hin].
        + apply IH. intros record field Hin. apply Hq. right. exact Hin. }
    assert (Hne : forall rows : list (list string),
      Forall (fun row => length row = 10%nat
                         /\ Forall (fun f => quote_free f = true) row) rows ->
      Forall (fun row => row <> []) rows).
    { intros rows Hall. induction Hall as [|row rows [Hlen _] _ IH]; constructor;
        [intros ->; discriminate | exact IH]. }
    assert (H1 := Hrows records1
      (fun record field Hin => Hfields record field (in_or_app _ _ _ (or_introl Hin)))).
    assert (H2 := Hrows records2
      (fun record field Hin => Hfields record field (in_or_app _ _ _ (or_intror Hin)))).
    unfold convertToCSVFormat in E.
    destruct records1 as [|r1 rs1], records2 as [|r2 rs2]; cbn [length Nat.eqb] in E.
    + reflexivity.
    + exfalso. rewrite (join_lines _ (Hne _ H2)) in E.
      destruct (lines_text_quote csv_headers (map csv_row (r2 :: rs2)))
        as [tail Ht]; [discriminate|].
      rewrite Ht in E. discriminate.
    + exfalso. rewrite (join_lines _ (Hne _ H1)) in E.
      destruct (lines_text_quote csv_headers (map csv_row (r1 :: rs1)))
        as [tail Ht]; [discriminate|].
      rewrite Ht in E. discriminate.
    + rewrite (join_lines _ (Hne _ H1)), (join_lines _ (Hne _ H2)) in E.
      apply lines_text_inj in E; [|exact H1|exact H2].
      exact (f_equal (@List.tl _) E).
  - intros record first second. split.
    + unfold csv_row, first, second. cbn [Types.marketCode instrumentCode].
      intros E. injection E as E _. discriminate.
    + unfold convertToCSVFormat, csv_line, csv_row, first, second.
      cbn [length Nat.eqb map JS.join Types.marketCode instrumentCode date price
           Types.currency volume sourceUrl collectedBy].
      unfold quote. cbn [String.append]. reflexivity.
Qed.

End CsvFormat.

(** *** Worked executions of the operations *)

(** A run that collects the given records and whose import is refused
    with the status 500 and no body to read an error from. *)
Definition refused_run (time : Z) (records : list PriceRecord) : Run := {|
  startTime := time; now := time;
  collected := inr (records, []);
  importOutcome := NotOk 500 None;
  finishTime := time + 30; endTime := time + 40
|}.

Lemma cca_task_reports_errors_as_invalid :
  reports_errors_as_invalid (adapter cca_task).
Proof. intros data. reflexivity. Qed.

Lemma executeTask_succeeds_iff_witness :
  tasks sample !! "cca-daily" = Some cca_task
  /\ tasks after_3 !! "cca-daily" = Some (with_retryCount cca_task 3)
  /\ reports_errors_as_invalid (adapter cca_task)
  /\ @executeTask Sample.engine "cca-daily" good_run after_3
     = (inr (the_result_on "cca-daily" good_run after_3),
        run_on "cca-daily" good_run after_3)
  /\ (success (the_result_on "cca-daily" good_run after_3) = true
      <-> completes good_run (adapter cca_task)).
Proof.
  assert (Ht : tasks after_3 !! "cca-daily"
               = Some (with_retryCount cca_task 3))
    by reflexivity.
  assert (Hexec : @executeTask Sample.engine "cca-daily" good_run after_3
                  = (inr (the_result_on "cca-daily" good_run after_3),
                     run_on "cca-daily" good_run after_3))
    by reflexivity.
  split; [reflexivity|]. split; [exact Ht|].
  split; [exact cca_task_reports_errors_as_invalid|].
  split; [exact Hexec|].
  exact (proj1 (@executeTask_succeeds_iff Sample.engine after_3 "cca-daily" _
                  good_run _ _ Ht cca_task_reports_errors_as_invalid Hexec)).
Defined.

Lemma executeTask_import_failure_witness :
  tasks sample !! "cca-daily" = Some cca_task
  /\ collected (refused_run 0 [cca_usd_record]) = inr ([cca_usd_record], [])
  /\ errors (adapter_validateData (adapter cca_task) [cca_usd_record]) = []
  /\ importOutcome (refused_run 0 [cca_usd_record]) = NotOk 500 None
  /\ exists r s',
       @executeTask Sample.engine "cca-daily" (refused_run 0 [cca_usd_record]) sample
       = (inr r, s')
       /\ success r = false
       /\ result_errors r = ["Import API failed: 500 - Unknown error"]
       /\ posted (effects s')
          = posted (effects sample) ++ [@convertToCSVFormat Sample.engine [cca_usd_record]]
       /\ retryCount_of s' "cca-daily" = Some 1.
Proof.
  assert (Ht : tasks sample !! "cca-daily" = Some cca_task) by reflexivity.
  assert (Herrors :
    errors (adapter_validateData (adapter cca_task) [cca_usd_record]) = [])
    by (vm_compute; reflexivity).
  split; [exact Ht|]. split; [reflexivity|]. split; [exact Herrors|].
  split; [reflexivity|].
  destruct (@executeTask_import_failure Sample.engine sample "cca-daily" cca_task
              (refused_run 0 [cca_usd_record]) [cca_usd_record] [] 500 None
              Ht cca_task_reports_errors_as_invalid eq_refl
              ltac:(discriminate) Herrors eq_refl)
    as (r & s' & Hexec & Hsuccess & _ & Hlist & _ & Hposted & Hretry & _).
  exists r, s'. repeat split; assumption.
Defined.

Lemma executeTask_touches_one_task_witness :
  tasks sample !! "cca-daily" = Some cca_task
  /\ exists r s' t',
       @executeTask Sample.engine "cca-daily" (failing_run 0) sample = (inr r, s')
       /\ tasks s' !! "cca-daily" = Some t'
       /\ same_settings cca_task t'
       /\ (forall other, other <> "cca-daily" ->
             tasks s' !! other = tasks sample !! other)
       /\ dom (tasks s') = dom (tasks sample)
       /\ isRunning s' = isRunning sample.
Proof.
  assert (Ht : tasks sample !! "cca-daily" = Some cca_task) by reflexivity.
  split; [exact Ht|].
  exact (@executeTask_touches_one_task Sample.engine sample "cca-daily" cca_task
           (failing_run 0) Ht).
Defined.

Lemma getExecutionHistory_after_executeTask_witness :
  tasks after_1 !! "cca-daily" = Some (with_retryCount cca_task 1)
  /\ "cca-daily" <> ""
  /\ exists r s',
       @executeTask Sample.engine "cca-daily" good_run after_1 = (inr r, s')
       /\ last (getExecutionHistory None s') = Some r
       /\ last (getExecutionHistory (Some "cca-daily") s') = Some r
       /\ (forall h, In h (getExecutionHistory (Some "cca-daily") s') ->
             taskId h = "cca-daily")
       /\ getExecutionHistory (Some "") s' = getExecutionHistory None s'.
Proof.
  assert (Ht : tasks after_1 !! "cca-daily" = Some (with_retryCount cca_task 1))
    by reflexivity.
  split; [exact Ht|]. split; [discriminate|].
  exact (@getExecutionHistory_after_executeTask Sample.engine after_1 "cca-daily" _
           good_run Ht ltac:(discriminate)).
Defined.

End TaskScheduler.
